(** * AbyssTracker data pack builder: a model of [tools/build_pack.py]

    The development follows the layout of the script: Python values as they
    come out of [json.loads], the two normalising lookups, the two table
    builders, the difference hash and the hash index builder.  Library code
    the script calls (OpenCV, urllib) enters as section variables. *)

From Stdlib Require Import ZArith List String Ascii Bool Lia.
From Stdlib Require Import DecimalString DecimalPos Strings.Byte.
From Stdlib Require Import Sorting.Permutation Sorting.Sorted.
Import ListNotations.

Set Warnings "-register-all".

Local Open Scope string_scope.
Local Open Scope Z_scope.

(** ** Exceptions and fallible results *)

Inductive exn : Type :=
| TypeError
| ValueError
| OverflowError
| AttributeError
| LibError (what : string).

Inductive res (A : Type) : Type :=
| Ok (a : A)
| Raise (e : exn).

Arguments Ok {A} a.
Arguments Raise {A} e.

Definition bind {A B : Type} (m : res A) (k : A -> res B) : res B :=
  match m with
  | Ok a => k a
  | Raise e => Raise e
  end.

Notation "x <- m ;; k" := (bind m (fun x => k))
  (at level 61, m at next level, right associativity).

Fixpoint mapM {A B : Type} (f : A -> res B) (l : list A) : res (list B) :=
  match l with
  | [] => Ok []
  | a :: l' =>
      b <- f a ;;
      bs <- mapM f l' ;;
      Ok (b :: bs)
  end.

(** ** Python values produced by [json.loads] *)

(** A float is carried by what the script can observe of it: [int(f)],
    [bool(f)] and [str(f)]. *)
Inductive pyfloat : Type :=
| FFinite (trunc : Z) (nonzero : bool) (repr : string)
| FNan
| FInf (negative : bool).

Inductive json : Type :=
| JNull
| JBool (b : bool)
| JInt (n : Z)
| JFloat (f : pyfloat)
| JStr (s : string)
| JArr (l : list json)
| JObj (m : list (string * json)).

(** A [dict] with string keys, in insertion order. *)
Definition dict : Type := list (string * json).

Fixpoint dict_get {V : Type} (d : list (string * V)) (k : string) : option V :=
  match d with
  | [] => None
  | (k', v) :: d' => if String.eqb k' k then Some v else dict_get d' k
  end.

(** [d[k] = v]: an existing key keeps its place, a new key goes last. *)
Fixpoint dict_set (d : dict) (k : string) (v : json) : dict :=
  match d with
  | [] => [(k, v)]
  | (k', v') :: d' =>
      if String.eqb k' k then (k', v) :: d' else (k', v') :: dict_set d' k v
  end.

Definition keys (d : dict) : list string := map fst d.

Definition len (d : dict) : Z := Z.of_nat (List.length d).

(** [x.get(k, default)] on a parsed JSON value; only a [dict] has [get]. *)
Definition py_get (x : json) (k : string) (default : json) : res json :=
  match x with
  | JObj m =>
      match dict_get m k with
      | Some v => Ok v
      | None => Ok default
      end
  | _ => Raise AttributeError
  end.

(** [bool(x)] *)
Definition truthy (x : json) : bool :=
  match x with
  | JNull => false
  | JBool b => b
  | JInt n => negb (n =? 0)
  | JFloat (FFinite _ nz _) => nz
  | JFloat _ => true
  | JStr s => negb (String.eqb s "")
  | JArr l => match l with [] => false | _ => true end
  | JObj m => match m with [] => false | _ => true end
  end.

(** *** [str] and [repr] *)

Definition str_of_Z (n : Z) : string := NilZero.string_of_int (Z.to_int n).

Definition str_of_float (f : pyfloat) : string :=
  match f with
  | FFinite _ _ r => r
  | FNan => "nan"
  | FInf false => "inf"
  | FInf true => "-inf"
  end.

Fixpoint contains_char (c : ascii) (s : string) : bool :=
  match s with
  | EmptyString => false
  | String c' s' => if Ascii.eqb c c' then true else contains_char c s'
  end.

Definition hex_digit (d : Z) : ascii :=
  if d <? 10 then ascii_of_nat (Z.to_nat (48 + d))
  else ascii_of_nat (Z.to_nat (87 + d)).

(** Escapes of [repr] on a [str], for the quote [q] chosen; bytes above
    ASCII stand for printable characters and are kept. *)
Fixpoint repr_escape (q : ascii) (s : string) : string :=
  match s with
  | EmptyString => EmptyString
  | String c s' =>
      let n := Z.of_nat (nat_of_ascii c) in
      let rest := repr_escape q s' in
      if Ascii.eqb c "\" then String "\" (String "\" rest)
      else if Ascii.eqb c q then String "\" (String q rest)
      else if n =? 10 then String "\" (String "n" rest)
      else if n =? 13 then String "\" (String "r" rest)
      else if n =? 9 then String "\" (String "t" rest)
      else if (n <? 32) || (n =? 127) then
        String "\" (String "x"
          (String (hex_digit (n / 16)) (String (hex_digit (n mod 16)) rest)))
      else String c rest
  end.

Definition single_quote : ascii := ascii_of_nat 39.
Definition double_quote : ascii := ascii_of_nat 34.

Definition repr_str (s : string) : string :=
  let q : ascii :=
    if contains_char single_quote s && negb (contains_char double_quote s)
    then double_quote else single_quote in
  String q (repr_escape q s ++ String q EmptyString).

Fixpoint py_repr (x : json) : string :=
  match x with
  | JNull => "None"
  | JBool true => "True"
  | JBool false => "False"
  | JInt n => str_of_Z n
  | JFloat f => str_of_float f
  | JStr s => repr_str s
  | JArr l =>
      "[" ++
      (fix items (l : list json) : string :=
         match l with
         | [] => ""
         | [v] => py_repr v
         | v :: l' => py_repr v ++ ", " ++ items l'
         end) l ++ "]"
  | JObj m =>
      "{" ++
      (fix items (m : list (string * json)) : string :=
         match m with
         | [] => ""
         | [(k, v)] => repr_str k ++ ": " ++ py_repr v
         | (k, v) :: m' => repr_str k ++ ": " ++ py_repr v ++ ", " ++ items m'
         end) m ++ "}"
  end.

(** [str(x)]; also what an f-string field [{x}] renders. *)
Definition py_str (x : json) : string :=
  match x with
  | JStr s => s
  | _ => py_repr x
  end.

(** *** [int(x)] *)

Definition is_space (c : ascii) : bool :=
  let n := Z.of_nat (nat_of_ascii c) in
  (n =? 32) || ((9 <=? n) && (n <=? 13)) || ((28 <=? n) && (n <=? 31)).

Definition is_digit (c : ascii) : bool :=
  let n := Z.of_nat (nat_of_ascii c) in (48 <=? n) && (n <=? 57).

Definition digit_val (c : ascii) : Z := Z.of_nat (nat_of_ascii c) - 48.

Fixpoint all_space (s : string) : bool :=
  match s with
  | EmptyString => true
  | String c s' => is_space c && all_space s'
  end.

Fixpoint lstrip (s : string) : string :=
  match s with
  | EmptyString => EmptyString
  | String c s' => if is_space c then lstrip s' else s
  end.

(** Decimal digits with single underscores between them, then only
    trailing white space. *)
Fixpoint int_digits (s : string) (acc : Z) (after_underscore : bool) : option Z :=
  match s with
  | EmptyString => if after_underscore then None else Some acc
  | String c s' =>
      if is_digit c then int_digits s' (10 * acc + digit_val c) false
      else if Ascii.eqb c "_" then
        if after_underscore then None else int_digits s' acc true
      else if negb after_underscore && all_space s then Some acc
      else None
  end.

Definition int_unsigned (s : string) : option Z :=
  match s with
  | EmptyString => None
  | String c s' => if is_digit c then int_digits s' (digit_val c) false else None
  end.

(** [int(s)] for a [str], base ten, on ASCII text. *)
Definition int_of_str (s : string) : option Z :=
  match lstrip s with
  | String "-" s' => option_map Z.opp (int_unsigned s')
  | String "+" s' => int_unsigned s'
  | s' => int_unsigned s'
  end.

Definition py_int (x : json) : res Z :=
  match x with
  | JNull => Raise TypeError
  | JBool b => Ok (if b then 1 else 0)
  | JInt n => Ok n
  | JFloat (FFinite t _ _) => Ok t
  | JFloat FNan => Raise ValueError
  | JFloat (FInf _) => Raise OverflowError
  | JStr s =>
      match int_of_str s with
      | Some n => Ok n
      | None => Raise ValueError
      end
  | JArr _ => Raise TypeError
  | JObj _ => Raise TypeError
  end.

(** *** [sorted(l, key=...)] *)

(** Stable insertion by key: [a] goes before the first element whose key
    is not smaller. *)
Fixpoint insert_by_key {A : Type} (a : Z * A) (l : list (Z * A)) : list (Z * A) :=
  match l with
  | [] => [a]
  | b :: l' =>
      if fst a <=? fst b then a :: b :: l' else b :: insert_by_key a l'
  end.

Fixpoint sort_by_key {A : Type} (l : list (Z * A)) : list (Z * A) :=
  match l with
  | [] => []
  | a :: l' => insert_by_key a (sort_by_key l')
  end.

(** The keys are computed first, for every element from left to right; the
    first key that raises aborts the call. *)
Definition sorted {A : Type} (key : A -> res Z) (l : list A) : res (list A) :=
  keyed <- mapM (fun x => k <- key x ;; Ok (k, x)) l ;;
  Ok (map snd (sort_by_key keyed)).

(** ** Record normalizer *)

Definition rarity_from_quality (q : string) : option Z :=
  let m :=
    [ ("QUALITY_ORANGE", 5);
      ("QUALITY_PURPLE", 4);
      ("QUALITY_BLUE", 3);
      ("QUALITY_GREEN", 2);
      ("QUALITY_WHITE", 1) ] in
  dict_get m q.

Definition weapon_type_short (wt : string) : string :=
  let m :=
    [ ("WEAPON_SWORD_ONE_HAND", "Sword");
      ("WEAPON_CLAYMORE", "Claymore");
      ("WEAPON_POLE", "Polearm");
      ("WEAPON_CATALYST", "Catalyst");
      ("WEAPON_BOW", "Bow") ] in
  match dict_get m wt with
  | Some v => v
  | None => if String.eqb wt "" then "Unknown" else wt
  end.

(** ** Builders *)

(** The sort key of both builders, [lambda x: int(x.get("id", 0))]. *)
Definition id_key (x : json) : res Z :=
  v <- py_get x "id" (JInt 0) ;;
  py_int v.

(** [textmap.get(name_hash, f"#{_id}")] *)
Definition resolve_name (textmap : dict) (name_hash : string) (_id : json) : json :=
  match dict_get textmap name_hash with
  | Some v => v
  | None => JStr ("#" ++ py_str _id)
  end.

(** One turn of the loop of [build_characters] after the size test:
    [None] is [continue], [Some (k, r)] is the assignment [out[k] = r]. *)
Definition character_entry (textmap : dict) (a : json) : res (option (string * json)) :=
  _id <- py_get a "id" JNull ;;
  icon <- py_get a "iconName" JNull ;;
  q <- py_get a "qualityType" JNull ;;
  wt <- py_get a "weaponType" JNull ;;
  nh <- py_get a "nameTextMapHash" (JStr "") ;;
  let name_hash := py_str nh in
  if negb (truthy _id) || negb (truthy icon) then Ok None
  else if negb (String.prefix "UI_AvatarIcon_" (py_str icon)) then Ok None
  else
    match rarity_from_quality (py_str q) with
    | None => Ok None
    | Some rarity =>
        let name := resolve_name textmap name_hash _id in
        Ok (Some (py_str _id,
                  JObj [ ("name", name);
                         ("rarity", JInt rarity);
                         ("element", JNull);
                         ("weapon_type", JStr (weapon_type_short (py_str wt)));
                         ("icon_name", JStr (py_str icon)) ]))
    end.

(** One turn of the loop of [build_weapons] after the size test. *)
Definition weapon_entry (textmap : dict) (w : json) : res (option (string * json)) :=
  _id <- py_get w "id" JNull ;;
  icon <- py_get w "icon" JNull ;;
  wt <- py_get w "weaponType" JNull ;;
  rank_level <- py_get w "rankLevel" JNull ;;
  nh <- py_get w "nameTextMapHash" (JStr "") ;;
  let name_hash := py_str nh in
  if negb (truthy _id) || negb (truthy icon) then Ok None
  else if negb (String.prefix "UI_EquipIcon_" (py_str icon)) then Ok None
  else
    match py_int rank_level with
    | Raise _ => Ok None
    | Ok rarity =>
        let name := resolve_name textmap name_hash _id in
        Ok (Some (py_str _id,
                  JObj [ ("name", name);
                         ("rarity", JInt rarity);
                         ("type", JStr (weapon_type_short (py_str wt)));
                         ("icon_name", JStr (py_str icon)) ]))
    end.

(** The [for] loop shared by the two builders: stop once the table holds
    [n] keys, otherwise run one turn on the next candidate. *)
Fixpoint scan (entry : json -> res (option (string * json))) (n : Z)
    (l : list json) (out : dict) : res dict :=
  match l with
  | [] => Ok out
  | a :: l' =>
      if len out >=? n then Ok out
      else
        e <- entry a ;;
        match e with
        | None => scan entry n l' out
        | Some (k, r) => scan entry n l' (dict_set out k r)
        end
  end.

Section Config.

(** The two bounds read from the environment when the module loads. *)
Variables N_CHARACTERS N_WEAPONS : Z.

Definition build_characters (avatars : list json) (textmap : dict) : res dict :=
  avatars_sorted <- sorted id_key avatars ;;
  scan (character_entry textmap) N_CHARACTERS avatars_sorted [].

Definition build_weapons (weapons : list json) (textmap : dict) : res dict :=
  weapons_sorted <- sorted id_key weapons ;;
  scan (weapon_entry textmap) N_WEAPONS weapons_sorted [].

End Config.

Definition ayaka : json :=
  JObj [ ("id", JInt 10000002);
         ("iconName", JStr "UI_AvatarIcon_Ayaka");
         ("qualityType", JStr "QUALITY_PURPLE");
         ("weaponType", JStr "WEAPON_SWORD_ONE_HAND");
         ("nameTextMapHash", JStr "123") ].

(** ** Images *)

(** A single-channel array, row by row. *)
Definition gray : Type := list (list Z).

(** A decoded image: two-dimensional, or three-dimensional with
    [shape[2]] channels per pixel. *)
Inductive ndarray : Type :=
| Arr2 (rows : gray)
| Arr3 (channels : Z) (rows : list (list (list Z))).

(** ** Perceptual hasher *)

(** [row[1:] > row[:-1]], element by element. *)
Definition row_diff (row : list Z) : list bool :=
  map (fun p => fst p >? snd p) (combine (tl row) (removelast row)).

(** [(resized[:, 1:] > resized[:, :-1]).flatten()] *)
Definition diff_bits (resized : gray) : list bool :=
  List.concat (map row_diff resized).

(** The loop [val = (val << 1) | int(bool(b))], from [val]. *)
Definition pack_from (val : Z) (bits : list bool) : Z :=
  fold_left (fun val b => Z.lor (Z.shiftl val 1) (Z.b2z b)) bits val.

Definition pack_bits (bits : list bool) : Z := pack_from 0 bits.

(** Hexadecimal digits of a non-negative integer, lowest digit last. *)
Fixpoint hex_loop (fuel : nat) (v : Z) (acc : string) : string :=
  match fuel with
  | O => acc
  | S fuel' =>
      let acc' := String (hex_digit (v mod 16)) acc in
      if v / 16 =? 0 then acc' else hex_loop fuel' (v / 16) acc'
  end.

Definition to_hex (v : Z) : string :=
  hex_loop (S (Z.to_nat (Z.log2 v))) v EmptyString.

Fixpoint zeros (n : nat) : string :=
  match n with
  | O => EmptyString
  | S n' => String "0" (zeros n')
  end.

(** [f"{val:0{width}x}"] for [val >= 0]. *)
Definition format_hex (val width : Z) : string :=
  let digits := to_hex val in
  zeros (Z.to_nat width - String.length digits) ++ digits.

Section Hasher.

(** [cv2.cvtColor(img, cv2.COLOR_BGR2GRAY)] *)
Variable cvtColor_BGR2GRAY : ndarray -> res gray.

(** [cv2.resize(img, (width, height), interpolation=cv2.INTER_AREA)] *)
Variable resize_INTER_AREA : gray -> Z -> Z -> res gray.

Definition dhash_hex (img_bgr : ndarray) (hash_size : Z) : res string :=
  gray <- cvtColor_BGR2GRAY img_bgr ;;
  resized <- resize_INTER_AREA gray (hash_size + 1) hash_size ;;
  let bits := diff_bits resized in
  let val := pack_bits bits in
  let width := (hash_size * hash_size + 3) / 4 in
  Ok (format_hex val width).

End Hasher.

(** ** Image normalizer *)

Section Normalizer.

(** The float32 expression
    [(ch * alpha + bg * (1 - alpha)).astype(uint8)] with [alpha = a / 255],
    on one element: channel value, alpha byte, background value. *)
Variable blend_f32 : Z -> Z -> Z -> Z.

Definition comp (a bg ch : Z) : Z := blend_f32 ch a bg.

Definition to_bgr (img : option ndarray) : option ndarray :=
  match img with
  | None => None
  | Some (Arr3 4 rows) =>
      Some (Arr3 3
        (map (map (fun px =>
           match px with
           | [b; g; r; a] => [comp a 180 b; comp a 180 g; comp a 180 r]
           | _ => px
           end)) rows))
  | Some (Arr2 rows) => Some (Arr3 3 (map (map (fun v => [v; v; v])) rows))
  | Some img => Some img
  end.

End Normalizer.

(** ** Hash index builder *)

Definition ENKA_UI : string := "https://enka.network/ui".

(** [f"{ENKA_UI}/{icon_name}.png"] *)
Definition icon_url (icon_name : json) : string :=
  ENKA_UI ++ "/" ++ py_str icon_name ++ ".png".

Section Network.

(** What is outside the process: the state of the network and of the
    asset host, advanced by every request. *)
Variable World : Type.

(** [urlopen(Request(url, headers=...), timeout=...).read()] *)
Variable urlopen_read :
  string -> list (string * string) -> Z -> World -> res (list byte) * World.

(** [cv2.imdecode(np.frombuffer(png, np.uint8), cv2.IMREAD_UNCHANGED)] *)
Variable imdecode : list byte -> res (option ndarray).

Variable cvtColor_BGR2GRAY : ndarray -> res gray.
Variable resize_INTER_AREA : gray -> Z -> Z -> res gray.
Variable blend_f32 : Z -> Z -> Z -> Z.

Definition http_get_bytes (url : string) (w : World) : res (list byte) * World :=
  urlopen_read url [("User-Agent", "AbyssTracker-data-bot/1.0")] 60 w.

(** The body of the [try] block once the bytes are there: [None] is the
    [continue] on an undecodable image. *)
Definition hash_asset (png : list byte) : res (option string) :=
  img <- imdecode png ;;
  match img with
  | None => Ok None
  | Some _ =>
      match to_bgr blend_f32 img with
      | None => Raise TypeError
      | Some bgr =>
          h <- dhash_hex cvtColor_BGR2GRAY resize_INTER_AREA bgr 8 ;;
          Ok (Some h)
      end
  end.

(** The fetch raised, or the bytes did not decode, or a later step of the
    [try] block raised. *)
Definition asset_fails (fetched : res (list byte)) : Prop :=
  match fetched with
  | Raise _ => True
  | Ok png => imdecode png = Ok None \/ exists e, hash_asset png = Raise e
  end.

Fixpoint index_loop (items : dict) (idx : dict) (w : World) : res dict * World :=
  match items with
  | [] => (Ok idx, w)
  | (_id, meta) :: rest =>
      match py_get meta "icon_name" JNull with
      | Raise e => (Raise e, w)
      | Ok icon_name =>
          if negb (truthy icon_name) then index_loop rest idx w
          else
            let url := icon_url icon_name in
            let (fetched, w') := http_get_bytes url w in
            match (png <- fetched ;; hash_asset png) with
            | Ok (Some h) => index_loop rest (dict_set idx _id (JStr h)) w'
            | Ok None => index_loop rest idx w'
            | Raise _ => index_loop rest idx w'
            end
      end
  end.

Definition build_hash_index (items : dict) (w : World) : res dict * World :=
  index_loop items [] w.

End Network.

(** *** Reading the bits *)

(** The comparison the code makes at row [i], column [j]: the right
    neighbour against the pixel. *)
Definition right_greater (resized : gray) (i j : nat) : bool :=
  nth (S j) (nth i resized []) 0 >? nth j (nth i resized []) 0.

(** The comparison as the specification words it: the pixel against its
    right neighbour. *)
Definition left_greater (resized : gray) (i j : nat) : bool :=
  nth j (nth i resized []) 0 >? nth (S j) (nth i resized []) 0.

(** Reading a rendering back: the number a string of hexadecimal digits
    denotes. *)
Definition hex_digit_val (c : ascii) : Z :=
  let n := Z.of_nat (nat_of_ascii c) in
  if n <? 58 then n - 48 else n - 87.

Fixpoint hex_value_from (acc : Z) (s : string) : Z :=
  match s with
  | EmptyString => acc
  | String c s' => hex_value_from (16 * acc + hex_digit_val c) s'
  end.

Definition hex_value (s : string) : Z := hex_value_from 0 s.

(** Every element is strictly below the next one. *)
Fixpoint increasingb (row : list Z) : bool :=
  match row with
  | a :: (b :: _) as row' => (a <? b) && increasingb row'
  | _ => true
  end.

(** *** Stand-ins for the image library

    Integer renderings of the two OpenCV calls, used to run the hasher on
    concrete pictures. *)

(** Luma with 14-bit fixed-point weights. *)
Definition sample_cvtColor (img : ndarray) : res gray :=
  match img with
  | Arr3 3 rows =>
      Ok (map (map (fun px =>
            match px with
            | [b; g; r] => (1868 * b + 9617 * g + 4899 * r + 8192) / 16384
            | _ => 0
            end)) rows)
  | _ => Raise (LibError "cvtColor")
  end.

(** Column [dx] of a row of [sw] pixels stretched to [dw] columns: the two
    source pixels around it, weighted by the overlap, rounded to nearest. *)
Definition sample_stretch (row : list Z) (sw dw dx : Z) : Z :=
  let sx := dx * sw / dw in
  let fx := Z.max 0 ((dx + 1) * sw - (sx + 1) * dw) in
  let p0 := nth (Z.to_nat sx) row 0 in
  let p1 := nth (Z.to_nat (Z.min (sx + 1) (sw - 1))) row 0 in
  (2 * (p0 * (sw - fx) + p1 * fx) + sw) / (2 * sw).

Definition sample_resize (img : gray) (width height : Z) : res gray :=
  if (height =? Z.of_nat (List.length img)) && (0 <? width) then
    Ok (map (fun row =>
          let sw := Z.of_nat (List.length row) in
          map (fun dx => sample_stretch row sw width (Z.of_nat dx))
              (seq 0 (Z.to_nat width))) img)
  else Raise (LibError "resize").

Definition ramp : list Z := [0; 36; 73; 109; 146; 182; 219; 255].

Definition ramp_image : ndarray := Arr3 3 (repeat (map (fun v => [v; v; v]) ramp) 8).

(** *** Widening a row

    What [cv2.resize] with [INTER_AREA] makes of a row when the picture gets
    wider and keeps its height: column [dx] of the [dw] columns is a mean of
    two neighbouring source pixels, weighted by the area each of them covers,
    and rounded to a whole level. *)

(** [sw] times that mean, for a row of [sw] pixels. *)
Definition stretch_mean (row : list Z) (sw dw dx : Z) : Z :=
  let sx := dx * sw / dw in
  let fx := Z.max 0 ((dx + 1) * sw - (sx + 1) * dw) in
  let p0 := nth (Z.to_nat sx) row 0 in
  let p1 := nth (Z.to_nat (Z.min (sx + 1) (sw - 1))) row 0 in
  p0 * (sw - fx) + p1 * fx.

(** [out] is [row] widened to [dw] columns: each of its pixels is a whole
    level nearest to the weighted mean, either one at a tie. *)
Definition widenedb (dw : Z) (row out : list Z) : bool :=
  let sw := Z.of_nat (List.length row) in
  (Z.of_nat (List.length out) =? dw)
  && forallb (fun dx =>
                Z.abs (2 * sw * nth dx out 0
                       - 2 * stretch_mean row sw dw (Z.of_nat dx)) <=? sw)
             (seq 0 (Z.to_nat dw)).

(** Every element is at least [d] below the next one. *)
Fixpoint rises_by (d : Z) (row : list Z) : bool :=
  match row with
  | a :: (b :: _) as row' => (a + d <=? b) && rises_by d row'
  | _ => true
  end.

(** The row has eight pixels and rises by single levels from the third to
    the sixth. *)
Definition unit_steps_mid (row : list Z) : bool :=
  match row with
  | [_; _; p2; p3; p4; p5; _; _] =>
      (p3 =? p2 + 1) && (p4 =? p3 + 1) && (p5 =? p4 + 1)
  | _ => false
  end.

(** A ramp from 0 to 255 that rises by single levels at first. *)
Definition unit_ramp : list Z := [0; 1; 2; 3; 4; 5; 6; 255].

Definition unit_ramp_image : ndarray :=
  Arr3 3 (repeat (map (fun v => [v; v; v]) unit_ramp) 8).

(** *** Reading tables and candidates *)

Definition is_object (x : json) : Prop := exists m, x = JObj m.

(** [r.get(k)] on a record of a table. *)
Definition field (r : json) (k : string) : option json :=
  match r with
  | JObj m => dict_get m k
  | _ => None
  end.

(** [list(r.keys())] *)
Definition record_keys (r : json) : option (list string) :=
  match r with
  | JObj m => Some (keys m)
  | _ => None
  end.

(** The keys under which the candidates of [l] that pass every filter are
    stored, in the order of [l]. *)
Fixpoint accepted_keys (entry : json -> res (option (string * json)))
    (l : list json) : list string :=
  match l with
  | [] => []
  | a :: l' =>
      match entry a with
      | Ok (Some (k, _)) => k :: accepted_keys entry l'
      | _ => accepted_keys entry l'
      end
  end.

Definition mem (k : string) (ks : list string) : bool :=
  existsb (String.eqb k) ks.

(** How many different keys of [ks] are not in [seen]. *)
Fixpoint fresh_count (ks seen : list string) : nat :=
  match ks with
  | [] => O
  | k :: ks' =>
      if mem k seen then fresh_count ks' seen
      else S (fresh_count ks' (k :: seen))
  end.

Definition distinct_count (ks : list string) : nat := fresh_count ks [].

(** [int(w.get("rankLevel"))] when it succeeds. *)
Definition rank_of (w : json) : option Z :=
  match py_get w "rankLevel" JNull with
  | Ok v => match py_int v with Ok n => Some n | Raise _ => None end
  | Raise _ => None
  end.

(** The value of a sort key that does not raise. *)
Definition key_num {A : Type} (key : A -> res Z) (x : A) : Z :=
  match key x with
  | Ok n => n
  | Raise _ => 0
  end.

Definition id_num (x : json) : Z := key_num id_key x.

Definition key_le {A : Type} (a b : Z * A) : Prop := fst a <= fst b.

(** A candidate the sort key accepts: an object whose [id] is missing or
    converts to an integer. *)
Definition sortable (x : json) : Prop :=
  exists m, x = JObj m /\
    (dict_get m "id" = None \/
     exists v n, dict_get m "id" = Some v /\ py_int v = Ok n).

Definition character_fields : list string :=
  ["name"; "rarity"; "element"; "weapon_type"; "icon_name"].

Definition weapon_fields : list string :=
  ["name"; "rarity"; "type"; "icon_name"].

(** The two kinds of entity, the turn of the loop of each builder and the
    key under which its records carry the weapon-type label. *)
Inductive kind : Type := Character | Weapon.

Definition entry_of (kd : kind) (textmap : dict) : json -> res (option (string * json)) :=
  match kd with
  | Character => character_entry textmap
  | Weapon => weapon_entry textmap
  end.

Definition label_key (kd : kind) : string :=
  match kd with
  | Character => "weapon_type"
  | Weapon => "type"
  end.

(** The builder of each kind, with its bound. *)
Definition build (kd : kind) (n : Z) (cands : list json) (textmap : dict) : res dict :=
  match kd with
  | Character => build_characters n cands textmap
  | Weapon => build_weapons n cands textmap
  end.

(** *** Sample inputs *)

Definition ayaka_textmap : dict := [("123", JStr "Kamisato Ayaka")].

Definition ayaka_record : json :=
  JObj [ ("name", JStr "Kamisato Ayaka");
         ("rarity", JInt 4);
         ("element", JNull);
         ("weapon_type", JStr "Sword");
         ("icon_name", JStr "UI_AvatarIcon_Ayaka") ].

Definition dull_blade : json :=
  JObj [ ("id", JInt 11101);
         ("icon", JStr "UI_EquipIcon_Sword_Blunt");
         ("weaponType", JStr "WEAPON_SWORD_ONE_HAND");
         ("rankLevel", JInt 1);
         ("nameTextMapHash", JInt 3673720571) ].

(** A weapon whose rank level is outside the five stars. *)
Definition rank9_blade : json :=
  JObj [ ("id", JInt 11102);
         ("icon", JStr "UI_EquipIcon_Sword_Nine");
         ("weaponType", JStr "WEAPON_SWORD_ONE_HAND");
         ("rankLevel", JInt 9) ].

(** A character and a weapon that carry no weapon type. *)
Definition untyped_avatar : json :=
  JObj [ ("id", JInt 10000005);
         ("iconName", JStr "UI_AvatarIcon_PlayerBoy");
         ("qualityType", JStr "QUALITY_ORANGE") ].

Definition untyped_weapon : json :=
  JObj [ ("id", JInt 11103);
         ("icon", JStr "UI_EquipIcon_Sword_Plain");
         ("weaponType", JNull);
         ("rankLevel", JInt 3) ].

Definition text_id_avatar : json :=
  JObj [ ("id", JStr "abc");
         ("iconName", JStr "UI_AvatarIcon_Abc");
         ("qualityType", JStr "QUALITY_BLUE") ].

(** *** A sample asset host

    A network whose state counts the requests made, that has no picture for
    Ayaka and serves the same eight bytes for every other icon; a decoder
    that knows one picture, the grayscale ramp; and an integer rendering of
    the blend against the background. *)

Definition sample_urlopen (url : string) (headers : list (string * string))
    (timeout : Z) (w : nat) : res (list byte) * nat :=
  if String.eqb url "https://enka.network/ui/UI_AvatarIcon_Ayaka.png"
  then (Raise (LibError "HTTP Error 404: Not Found"), S w)
  else (Ok [x89; x50; x4e; x47; x0d; x0a; x1a; x0a], S w).

Definition sample_imdecode (png : list byte) : res (option ndarray) :=
  match png with
  | [] => Ok None
  | _ => Ok (Some (Arr2 (repeat ramp 8)))
  end.

Definition sample_blend (ch a bg : Z) : Z :=
  (ch * a + bg * (255 - a)) / 255.

Definition sample_table : dict :=
  [ ("10000002", ayaka_record);
    ("10000005",
     JObj [ ("name", JStr "#10000005"); ("rarity", JInt 5);
            ("element", JNull); ("weapon_type", JStr "None");
            ("icon_name", JStr "UI_AvatarIcon_PlayerBoy") ]) ].

(** ** Further readings of the model *)

(** A second picture, darker than [ramp_image]. *)
Definition dark_ramp : list Z := [0; 10; 20; 30; 40; 50; 60; 70].

Definition dark_ramp_image : ndarray :=
  Arr3 3 (repeat (map (fun v => [v; v; v]) dark_ramp) 8).

(** *** Strings of hexadecimal digits *)

Definition is_lower_hex (c : ascii) : bool :=
  let n := Z.of_nat (nat_of_ascii c) in
  ((48 <=? n) && (n <=? 57)) || ((97 <=? n) && (n <=? 102)).

Fixpoint string_forall (p : ascii -> bool) (s : string) : bool :=
  match s with
  | EmptyString => true
  | String c s' => p c && string_forall p s'
  end.

(** A third character, of a later id. *)
Definition text_id_avatar_fixed : json :=
  JObj [ ("id", JStr "10000007");
         ("iconName", JStr "UI_AvatarIcon_Qin");
         ("qualityType", JStr "QUALITY_BLUE") ].

(** *** Keys of a table *)

(** The keys of [ks] that are not in [seen], each once, at its first
    place. *)
Fixpoint fresh_keys (ks seen : list string) : list string :=
  match ks with
  | [] => []
  | k :: ks' =>
      if mem k seen then fresh_keys ks' seen
      else k :: fresh_keys ks' (k :: seen)
  end.

(** The entries the candidates of [l] that pass every filter are stored
    as, in the order of [l]. *)
Fixpoint accepted_entries (entry : json -> res (option (string * json)))
    (l : list json) : dict :=
  match l with
  | [] => []
  | a :: l' =>
      match entry a with
      | Ok (Some kr) => kr :: accepted_entries entry l'
      | _ => accepted_entries entry l'
      end
  end.

(** The field that holds the icon of a candidate of each kind, and the
    prefix a builder asks of it. *)
Definition icon_key (kd : kind) : string :=
  match kd with
  | Character => "iconName"
  | Weapon => "icon"
  end.

Definition icon_prefix (kd : kind) : string :=
  match kd with
  | Character => "UI_AvatarIcon_"
  | Weapon => "UI_EquipIcon_"
  end.

(** *** Integer ids *)

(** The number a decimal numeral denotes, read digit by digit from [acc]. *)
Fixpoint uint_value (acc : Z) (d : Decimal.uint) : Z :=
  match d with
  | Decimal.Nil => acc
  | Decimal.D0 d' => uint_value (10 * acc + 0) d'
  | Decimal.D1 d' => uint_value (10 * acc + 1) d'
  | Decimal.D2 d' => uint_value (10 * acc + 2) d'
  | Decimal.D3 d' => uint_value (10 * acc + 3) d'
  | Decimal.D4 d' => uint_value (10 * acc + 4) d'
  | Decimal.D5 d' => uint_value (10 * acc + 5) d'
  | Decimal.D6 d' => uint_value (10 * acc + 6) d'
  | Decimal.D7 d' => uint_value (10 * acc + 7) d'
  | Decimal.D8 d' => uint_value (10 * acc + 8) d'
  | Decimal.D9 d' => uint_value (10 * acc + 9) d'
  end.

(** A candidate whose id is an integer. *)
Definition has_int_id (a : json) : Prop :=
  exists m n, a = JObj m /\ dict_get m "id" = Some (JInt n).

(** [int(k)] of a key that is an integer numeral. *)
Definition key_int (k : string) : Z :=
  match int_of_str k with
  | Some n => n
  | None => 0
  end.

(** *** The filters *)

(** [a.get(k)] on an object. *)
Definition get_or_null (m : dict) (k : string) : json :=
  match dict_get m k with
  | Some v => v
  | None => JNull
  end.

(** The rarity a builder resolves for a candidate, if any: through the
    quality map for a character, through [int] of the rank level for a
    weapon. *)
Definition rarity_of (kd : kind) (m : dict) : option Z :=
  match kd with
  | Character => rarity_from_quality (py_str (get_or_null m "qualityType"))
  | Weapon =>
      match py_int (get_or_null m "rankLevel") with
      | Ok n => Some n
      | Raise _ => None
      end
  end.

(** The four filters of a builder, in the order they are applied. *)
Definition passes (kd : kind) (m : dict) : bool :=
  truthy (get_or_null m "id")
  && truthy (get_or_null m (icon_key kd))
  && String.prefix (icon_prefix kd) (py_str (get_or_null m (icon_key kd)))
  && match rarity_of kd m with Some _ => true | None => false end.

(** *** Shape of a picture *)

(** Height and the width of every row. *)
Definition dims (img : ndarray) : nat * list nat :=
  match img with
  | Arr2 rows => (List.length rows, map (@List.length Z) rows)
  | Arr3 _ rows => (List.length rows, map (@List.length (list Z)) rows)
  end.

(** Every pixel carries [c] values. *)
Definition pixels_have (c : nat) (img : ndarray) : Prop :=
  match img with
  | Arr2 _ => c = 1%nat
  | Arr3 _ rows => Forall (Forall (fun px => List.length px = c)) rows
  end.

Definition channels_of (img : ndarray) : Z :=
  match img with
  | Arr2 _ => 1
  | Arr3 c _ => c
  end.

(** ** Digest of a file *)

(** The files of the working directory: path and content. *)
Definition files : Type := list (string * list byte).

Section Digest.

(** [hashlib.sha256()]: the state of a digest, a fresh one, [update] and
    [hexdigest]. *)
Variable sha256 : Type.
Variable sha256_new : sha256.
Variable update : sha256 -> list byte -> sha256.
Variable hexdigest : sha256 -> string.

(** [f.read(1024 * 1024)] on the bytes not read yet: the chunk and what is
    left. *)
Definition read_chunk (rest : list byte) : list byte * list byte :=
  let size := Z.to_nat (1024 * 1024) in
  (firstn size rest, skipn size rest).

(** [for chunk in iter(lambda: f.read(1024 * 1024), b""): h.update(chunk)];
    every turn but the last consumes at least one byte, so a fuel above the
    length of the file is never used up. *)
Fixpoint digest_loop (fuel : nat) (h : sha256) (rest : list byte) : sha256 :=
  match fuel with
  | O => h
  | S fuel' =>
      match read_chunk rest with
      | ([], _) => h
      | (chunk, rest') => digest_loop fuel' (update h chunk) rest'
      end
  end.

Definition sha256_file (fs : files) (path : string) : res string :=
  match dict_get fs path with
  | None => Raise (LibError "FileNotFoundError")
  | Some content =>
      Ok (hexdigest (digest_loop (S (List.length content)) sha256_new content))
  end.

End Digest.

(** A stand-in for the digest: the state is the bytes fed so far, the
    rendering their number in hexadecimal. *)
Definition sample_update (h chunk : list byte) : list byte := (h ++ chunk)%list.

Definition sample_hexdigest (h : list byte) : string :=
  format_hex (Z.of_nat (List.length h)) 64.

(** *** Repeated keys *)

(** The record of the last candidate of [l] that is stored under [k]. *)
Fixpoint last_entry (entry : json -> res (option (string * json)))
    (l : list json) (k : string) : option json :=
  match l with
  | [] => None
  | a :: l' =>
      match last_entry entry l' k with
      | Some r => Some r
      | None =>
          match entry a with
          | Ok (Some (k', r)) => if String.eqb k' k then Some r else None
          | _ => None
          end
      end
  end.

(** ** The run *)

Definition URL_AVATARS : string :=
  "https://raw.githubusercontent.com/DimbreathBot/AnimeGameData/master/ExcelBinOutput/AvatarExcelConfigData.json".
Definition URL_WEAPONS : string :=
  "https://raw.githubusercontent.com/DimbreathBot/AnimeGameData/master/ExcelBinOutput/WeaponExcelConfigData.json".
Definition URL_TEXTMAP_EN : string :=
  "https://raw.githubusercontent.com/DimbreathBot/AnimeGameData/master/TextMap/TextMapEN.json".

Definition OUT_CHAR : string := "./characters.json".
Definition OUT_WEAP : string := "./weapons.json".
Definition OUT_HIDX_CHAR : string := "./hash_index_characters.json".
Definition OUT_HIDX_WEAP : string := "./hash_index_weapons.json".
Definition OUT_MANIFEST : string := "./manifest.json".

(** [os.path.basename]: what follows the last slash. *)
Fixpoint basename (p : string) : string :=
  match p with
  | EmptyString => EmptyString
  | String c p' =>
      if contains_char "/" p' then basename p'
      else if Ascii.eqb c "/" then p' else p
  end.

(** Writing a file: an existing path gets the new content, a new path is
    added. *)
Fixpoint fs_write (fs : files) (path : string) (content : list byte) : files :=
  match fs with
  | [] => [(path, content)]
  | (p, c) :: fs' =>
      if String.eqb p path then (p, content) :: fs'
      else (p, c) :: fs_write fs' path content
  end.

(** What [sorted] iterates over when it is given a parsed document: the
    elements of an array, the keys of an object, the characters of a text;
    anything else is not iterable. *)
Definition py_iter (v : json) : res (list json) :=
  match v with
  | JArr l => Ok l
  | JObj m => Ok (map (fun kv => JStr (fst kv)) m)
  | JStr s => Ok (map (fun c => JStr (String c EmptyString)) (list_ascii_of_string s))
  | _ => Raise TypeError
  end.

(** A turn of the loop of a builder when the text map is any parsed
    document: [textmap.get] is reached only by a candidate that passes the
    filters, and only an object has it. *)
Definition entry_with (kd : kind) (textmap : json) (a : json)
    : res (option (string * json)) :=
  match textmap with
  | JObj tm => entry_of kd tm a
  | _ =>
      e <- entry_of kd [] a ;;
      match e with
      | Some _ => Raise AttributeError
      | None => Ok None
      end
  end.

(** A builder called on two parsed documents, as [main] does. *)
Definition build_from (kd : kind) (n : Z) (cands textmap : json) : res dict :=
  l <- py_iter cands ;;
  s <- sorted id_key l ;;
  scan (entry_with kd textmap) n s [].

Section Run.

Variable World : Type.
Variable urlopen_read :
  string -> list (string * string) -> Z -> World -> res (list byte) * World.

(** [json.loads(data.decode("utf-8"))] *)
Variable json_loads : list byte -> res json.

Variable imdecode : list byte -> res (option ndarray).
Variable cvtColor_BGR2GRAY : ndarray -> res gray.
Variable resize_INTER_AREA : gray -> Z -> Z -> res gray.
Variable blend_f32 : Z -> Z -> Z -> Z.

(** [open(path, "w", encoding="utf-8")]: the exception it raises, if any.
    The file is created or emptied only when it does not raise. *)
Variable open_w : string -> World -> option exn * World.

(** [json.dump(obj, f, ensure_ascii=False, indent=2)] into the file just
    opened: the bytes that reach the file, and the exception that interrupts
    the dump, if any. *)
Variable json_dump : json -> list byte * option exn.

Variable sha256 : Type.
Variable sha256_new : sha256.
Variable update : sha256 -> list byte -> sha256.
Variable hexdigest : sha256 -> string.

(** [datetime.now(timezone.utc)], and the two renderings [main] makes:
    [isoformat(timespec="seconds")] and [strftime("%Y-%m-%d")]. *)
Variable datetime : Type.
Variable now_utc : World -> datetime * World.
Variable isoformat_seconds : datetime -> string.
Variable strftime_ymd : datetime -> string.

Variables N_CHARACTERS N_WEAPONS : Z.

(** What a run acts on: the world outside, the files of the working
    directory and the lines printed. *)
Record state : Type := mk_state {
  world : World;
  disk : files;
  stdout : list string
}.

Definition run (A : Type) : Type := state -> res A * state.

Definition bind_run {A B : Type} (m : run A) (k : A -> run B) : run B :=
  fun st =>
    match m st with
    | (Ok a, st') => k a st'
    | (Raise e, st') => (Raise e, st')
    end.

Notation "x <~ m ;; k" := (bind_run m (fun x => k))
  (at level 61, m at next level, right associativity).

Definition print (line : string) : run unit :=
  fun st => (Ok tt, mk_state (world st) (disk st) (stdout st ++ [line])%list).

Definition lift {A : Type} (r : res A) : run A := fun st => (r, st).

(** A call that acts on the world outside only. *)
Definition outside {A : Type} (f : World -> res A * World) : run A :=
  fun st =>
    let (r, w') := f (world st) in
    (r, mk_state w' (disk st) (stdout st)).

Definition http_get_json (url : string) (w : World) : res json * World :=
  let (fetched, w') :=
    urlopen_read url [("User-Agent", "AbyssTracker-data-bot/1.0")] 60 w in
  (data <- fetched ;; json_loads data, w').

Definition hash_index (items : dict) (w : World) : res dict * World :=
  build_hash_index World urlopen_read imdecode cvtColor_BGR2GRAY
    resize_INTER_AREA blend_f32 items w.

(** [with open(path, "w", encoding="utf-8") as f: json.dump(obj, f, ...)]:
    nothing is written when the file cannot be opened; what the dump wrote
    before an exception stays in the file. *)
Definition save_json (path : string) (obj : json) : run unit :=
  fun st =>
    match open_w path (world st) with
    | (Some e, w') => (Raise e, mk_state w' (disk st) (stdout st))
    | (None, w') =>
        let (written, failure) := json_dump obj in
        (match failure with None => Ok tt | Some e => Raise e end,
         mk_state w' (fs_write (disk st) path written) (stdout st))
    end.

(** [datetime.now(timezone.utc)] *)
Definition clock (w : World) : res datetime * World :=
  let (t, w') := now_utc w in (Ok t, w').

Definition digest_of (path : string) : run string :=
  fun st => (sha256_file sha256 sha256_new update hexdigest (disk st) path, st).

(** The loop that fills [manifest["files"]]. *)
Fixpoint file_digests (paths : list string) (filled : dict) : run dict :=
  match paths with
  | [] => lift (Ok filled)
  | p :: paths' =>
      d <~ digest_of p ;;
      file_digests paths' (dict_set filled (basename p) (JObj [("sha256", JStr d)]))
  end.

Definition manifest_of (version generated_at : string)
    (chars weaps hidx_char hidx_weap filled : dict) : json :=
  JObj [ ("version", JStr version);
         ("generated_at", JStr generated_at);
         ("source",
          JObj [ ("repo", JStr "DimbreathBot/AnimeGameData");
                 ("avatars", JStr URL_AVATARS);
                 ("weapons", JStr URL_WEAPONS);
                 ("textmap_en", JStr URL_TEXTMAP_EN) ]);
         ("counts",
          JObj [ ("characters", JInt (len chars));
                 ("weapons", JInt (len weaps));
                 ("hash_characters", JInt (len hidx_char));
                 ("hash_weapons", JInt (len hidx_weap)) ]);
         ("files", JObj filled) ].

(** The entries of [manifest["files"]] for four files of the given
    contents, hashed whole. *)
Definition pack_digests (c w hc hw : list byte) : dict :=
  [ ("characters.json", JObj [("sha256", JStr (hexdigest (update sha256_new c)))]);
    ("weapons.json", JObj [("sha256", JStr (hexdigest (update sha256_new w)))]);
    ("hash_index_characters.json",
     JObj [("sha256", JStr (hexdigest (update sha256_new hc)))]);
    ("hash_index_weapons.json",
     JObj [("sha256", JStr (hexdigest (update sha256_new hw)))]) ].

Definition main : run unit :=
  _ <~ print "Downloading AnimeGameData JSON..." ;;
  avatars <~ outside (http_get_json URL_AVATARS) ;;
  weapons <~ outside (http_get_json URL_WEAPONS) ;;
  textmap <~ outside (http_get_json URL_TEXTMAP_EN) ;;
  _ <~ print "Building characters/weapons mini-pack..." ;;
  chars <~ lift (build_from Character N_CHARACTERS avatars textmap) ;;
  weaps <~ lift (build_from Weapon N_WEAPONS weapons textmap) ;;
  _ <~ print ("Characters selected: " ++ str_of_Z (len chars)
              ++ " / N=" ++ str_of_Z N_CHARACTERS) ;;
  _ <~ print ("Weapons selected:    " ++ str_of_Z (len weaps)
              ++ " / N=" ++ str_of_Z N_WEAPONS) ;;
  _ <~ print "Building hash indexes via Enka icons..." ;;
  hidx_char <~ outside (hash_index chars) ;;
  hidx_weap <~ outside (hash_index weaps) ;;
  _ <~ print ("HashIndex characters: " ++ str_of_Z (len hidx_char)) ;;
  _ <~ print ("HashIndex weapons:    " ++ str_of_Z (len hidx_weap)) ;;
  _ <~ save_json OUT_CHAR (JObj chars) ;;
  _ <~ save_json OUT_WEAP (JObj weaps) ;;
  _ <~ save_json OUT_HIDX_CHAR (JObj hidx_char) ;;
  _ <~ save_json OUT_HIDX_WEAP (JObj hidx_weap) ;;
  now <~ outside clock ;;
  today <~ outside clock ;;
  filled <~ file_digests [OUT_CHAR; OUT_WEAP; OUT_HIDX_CHAR; OUT_HIDX_WEAP] [] ;;
  _ <~ save_json OUT_MANIFEST
         (manifest_of (strftime_ymd today) (isoformat_seconds now)
            chars weaps hidx_char hidx_weap filled) ;;
  print ("Done. Wrote: " ++ OUT_MANIFEST).

(** The second half of [main] on its own, from the first file written on:
    what [main] does with the tables and indexes once it has them. *)
Definition write_pack (chars weaps hidx_char hidx_weap : dict) : run unit :=
  _ <~ save_json OUT_CHAR (JObj chars) ;;
  _ <~ save_json OUT_WEAP (JObj weaps) ;;
  _ <~ save_json OUT_HIDX_CHAR (JObj hidx_char) ;;
  _ <~ save_json OUT_HIDX_WEAP (JObj hidx_weap) ;;
  now <~ outside clock ;;
  today <~ outside clock ;;
  filled <~ file_digests [OUT_CHAR; OUT_WEAP; OUT_HIDX_CHAR; OUT_HIDX_WEAP] [] ;;
  _ <~ save_json OUT_MANIFEST
         (manifest_of (strftime_ymd today) (isoformat_seconds now)
            chars weaps hidx_char hidx_weap filled) ;;
  print ("Done. Wrote: " ++ OUT_MANIFEST).

End Run.

(** *** A sample run

    A site that serves three small documents besides the icons, a parser
    that knows them, a serializer that writes [repr], and a clock that
    counts its readings. *)

Definition sample_site (url : string) (headers : list (string * string))
    (timeout : Z) (w : nat) : res (list byte) * nat :=
  if String.eqb url URL_AVATARS then (Ok [x41], S w)
  else if String.eqb url URL_WEAPONS then (Ok [x57], S w)
  else if String.eqb url URL_TEXTMAP_EN then (Ok [x54], S w)
  else sample_urlopen url headers timeout w.

Definition sample_json_loads (data : list byte) : res json :=
  match data with
  | [x41] => Ok (JArr [untyped_avatar; ayaka])
  | [x57] => Ok (JArr [dull_blade])
  | [x54] => Ok (JObj ayaka_textmap)
  | _ => Raise ValueError
  end.

(** A directory in which every file can be opened, and one in which
    [weapons.json] cannot. *)
Definition sample_open (path : string) (w : nat) : option exn * nat :=
  (None, w).

Definition sample_open_locked (path : string) (w : nat) : option exn * nat :=
  if String.eqb path OUT_WEAP then (Some (LibError "PermissionError"), w)
  else (None, w).

Definition sample_json_dump (v : json) : list byte * option exn :=
  (list_byte_of_string (py_repr v), None).

Definition sample_now (w : nat) : nat * nat := (w, S w).

Definition sample_stamp (t : nat) : string := str_of_Z (Z.of_nat t).

Definition sample_start : state nat :=
  mk_state nat 0%nat [("./notes.txt", [x68; x69])] [].

(** The sample run, the same run against a site that serves no document,
    and the same run in the directory whose [weapons.json] cannot be
    opened. *)
Definition sample_main : run nat unit :=
  main nat sample_site sample_json_loads sample_imdecode sample_cvtColor
    sample_resize sample_blend sample_open sample_json_dump (list byte) []
    sample_update sample_hexdigest nat sample_now sample_stamp sample_stamp 30 30.

Definition sample_main_offline : run nat unit :=
  main nat sample_urlopen sample_json_loads sample_imdecode sample_cvtColor
    sample_resize sample_blend sample_open sample_json_dump (list byte) []
    sample_update sample_hexdigest nat sample_now sample_stamp sample_stamp 30 30.

Definition sample_main_locked : run nat unit :=
  main nat sample_site sample_json_loads sample_imdecode sample_cvtColor
    sample_resize sample_blend sample_open_locked sample_json_dump (list byte) []
    sample_update sample_hexdigest nat sample_now sample_stamp sample_stamp 30 30.

(** No element is below the next one. *)
Fixpoint nonincreasingb (row : list Z) : bool :=
  match row with
  | a :: (b :: _) as row' => (b <=? a) && nonincreasingb row'
  | _ => true
  end.

(** A picture of one colour. *)
Definition flat_image : ndarray :=
  Arr3 3 (repeat (repeat [180; 180; 180] 8) 8).

(** * Properties *)

(** ** The difference hash *)

Lemma row_diff_length (row : list Z) :
  List.length (row_diff row) = pred (List.length row).
Proof.
  unfold row_diff.
  rewrite length_map, length_combine.
  destruct row as [|x row]; [reflexivity|].
  rewrite removelast_firstn_len, length_firstn. simpl. lia.
Qed.

Lemma combine_tl_removelast_nth (row : list Z) (j : nat) :
  (S j < List.length row)%nat ->
  nth j (combine (tl row) (removelast row)) (0, 0)
  = (nth (S j) row 0, nth j row 0).
Proof.
  revert j. induction row as [|x row IH]; intros j Hj; [simpl in Hj; lia|].
  destruct row as [|y row]; [simpl in Hj; lia|].
  destruct j as [|j].
  - reflexivity.
  - change (tl (x :: y :: row)) with (y :: row).
    change (removelast (x :: y :: row)) with (x :: removelast (y :: row)).
    destruct row as [|z row]; [simpl in Hj; lia|].
    change (combine (y :: z :: row) (x :: removelast (y :: z :: row)))
      with ((y, x) :: combine (tl (y :: z :: row)) (removelast (y :: z :: row))).
    change (nth (S j) ((y, x) :: combine (tl (y :: z :: row)) (removelast (y :: z :: row))) (0, 0))
      with (nth j (combine (tl (y :: z :: row)) (removelast (y :: z :: row))) (0, 0)).
    rewrite IH by (simpl in Hj |- *; lia).
    reflexivity.
Qed.

Lemma row_diff_nth (row : list Z) (j : nat) :
  (S j < List.length row)%nat ->
  nth j (row_diff row) false = (nth (S j) row 0 >? nth j row 0).
Proof.
  intros Hj. unfold row_diff.
  change false with ((fun p : Z * Z => fst p >? snd p) (0, 0)).
  rewrite map_nth, combine_tl_removelast_nth by exact Hj.
  reflexivity.
Qed.

(** Position [i * w + j] of a concatenation of rows of width [w]. *)
Lemma concat_nth_uniform {A : Type} (w : nat) (d : A) (ls : list (list A)) :
  Forall (fun l => List.length l = w) ls ->
  forall i j, (j < w)%nat -> (i < List.length ls)%nat ->
  nth (i * w + j) (List.concat ls) d = nth j (nth i ls []) d.
Proof.
  induction 1 as [|l ls Hl _ IH]; intros i j Hj Hi; [simpl in Hi; lia|].
  destruct i as [|i]; simpl.
  - rewrite app_nth1 by lia. reflexivity.
  - rewrite app_nth2 by lia.
    replace (w + i * w + j - List.length l)%nat with (i * w + j)%nat by lia.
    apply IH; [exact Hj | simpl in Hi; lia].
Qed.

Lemma concat_length_uniform {A : Type} (w : nat) (ls : list (list A)) :
  Forall (fun l => List.length l = w) ls ->
  List.length (List.concat ls) = (List.length ls * w)%nat.
Proof.
  induction 1 as [|l ls Hl _ IH]; [reflexivity|].
  simpl. rewrite length_app, IH, Hl. reflexivity.
Qed.

Lemma diff_rows_uniform (w : nat) (resized : gray) :
  Forall (fun row => List.length row = S w) resized ->
  Forall (fun l => List.length l = w) (map row_diff resized).
Proof.
  induction 1 as [|row rows Hrow _ IH]; simpl; constructor.
  - rewrite row_diff_length, Hrow. reflexivity.
  - exact IH.
Qed.

Lemma shift_or_bit (v : Z) (b : bool) :
  0 <= v -> Z.lor (Z.shiftl v 1) (Z.b2z b) = 2 * v + Z.b2z b.
Proof.
  intros Hv. destruct v as [|p|p]; [| |lia]; destruct b; reflexivity.
Qed.

Lemma pack_from_split (bits : list bool) :
  forall v, 0 <= v ->
  pack_from v bits = v * 2 ^ Z.of_nat (List.length bits) + pack_bits bits
  /\ 0 <= pack_bits bits < 2 ^ Z.of_nat (List.length bits).
Proof.
  unfold pack_bits.
  induction bits as [|b bits IH]; intros v Hv.
  - simpl. lia.
  - assert (Hb : 0 <= Z.b2z b <= 1) by (destruct b; simpl; lia).
    change (pack_from v (b :: bits))
      with (pack_from (Z.lor (Z.shiftl v 1) (Z.b2z b)) bits).
    change (pack_from 0 (b :: bits))
      with (pack_from (Z.lor (Z.shiftl 0 1) (Z.b2z b)) bits).
    rewrite !shift_or_bit by lia.
    destruct (IH (2 * v + Z.b2z b)) as [E1 R]; [lia|].
    destruct (IH (2 * 0 + Z.b2z b)) as [E2 _]; [lia|].
    rewrite E1, E2.
    replace (Z.of_nat (List.length (b :: bits)))
      with (Z.succ (Z.of_nat (List.length bits))) by (simpl List.length; lia).
    rewrite Z.pow_succ_r by lia.
    split; [ring | nia].
Qed.

Lemma pack_bits_cons (b : bool) (bits : list bool) :
  pack_bits (b :: bits)
  = Z.b2z b * 2 ^ Z.of_nat (List.length bits) + pack_bits bits.
Proof.
  unfold pack_bits at 1.
  change (pack_from 0 (b :: bits))
    with (pack_from (Z.lor (Z.shiftl 0 1) (Z.b2z b)) bits).
  rewrite shift_or_bit by lia.
  destruct (pack_from_split bits (2 * 0 + Z.b2z b)) as [E _].
  - destruct b; simpl; lia.
  - rewrite E. ring.
Qed.

Lemma pack_bits_range (bits : list bool) :
  0 <= pack_bits bits < 2 ^ Z.of_nat (List.length bits).
Proof. apply (pack_from_split bits 0). lia. Qed.

(** The bit met [k]-th lands [k] places below the top one. *)
Lemma pack_bits_testbit (bits : list bool) :
  forall k, (k < List.length bits)%nat ->
  Z.testbit (pack_bits bits) (Z.of_nat (List.length bits - 1 - k))
  = nth k bits false.
Proof.
  induction bits as [|b bits IH]; intros k Hk; [simpl in Hk; lia|].
  rewrite pack_bits_cons.
  pose proof (pack_bits_range bits) as R.
  set (m := Z.of_nat (List.length bits)) in *.
  destruct k as [|k].
  - replace (Z.of_nat (List.length (b :: bits) - 1 - 0)) with m
      by (subst m; simpl List.length; lia).
    rewrite Z.testbit_odd, Z.shiftr_div_pow2 by lia.
    rewrite Z.div_add_l by lia.
    rewrite Z.div_small by lia.
    destruct b; reflexivity.
  - simpl in Hk.
    replace (Z.of_nat (List.length (b :: bits) - 1 - S k))
      with (Z.of_nat (List.length bits - 1 - k))
      by (simpl List.length; lia).
    rewrite <- (Z.mod_pow2_bits_low _ m) by (subst m; lia).
    rewrite Z.add_comm, Z.mod_add by lia.
    rewrite Z.mod_small by lia.
    apply IH. lia.
Qed.

(** *** The rendering *)

Lemma hex_digit_val_digit (d : Z) :
  0 <= d < 16 -> hex_digit_val (hex_digit d) = d.
Proof.
  intros H.
  assert (E : d = 0 \/ d = 1 \/ d = 2 \/ d = 3 \/ d = 4 \/ d = 5 \/ d = 6
              \/ d = 7 \/ d = 8 \/ d = 9 \/ d = 10 \/ d = 11 \/ d = 12
              \/ d = 13 \/ d = 14 \/ d = 15) by lia.
  repeat (destruct E as [->|E]; [reflexivity|]). subst. reflexivity.
Qed.

Lemma hex_value_from_split (s : string) :
  forall acc,
  hex_value_from acc s = acc * 16 ^ Z.of_nat (String.length s) + hex_value s.
Proof.
  unfold hex_value.
  induction s as [|c s IH]; intros acc.
  - simpl. lia.
  - change (hex_value_from acc (String c s))
      with (hex_value_from (16 * acc + hex_digit_val c) s).
    change (hex_value_from 0 (String c s))
      with (hex_value_from (16 * 0 + hex_digit_val c) s).
    rewrite (IH (16 * acc + hex_digit_val c)), (IH (16 * 0 + hex_digit_val c)).
    replace (Z.of_nat (String.length (String c s)))
      with (Z.succ (Z.of_nat (String.length s))) by (simpl String.length; lia).
    rewrite Z.pow_succ_r by lia. ring.
Qed.

Lemma hex_value_cons (c : ascii) (s : string) :
  hex_value (String c s)
  = hex_digit_val c * 16 ^ Z.of_nat (String.length s) + hex_value s.
Proof.
  unfold hex_value at 1.
  change (hex_value_from 0 (String c s))
    with (hex_value_from (16 * 0 + hex_digit_val c) s).
  rewrite hex_value_from_split. ring.
Qed.

(** The fuel of [to_hex] is enough: the digits denote the number. *)
Lemma hex_loop_value (fuel : nat) :
  forall v acc,
  0 <= v < 16 ^ Z.of_nat fuel ->
  hex_value (hex_loop fuel v acc)
  = v * 16 ^ Z.of_nat (String.length acc) + hex_value acc.
Proof.
  induction fuel as [|fuel IH]; intros v acc Hv.
  - simpl in *. assert (v = 0) by lia. subst. lia.
  - rewrite Nat2Z.inj_succ, Z.pow_succ_r in Hv by lia.
    simpl hex_loop.
    pose proof (Z.div_mod v 16 ltac:(lia)) as Hdm.
    pose proof (Z.mod_pos_bound v 16 ltac:(lia)) as Hm.
    assert (Hq : 0 <= v / 16 < 16 ^ Z.of_nat fuel).
    { split; [apply Z.div_pos; lia | apply Z.div_lt_upper_bound; lia]. }
    destruct (v / 16 =? 0) eqn:E.
    + apply Z.eqb_eq in E. rewrite hex_value_cons, hex_digit_val_digit by lia.
      nia.
    + rewrite IH by exact Hq.
      rewrite hex_value_cons, hex_digit_val_digit by lia.
      replace (Z.of_nat (String.length (String (hex_digit (v mod 16)) acc)))
        with (Z.succ (Z.of_nat (String.length acc)))
        by (simpl String.length; lia).
      rewrite Z.pow_succ_r by lia.
      set (p := 16 ^ Z.of_nat (String.length acc)) in *.
      rewrite Hdm at 3. ring.
Qed.

Lemma to_hex_value (v : Z) : 0 <= v -> hex_value (to_hex v) = v.
Proof.
  intros Hv. unfold to_hex. rewrite hex_loop_value.
  - simpl. change (hex_value "") with 0. lia.
  - split; [exact Hv|].
    rewrite Nat2Z.inj_succ, Z2Nat.id by apply Z.log2_nonneg.
    destruct (Z.eq_dec v 0) as [->|Hz]; [reflexivity|].
    pose proof (Z.log2_spec v ltac:(lia)) as [_ Hlt].
    eapply Z.lt_le_trans; [exact Hlt|].
    set (k := Z.succ (Z.log2 v)).
    assert (Hk : 0 <= k) by (unfold k; pose proof (Z.log2_nonneg v); lia).
    apply Z.pow_le_mono_l. lia.
Qed.

Lemma hex_value_zeros (n : nat) (s : string) :
  hex_value (zeros n ++ s) = hex_value s.
Proof.
  induction n as [|n IH]; [reflexivity|].
  simpl. rewrite hex_value_cons, IH. reflexivity.
Qed.

(** [format_hex] loses nothing: its digits denote the value, and there are
    at least [width] of them. *)
Lemma format_hex_value (val width : Z) :
  0 <= val ->
  hex_value (format_hex val width) = val
  /\ width <= Z.of_nat (String.length (format_hex val width)).
Proof.
  intros Hv. unfold format_hex. split.
  - rewrite hex_value_zeros. apply to_hex_value, Hv.
  - assert (L : forall n s, String.length (zeros n ++ s) = (n + String.length s)%nat).
    { induction n as [|n IH]; intros s0; [reflexivity|]. simpl. rewrite IH. reflexivity. }
    rewrite L. lia.
Qed.

Lemma row_diff_increasing (row : list Z) :
  increasingb row = true ->
  row_diff row = repeat true (pred (List.length row)).
Proof.
  induction row as [|a row IH]; [reflexivity|].
  destruct row as [|b row]; [reflexivity|].
  intros H. change (increasingb (a :: b :: row))
    with ((a <? b) && increasingb (b :: row)) in H.
  apply andb_prop in H. destruct H as [Hab H].
  specialize (IH H).
  unfold row_diff in *.
  change (tl (a :: b :: row)) with (b :: row).
  change (removelast (a :: b :: row)) with (a :: removelast (b :: row)).
  destruct row as [|c row].
  - simpl. rewrite Z.gtb_ltb, Hab. reflexivity.
  - change (combine (b :: c :: row) (a :: removelast (b :: c :: row)))
      with ((b, a) :: combine (tl (b :: c :: row)) (removelast (b :: c :: row))).
    rewrite map_cons, IH. simpl fst. simpl snd.
    rewrite Z.gtb_ltb, Hab. reflexivity.
Qed.

Lemma diff_bits_increasing (w : nat) (resized : gray) :
  Forall (fun row => List.length row = S w /\ increasingb row = true) resized ->
  diff_bits resized = repeat true (List.length resized * w).
Proof.
  unfold diff_bits.
  induction 1 as [|row rows [Hlen Hinc] _ IH]; [reflexivity|].
  simpl. rewrite IH, row_diff_increasing, Hlen by exact Hinc.
  simpl pred. rewrite <- repeat_app. reflexivity.
Qed.

(** C1, as the code has it.  On a resized picture of [hash_size] rows and
    [hash_size + 1] columns the hasher yields [hash_size * hash_size] bits in
    row-major order; the bit of row [i], column [j] is 1 exactly when the
    RIGHT neighbour is strictly greater than the pixel; the bits are packed
    into one non-negative integer, the first bit met in the highest place. *)
Theorem dhash_bits_right_greater (hash_size : nat) (resized : gray) :
  List.length resized = hash_size ->
  Forall (fun row => List.length row = S hash_size) resized ->
  let bits := diff_bits resized in
  let n := (hash_size * hash_size)%nat in
  List.length bits = n
  /\ (forall i j, (i < hash_size)%nat -> (j < hash_size)%nat ->
       nth (i * hash_size + j) bits false = right_greater resized i j)
  /\ 0 <= pack_bits bits < 2 ^ Z.of_nat n
  /\ (forall k, (k < n)%nat ->
       Z.testbit (pack_bits bits) (Z.of_nat (n - 1 - k)) = nth k bits false).
Proof.
  intros Hrows Hcols bits n.
  pose proof (diff_rows_uniform hash_size resized Hcols) as Hu.
  assert (Hlen : List.length bits = n).
  { unfold bits, diff_bits, n.
    rewrite (concat_length_uniform hash_size) by exact Hu.
    rewrite length_map, Hrows. reflexivity. }
  split; [exact Hlen|]. split; [|split].
  - intros i j Hi Hj. unfold bits, diff_bits, right_greater.
    rewrite (concat_nth_uniform hash_size) by
      (try exact Hu; try exact Hj; rewrite length_map; lia).
    assert (Hrow : List.length (nth i resized []) = S hash_size).
    { rewrite Forall_forall in Hcols. apply Hcols, nth_In. lia. }
    replace (nth i (map row_diff resized) []) with (row_diff (nth i resized []))
      by (symmetry; apply (map_nth row_diff resized [] i)).
    apply row_diff_nth. lia.
  - rewrite <- Hlen. apply pack_bits_range.
  - intros k Hk. rewrite <- Hlen in *. apply pack_bits_testbit. exact Hk.
Qed.

Lemma dhash_bits_right_greater_witness :
  let bits := diff_bits [[1; 2; 3]; [3; 2; 5]] in
  List.length bits = 4%nat
  /\ (forall i j, (i < 2)%nat -> (j < 2)%nat ->
       nth (i * 2 + j) bits false = right_greater [[1; 2; 3]; [3; 2; 5]] i j)
  /\ 0 <= pack_bits bits < 2 ^ Z.of_nat 4
  /\ (forall k, (k < 4)%nat ->
       Z.testbit (pack_bits bits) (Z.of_nat (4 - 1 - k)) = nth k bits false).
Proof.
  apply (dhash_bits_right_greater 2 [[1; 2; 3]; [3; 2; 5]]).
  - reflexivity.
  - repeat constructor.
Defined.

(** C1 as worded fails: on the one-row picture [1 0] the pixel is greater
    than its right neighbour, and the bit is 0. *)
Lemma dhash_left_greater_fails :
  ~ (forall (hash_size : nat) (resized : gray),
       List.length resized = hash_size ->
       Forall (fun row => List.length row = S hash_size) resized ->
       forall i j, (i < hash_size)%nat -> (j < hash_size)%nat ->
       nth (i * hash_size + j) (diff_bits resized) false
       = left_greater resized i j).
Proof.
  intros H.
  specialize (H 1%nat [[1; 0]] eq_refl).
  assert (Hc : Forall (fun row : list Z => List.length row = 2%nat) [[1; 0]])
    by (repeat constructor).
  specialize (H Hc 0%nat 0%nat (Nat.lt_0_succ 0) (Nat.lt_0_succ 0)).
  vm_compute in H. discriminate H.
Qed.

Lemma stretch_mean_9 (p0 p1 p2 p3 p4 p5 p6 p7 : Z) :
  let row := [p0; p1; p2; p3; p4; p5; p6; p7] in
  stretch_mean row 8 9 0 = p0 * 8 + p1 * 0
  /\ stretch_mean row 8 9 1 = p0 * 1 + p1 * 7
  /\ stretch_mean row 8 9 2 = p1 * 2 + p2 * 6
  /\ stretch_mean row 8 9 3 = p2 * 3 + p3 * 5
  /\ stretch_mean row 8 9 4 = p3 * 4 + p4 * 4
  /\ stretch_mean row 8 9 5 = p4 * 5 + p5 * 3
  /\ stretch_mean row 8 9 6 = p5 * 6 + p6 * 2
  /\ stretch_mean row 8 9 7 = p6 * 7 + p7 * 1
  /\ stretch_mean row 8 9 8 = p7 * 8 + p7 * 0.
Proof. repeat split; reflexivity. Qed.

(** The nine bounds that [widenedb] states of a row of eight pixels. *)
Lemma widened_9 (p0 p1 p2 p3 p4 p5 p6 p7 : Z) (out : list Z) :
  widenedb 9 [p0; p1; p2; p3; p4; p5; p6; p7] out = true ->
  exists o0 o1 o2 o3 o4 o5 o6 o7 o8,
    out = [o0; o1; o2; o3; o4; o5; o6; o7; o8]
    /\ o0 = p0
    /\ -8 <= 16 * o1 - 2 * (p0 + 7 * p1) <= 8
    /\ -8 <= 16 * o2 - 2 * (2 * p1 + 6 * p2) <= 8
    /\ -8 <= 16 * o3 - 2 * (3 * p2 + 5 * p3) <= 8
    /\ -8 <= 16 * o4 - 2 * (4 * p3 + 4 * p4) <= 8
    /\ -8 <= 16 * o5 - 2 * (5 * p4 + 3 * p5) <= 8
    /\ -8 <= 16 * o6 - 2 * (6 * p5 + 2 * p6) <= 8
    /\ -8 <= 16 * o7 - 2 * (7 * p6 + p7) <= 8
    /\ o8 = p7.
Proof.
  unfold widenedb. intros H. apply andb_prop in H. destruct H as [Hlen H].
  apply Z.eqb_eq in Hlen.
  destruct out as [|o0 [|o1 [|o2 [|o3 [|o4 [|o5 [|o6 [|o7 [|o8 [|o9 out]]]]]]]]]];
    try (simpl in Hlen; lia).
  exists o0, o1, o2, o3, o4, o5, o6, o7, o8. split; [reflexivity|].
  destruct (stretch_mean_9 p0 p1 p2 p3 p4 p5 p6 p7)
    as (E0 & E1 & E2 & E3 & E4 & E5 & E6 & E7 & E8).
  change (Z.of_nat (List.length [p0; p1; p2; p3; p4; p5; p6; p7])) with 8 in H.
  change (seq 0 (Z.to_nat 9)) with [0; 1; 2; 3; 4; 5; 6; 7; 8]%nat in H.
  cbn [forallb nth] in H.
  change (Z.of_nat 0) with 0 in H. change (Z.of_nat 1) with 1 in H.
  change (Z.of_nat 2) with 2 in H. change (Z.of_nat 3) with 3 in H.
  change (Z.of_nat 4) with 4 in H. change (Z.of_nat 5) with 5 in H.
  change (Z.of_nat 6) with 6 in H. change (Z.of_nat 7) with 7 in H.
  change (Z.of_nat 8) with 8 in H.
  rewrite E0, E1, E2, E3, E4, E5, E6, E7, E8 in H.
  repeat (apply andb_prop in H; let B := fresh "B" in destruct H as [B H]).
  repeat match goal with
         | B : (_ <=? _) = true |- _ => apply Z.leb_le in B
         end.
  repeat split; lia.
Qed.

Lemma widened_rise_increasing (row out : list Z) :
  List.length row = 8%nat ->
  rises_by 2 row = true ->
  widenedb 9 row out = true ->
  List.length out = 9%nat /\ increasingb out = true.
Proof.
  intros Hlen Hrise Hw.
  destruct row as [|p0 [|p1 [|p2 [|p3 [|p4 [|p5 [|p6 [|p7 [|p8 row]]]]]]]]];
    try discriminate Hlen.
  apply widened_9 in Hw.
  destruct Hw as (o0 & o1 & o2 & o3 & o4 & o5 & o6 & o7 & o8 & -> & Hw).
  split; [reflexivity|].
  cbn [rises_by] in Hrise.
  repeat (apply andb_prop in Hrise; let B := fresh "R" in destruct Hrise as [B Hrise]).
  repeat match goal with
         | B : (_ <=? _) = true |- _ => apply Z.leb_le in B
         end.
  cbn [increasingb].
  repeat (apply andb_true_intro; split); try reflexivity; apply Z.ltb_lt; lia.
Qed.

Lemma widened_picture_increasing (g resized : gray) :
  Forall (fun row => List.length row = 8%nat /\ rises_by 2 row = true) g ->
  Forall2 (fun row out => widenedb 9 row out = true) g resized ->
  Forall (fun out => List.length out = 9%nat /\ increasingb out = true) resized.
Proof.
  intros Hg Hw. induction Hw as [|row out g' r' Hrow _ IH]; [constructor|].
  inversion Hg as [|? ? [Hlen Hrise] Hg']; subst.
  constructor; [|exact (IH Hg')].
  exact (widened_rise_increasing row out Hlen Hrise Hrow).
Qed.

(** C2, as the code and the library have it.  The grayscale conversion
    yields a picture of 8 rows of 8 pixels, each row rising by at least 2
    levels from every pixel to the next, as the evenly spaced ramp from 0 to
    255 does; the resize to 9 columns by 8 rows widens each row, every pixel
    a weighted mean of two neighbours rounded to a nearest level.  Then
    every one of the 64 bits is 1 and [dhash_hex] with [hash_size = 8]
    returns sixteen [f]. *)
Theorem dhash_ramp_all_ones
    (cvtColor_BGR2GRAY : ndarray -> res gray)
    (resize_INTER_AREA : gray -> Z -> Z -> res gray)
    (img : ndarray) (g resized : gray) :
  cvtColor_BGR2GRAY img = Ok g ->
  List.length g = 8%nat ->
  Forall (fun row => List.length row = 8%nat /\ rises_by 2 row = true) g ->
  resize_INTER_AREA g 9 8 = Ok resized ->
  Forall2 (fun row out => widenedb 9 row out = true) g resized ->
  diff_bits resized = repeat true 64
  /\ dhash_hex cvtColor_BGR2GRAY resize_INTER_AREA img 8 = Ok "ffffffffffffffff".
Proof.
  intros Hg Hrows Hramp Hr Hw.
  pose proof (widened_picture_increasing g resized Hramp Hw) as Hinc.
  assert (Hlen : List.length resized = 8%nat).
  { rewrite <- (Forall2_length Hw). exact Hrows. }
  assert (Hbits : diff_bits resized = repeat true 64).
  { rewrite (diff_bits_increasing 8) by exact Hinc. rewrite Hlen. reflexivity. }
  split; [exact Hbits|].
  unfold dhash_hex. rewrite Hg. simpl bind.
  change (8 + 1) with 9. rewrite Hr. simpl bind.
  rewrite Hbits. vm_compute. reflexivity.
Qed.

Lemma dhash_ramp_all_ones_witness :
  diff_bits (repeat [0; 32; 64; 96; 128; 160; 191; 224; 255] 8) = repeat true 64
  /\ dhash_hex sample_cvtColor sample_resize ramp_image 8 = Ok "ffffffffffffffff".
Proof.
  apply (dhash_ramp_all_ones sample_cvtColor sample_resize ramp_image
           (repeat ramp 8)).
  - vm_compute. reflexivity.
  - reflexivity.
  - repeat constructor.
  - vm_compute. reflexivity.
  - repeat constructor.
Defined.

(** C2 as worded fails: the ramp 0, 1, 2, 3, 4, 5, 6, 255 rises strictly
    from 0 to 255 in every row, and widened to 9 columns it reads
    0, 1, 2, 3, 4, 4, 5, 37, 255: the fifth bit of every row is 0. *)
Lemma dhash_unit_ramp_not_all_ones :
  ~ (forall (cvtColor_BGR2GRAY : ndarray -> res gray)
            (resize_INTER_AREA : gray -> Z -> Z -> res gray)
            (img : ndarray) (g resized : gray),
       cvtColor_BGR2GRAY img = Ok g ->
       List.length g = 8%nat ->
       Forall (fun row => List.length row = 8%nat
                          /\ increasingb row = true
                          /\ hd 0 row = 0 /\ last row 0 = 255) g ->
       resize_INTER_AREA g 9 8 = Ok resized ->
       Forall2 (fun row out => widenedb 9 row out = true) g resized ->
       dhash_hex cvtColor_BGR2GRAY resize_INTER_AREA img 8
       = Ok "ffffffffffffffff").
Proof.
  intros H.
  specialize (H sample_cvtColor sample_resize unit_ramp_image
                (repeat unit_ramp 8)
                (repeat [0; 1; 2; 3; 4; 4; 5; 37; 255] 8)).
  assert (E : dhash_hex sample_cvtColor sample_resize unit_ramp_image 8
              = Ok "ffffffffffffffff").
  { apply H.
    - vm_compute. reflexivity.
    - reflexivity.
    - repeat constructor.
    - vm_compute. reflexivity.
    - repeat constructor. }
  vm_compute in E. discriminate E.
Qed.

(** ** The builders *)

Lemma string_eqb_true (a b : string) : String.eqb a b = true -> a = b.
Proof. apply String.eqb_eq. Qed.

Lemma dict_set_In (d : dict) (k : string) (v : json) (k0 : string) (v0 : json) :
  In (k0, v0) (dict_set d k v) -> In (k0, v0) d \/ (k0 = k /\ v0 = v).
Proof.
  induction d as [|[k' v'] d IH]; simpl.
  - intros [H|[]]. inversion H. right. split; reflexivity.
  - destruct (String.eqb k' k) eqn:E; simpl.
    + intros [H|H].
      * inversion H; subst. right. split; [apply string_eqb_true, E | reflexivity].
      * left. right. exact H.
    + intros [H|H].
      * left. left. exact H.
      * destruct (IH H) as [H'|H']; [left; right; exact H' | right; exact H'].
Qed.

Section Scan.

Variable entry : json -> res (option (string * json)).
Variable n : Z.

(** Whatever holds of every record a turn can store holds of every
    record of the table. *)
Lemma scan_Forall (P : string * json -> Prop) :
  forall l out out',
  (forall a k r, In a l -> entry a = Ok (Some (k, r)) -> P (k, r)) ->
  Forall P out ->
  scan entry n l out = Ok out' ->
  Forall P out'.
Proof.
  induction l as [|a l IH]; intros out out' HP Hout Hscan; simpl in Hscan.
  - inversion Hscan; subst. exact Hout.
  - destruct (len out >=? n).
    + inversion Hscan; subst. exact Hout.
    + destruct (entry a) as [[[k r]|]|e] eqn:Ea; simpl in Hscan;
        [ | | discriminate Hscan].
      * apply (IH (dict_set out k r) out'); [| |exact Hscan].
        -- intros a' k' r' Hin. apply HP. right. exact Hin.
        -- rewrite Forall_forall in *. intros [k0 v0] Hin.
           destruct (dict_set_In _ _ _ _ _ Hin) as [H|[-> ->]].
           ++ apply Hout, H.
           ++ apply (HP a). left. reflexivity. exact Ea.
      * apply (IH out out'); [|exact Hout|exact Hscan].
        intros a' k' r' Hin. apply HP. right. exact Hin.
Qed.

End Scan.

(** The sort only reorders. *)
Lemma insert_by_key_In {A : Type} (a x : Z * A) (l : list (Z * A)) :
  In x (insert_by_key a l) -> x = a \/ In x l.
Proof.
  induction l as [|b l IH]; simpl.
  - intros [H|[]]. left. symmetry. exact H.
  - destruct (fst a <=? fst b); simpl.
    + intros [H|H]; [left; symmetry; exact H | right; exact H].
    + intros [H|H]; [right; left; exact H|].
      destruct (IH H); [left; assumption | right; right; assumption].
Qed.

Lemma sort_by_key_In {A : Type} (x : Z * A) (l : list (Z * A)) :
  In x (sort_by_key l) -> In x l.
Proof.
  induction l as [|a l IH]; simpl; [tauto|].
  intros H. destruct (insert_by_key_In _ _ _ H) as [->|H'].
  - left. reflexivity.
  - right. apply IH, H'.
Qed.

Lemma mapM_key_In {A : Type} (key : A -> res Z) (l : list A) :
  forall keyed,
  mapM (fun x => k <- key x ;; Ok (k, x)) l = Ok keyed ->
  forall p, In p keyed -> In (snd p) l /\ key (snd p) = Ok (fst p).
Proof.
  induction l as [|a l IH]; simpl; intros keyed H p Hin.
  - inversion H; subst. destruct Hin.
  - destruct (key a) as [k|e] eqn:Ek; simpl in H; [|discriminate H].
    destruct (mapM _ l) as [ks|e]; simpl in H; [|discriminate H].
    inversion H; subst. destruct Hin as [<-|Hin].
    + split; [left; reflexivity | exact Ek].
    + destruct (IH ks eq_refl p Hin) as [H1 H2]. split; [right; exact H1 | exact H2].
Qed.

Lemma sorted_In {A : Type} (key : A -> res Z) (l s : list A) :
  sorted key l = Ok s ->
  forall x, In x s -> In x l /\ exists k, key x = Ok k.
Proof.
  unfold sorted. intros H x Hx.
  destruct (mapM _ l) as [keyed|e] eqn:Em; simpl in H; [|discriminate H].
  inversion H; subst.
  apply in_map_iff in Hx. destruct Hx as [p [<- Hp]].
  apply sort_by_key_In in Hp.
  destruct (mapM_key_In key l keyed Em p Hp) as [H1 H2].
  split; [exact H1 | exists (fst p); exact H2].
Qed.

Lemma id_key_object (x : json) (k : Z) : id_key x = Ok k -> is_object x.
Proof.
  destruct x; simpl; try discriminate. intros _. eexists. reflexivity.
Qed.

Lemma dict_get_In {V : Type} (d : list (string * V)) (k : string) (v : V) :
  dict_get d k = Some v -> In (k, v) d.
Proof.
  induction d as [|[k' v'] d IH]; simpl; [discriminate|].
  destruct (String.eqb k' k) eqn:E.
  - intros H. inversion H; subst. apply string_eqb_true in E. subst. left. reflexivity.
  - intros H. right. apply IH, H.
Qed.

Lemma py_get_obj (m : dict) (k : string) (default : json) :
  py_get (JObj m) k default
  = Ok (match dict_get m k with Some v => v | None => default end).
Proof. unfold py_get. destruct (dict_get m k); reflexivity. Qed.

Lemma rarity_from_quality_range (q : string) (n : Z) :
  rarity_from_quality q = Some n -> 1 <= n <= 5.
Proof.
  intros H. apply dict_get_In in H. simpl in H.
  repeat (destruct H as [H|H]; [inversion H; lia|]). destruct H.
Qed.

(** What a stored character record tells about its candidate. *)
Lemma character_entry_inv (textmap : dict) (a : json) (k : string) (r : json) :
  character_entry textmap a = Ok (Some (k, r)) ->
  exists _id icon q wt nh rarity,
    py_get a "id" JNull = Ok _id
    /\ py_get a "iconName" JNull = Ok icon
    /\ py_get a "qualityType" JNull = Ok q
    /\ py_get a "weaponType" JNull = Ok wt
    /\ py_get a "nameTextMapHash" (JStr "") = Ok nh
    /\ truthy _id = true
    /\ truthy icon = true
    /\ String.prefix "UI_AvatarIcon_" (py_str icon) = true
    /\ rarity_from_quality (py_str q) = Some rarity
    /\ k = py_str _id
    /\ r = JObj [ ("name", resolve_name textmap (py_str nh) _id);
                  ("rarity", JInt rarity);
                  ("element", JNull);
                  ("weapon_type", JStr (weapon_type_short (py_str wt)));
                  ("icon_name", JStr (py_str icon)) ].
Proof.
  intros H. unfold character_entry in H.
  destruct a as [| | | | | |m]; try discriminate H.
  rewrite !py_get_obj in H. cbv beta iota delta [bind] in H.
  rewrite !py_get_obj.
  destruct (truthy _) eqn:T1 in H; [|discriminate H].
  destruct (truthy _) eqn:T2 in H; [|discriminate H].
  cbv beta iota delta [negb orb] in H.
  destruct (String.prefix _ _) eqn:P in H; [|discriminate H].
  cbv beta iota delta [negb] in H.
  destruct (rarity_from_quality _) as [rarity|] eqn:Q in H; [|discriminate H].
  inversion H; subst.
  do 6 eexists. repeat split; try reflexivity; assumption.
Qed.

(** What a stored weapon record tells about its candidate. *)
Lemma weapon_entry_inv (textmap : dict) (w : json) (k : string) (r : json) :
  weapon_entry textmap w = Ok (Some (k, r)) ->
  exists _id icon wt rank_level nh rarity,
    py_get w "id" JNull = Ok _id
    /\ py_get w "icon" JNull = Ok icon
    /\ py_get w "weaponType" JNull = Ok wt
    /\ py_get w "rankLevel" JNull = Ok rank_level
    /\ py_get w "nameTextMapHash" (JStr "") = Ok nh
    /\ truthy _id = true
    /\ truthy icon = true
    /\ String.prefix "UI_EquipIcon_" (py_str icon) = true
    /\ py_int rank_level = Ok rarity
    /\ k = py_str _id
    /\ r = JObj [ ("name", resolve_name textmap (py_str nh) _id);
                  ("rarity", JInt rarity);
                  ("type", JStr (weapon_type_short (py_str wt)));
                  ("icon_name", JStr (py_str icon)) ].
Proof.
  intros H. unfold weapon_entry in H.
  destruct w as [| | | | | |m]; try discriminate H.
  rewrite !py_get_obj in H. cbv beta iota delta [bind] in H.
  rewrite !py_get_obj.
  destruct (truthy _) eqn:T1 in H; [|discriminate H].
  destruct (truthy _) eqn:T2 in H; [|discriminate H].
  cbv beta iota delta [negb orb] in H.
  destruct (String.prefix _ _) eqn:P in H; [|discriminate H].
  cbv beta iota delta [negb] in H.
  destruct (py_int _) as [rarity|e] eqn:Q in H; [|discriminate H].
  inversion H; subst.
  do 6 eexists. repeat split; try reflexivity; assumption.
Qed.

Lemma character_entry_total (textmap : dict) (m : dict) :
  exists e, character_entry textmap (JObj m) = Ok e.
Proof.
  unfold character_entry. rewrite !py_get_obj. cbv beta iota delta [bind].
  destruct (negb _ || negb _); [eexists; reflexivity|].
  destruct (negb (String.prefix _ _)); [eexists; reflexivity|].
  destruct (rarity_from_quality _); eexists; reflexivity.
Qed.

Lemma weapon_entry_total (textmap : dict) (m : dict) :
  exists e, weapon_entry textmap (JObj m) = Ok e.
Proof.
  unfold weapon_entry. rewrite !py_get_obj. cbv beta iota delta [bind].
  destruct (negb _ || negb _); [eexists; reflexivity|].
  destruct (negb (String.prefix _ _)); [eexists; reflexivity|].
  destruct (py_int _); eexists; reflexivity.
Qed.

(** Every record of a built table was stored by a turn of the loop on one
    of the candidates. *)
Lemma builder_origin (entry : json -> res (option (string * json))) (n : Z)
    (l : list json) (out : dict) :
  (s <- sorted id_key l ;; scan entry n s []) = Ok out ->
  Forall (fun kr => exists a, In a l /\ entry a = Ok (Some kr)) out.
Proof.
  intros H. destruct (sorted id_key l) as [s|e] eqn:Es; [|discriminate H].
  cbv beta iota delta [bind] in H.
  apply (scan_Forall entry n _ s [] out); [|constructor|exact H].
  intros a k r Hin Ha. exists a. split; [|exact Ha].
  apply (sorted_In id_key l s Es a Hin).
Qed.

(** C3, as the code has it.  A record of the characters table has exactly
    the keys name, rarity, element, weapon_type, icon_name, with element
    null; a record of the weapons table has exactly the keys name, rarity,
    type, icon_name. *)
Theorem table_record_fields (N_CHARACTERS N_WEAPONS : Z)
    (avatars weapons : list json) (textmap chars weaps : dict) :
  build_characters N_CHARACTERS avatars textmap = Ok chars ->
  build_weapons N_WEAPONS weapons textmap = Ok weaps ->
  Forall (fun kr => record_keys (snd kr) = Some character_fields
                    /\ field (snd kr) "element" = Some JNull) chars
  /\ Forall (fun kr => record_keys (snd kr) = Some weapon_fields) weaps.
Proof.
  intros Hc Hw. split.
  - apply builder_origin in Hc. eapply Forall_impl; [|exact Hc].
    intros [k r] [a [_ Ha]]. apply character_entry_inv in Ha.
    destruct Ha as (_id & icon & q & wt & nh & rarity & Ha).
    destruct Ha as (_ & _ & _ & _ & _ & _ & _ & _ & _ & _ & ->).
    split; reflexivity.
  - apply builder_origin in Hw. eapply Forall_impl; [|exact Hw].
    intros [k r] [a [_ Ha]]. apply weapon_entry_inv in Ha.
    destruct Ha as (_id & icon & wt & rl & nh & rarity & Ha).
    destruct Ha as (_ & _ & _ & _ & _ & _ & _ & _ & _ & _ & ->).
    reflexivity.
Qed.

Lemma table_record_fields_witness :
  Forall (fun kr => record_keys (snd kr) = Some character_fields
                    /\ field (snd kr) "element" = Some JNull)
         [("10000002", ayaka_record)]
  /\ Forall (fun kr => record_keys (snd kr) = Some weapon_fields)
         [("11101",
           JObj [ ("name", JStr "#11101"); ("rarity", JInt 1);
                  ("type", JStr "Sword");
                  ("icon_name", JStr "UI_EquipIcon_Sword_Blunt") ])].
Proof.
  apply (table_record_fields 30 30 [ayaka] [dull_blade] ayaka_textmap).
  - vm_compute. reflexivity.
  - vm_compute. reflexivity.
Defined.

(** C3 as worded fails for weapons: the record built from one weapon has
    no element key and names its label type. *)
Lemma weapon_record_fields_differ :
  ~ (forall (N_WEAPONS : Z) (weapons : list json) (textmap weaps : dict),
       build_weapons N_WEAPONS weapons textmap = Ok weaps ->
       Forall (fun kr => record_keys (snd kr) = Some character_fields
                         /\ field (snd kr) "element" = Some JNull) weaps).
Proof.
  intros H.
  specialize (H 30 [dull_blade] [] _ eq_refl).
  inversion H as [|kr rest [Hkeys _] _]. vm_compute in Hkeys. discriminate Hkeys.
Qed.

(** C4, as the code has it.  A record of the characters table has a rarity
    among 1, 2, 3, 4, 5.  A record of the weapons table was stored, under its
    key, by the turn of the loop on one of the candidates, and its rarity is
    the integer that [int] makes of the rank level of that very candidate,
    whatever that integer is; it lies among 1..5 when the rank levels do. *)
Theorem table_rarity (N_CHARACTERS N_WEAPONS : Z)
    (avatars weapons : list json) (textmap chars weaps : dict) :
  build_characters N_CHARACTERS avatars textmap = Ok chars ->
  build_weapons N_WEAPONS weapons textmap = Ok weaps ->
  Forall (fun kr => exists n, field (snd kr) "rarity" = Some (JInt n)
                              /\ 1 <= n <= 5) chars
  /\ Forall (fun kr => exists w n,
                In w weapons
                /\ weapon_entry textmap w = Ok (Some kr)
                /\ rank_of w = Some n
                /\ field (snd kr) "rarity" = Some (JInt n)) weaps
  /\ ((forall w n, In w weapons -> rank_of w = Some n -> 1 <= n <= 5) ->
      Forall (fun kr => exists n, field (snd kr) "rarity" = Some (JInt n)
                                  /\ 1 <= n <= 5) weaps).
Proof.
  intros Hc Hw.
  assert (Hrank : Forall (fun kr => exists w n,
                     In w weapons
                     /\ weapon_entry textmap w = Ok (Some kr)
                     /\ rank_of w = Some n
                     /\ field (snd kr) "rarity" = Some (JInt n)) weaps).
  { apply builder_origin in Hw. eapply Forall_impl; [|exact Hw].
    intros [k r] [a [Hin Ha]]. pose proof Ha as Hentry.
    apply weapon_entry_inv in Ha.
    destruct Ha as (_id & icon & wt & rl & nh & rarity & Ha).
    destruct Ha as (_ & _ & _ & Hrl & _ & _ & _ & _ & Hint & _ & Hr).
    exists a, rarity. split; [exact Hin|]. split; [exact Hentry|].
    split; [|rewrite Hr; reflexivity].
    unfold rank_of. rewrite Hrl, Hint. reflexivity. }
  split; [|split].
  - apply builder_origin in Hc. eapply Forall_impl; [|exact Hc].
    intros [k r] [a [_ Ha]]. apply character_entry_inv in Ha.
    destruct Ha as (_id & icon & q & wt & nh & rarity & Ha).
    destruct Ha as (_ & _ & _ & _ & _ & _ & _ & _ & Hq & _ & ->).
    exists rarity. split; [reflexivity|].
    apply (rarity_from_quality_range _ _ Hq).
  - exact Hrank.
  - intros Hall. eapply Forall_impl; [|exact Hrank].
    intros kr (w & n & Hin & _ & Hr & Hf). exists n. split; [exact Hf|].
    apply (Hall w n Hin Hr).
Qed.

Lemma table_rarity_witness :
  Forall (fun kr => exists n, field (snd kr) "rarity" = Some (JInt n)
                              /\ 1 <= n <= 5) [("10000002", ayaka_record)]
  /\ Forall (fun kr => exists w n,
                In w [dull_blade; rank9_blade]
                /\ weapon_entry ayaka_textmap w = Ok (Some kr)
                /\ rank_of w = Some n
                /\ field (snd kr) "rarity" = Some (JInt n))
        [("11101",
          JObj [ ("name", JStr "#11101"); ("rarity", JInt 1);
                 ("type", JStr "Sword");
                 ("icon_name", JStr "UI_EquipIcon_Sword_Blunt") ]);
         ("11102",
          JObj [ ("name", JStr "#11102"); ("rarity", JInt 9);
                 ("type", JStr "Sword");
                 ("icon_name", JStr "UI_EquipIcon_Sword_Nine") ])]
  /\ ((forall w n, In w [dull_blade; rank9_blade] -> rank_of w = Some n ->
       1 <= n <= 5) ->
      Forall (fun kr => exists n, field (snd kr) "rarity" = Some (JInt n)
                                  /\ 1 <= n <= 5)
        [("11101",
          JObj [ ("name", JStr "#11101"); ("rarity", JInt 1);
                 ("type", JStr "Sword");
                 ("icon_name", JStr "UI_EquipIcon_Sword_Blunt") ]);
         ("11102",
          JObj [ ("name", JStr "#11102"); ("rarity", JInt 9);
                 ("type", JStr "Sword");
                 ("icon_name", JStr "UI_EquipIcon_Sword_Nine") ])]).
Proof.
  apply (table_rarity 30 30 [ayaka] [dull_blade; rank9_blade] ayaka_textmap).
  - vm_compute. reflexivity.
  - vm_compute. reflexivity.
Defined.

(** C4 as worded fails for weapons: a weapon of rank level 9 is stored
    with rarity 9. *)
Lemma weapon_rarity_out_of_range :
  ~ (forall (N_WEAPONS : Z) (weapons : list json) (textmap weaps : dict),
       build_weapons N_WEAPONS weapons textmap = Ok weaps ->
       Forall (fun kr => exists n, field (snd kr) "rarity" = Some (JInt n)
                                   /\ 1 <= n <= 5) weaps).
Proof.
  intros H.
  specialize (H 30 [rank9_blade] [] _ eq_refl).
  inversion H as [|kr rest [n [Hf Hn]] _]. vm_compute in Hf.
  inversion Hf; subst. lia.
Qed.

(** C8.  With room for at least one character, the candidate Ayaka and the
    text map of the example give a table whose only key, 10000002, holds
    exactly the record of the example. *)
Theorem ayaka_example (N_CHARACTERS : Z) :
  1 <= N_CHARACTERS ->
  build_characters N_CHARACTERS [ayaka] ayaka_textmap
  = Ok [("10000002", ayaka_record)]
  /\ (forall out, build_characters N_CHARACTERS [ayaka] ayaka_textmap = Ok out ->
      dict_get out "10000002" = Some ayaka_record).
Proof.
  intros HN.
  assert (E : build_characters N_CHARACTERS [ayaka] ayaka_textmap
              = Ok [("10000002", ayaka_record)]).
  { unfold build_characters.
    change (sorted id_key [ayaka]) with (Ok [ayaka]).
    cbv beta iota delta [bind scan].
    replace (len [] >=? N_CHARACTERS) with false
      by (symmetry; rewrite Z.geb_leb; apply Z.leb_gt; unfold len; simpl; lia).
    change (character_entry ayaka_textmap ayaka)
      with (Ok (Some ("10000002", ayaka_record))).
    reflexivity. }
  split; [exact E|].
  intros out Hout. rewrite E in Hout. inversion Hout; subst. reflexivity.
Qed.

Lemma ayaka_example_witness :
  build_characters 30 [ayaka] ayaka_textmap = Ok [("10000002", ayaka_record)]
  /\ (forall out, build_characters 30 [ayaka] ayaka_textmap = Ok out ->
      dict_get out "10000002" = Some ayaka_record).
Proof.
  apply (ayaka_example 30). lia.
Defined.

(** C10.  A candidate whose weaponType is missing or null and that a
    builder accepts is stored with the label "None": [str] turns the
    missing value into the text None before the lookup, and only the empty
    text falls back to "Unknown". *)
Theorem absent_weapon_type_label (kd : kind) (textmap : dict) (a : json)
    (k : string) (r : json) :
  py_get a "weaponType" JNull = Ok JNull ->
  entry_of kd textmap a = Ok (Some (k, r)) ->
  field r (label_key kd) = Some (JStr "None")
  /\ weapon_type_short (py_str JNull) = "None"
  /\ weapon_type_short "" = "Unknown".
Proof.
  intros Hwt Ha. split; [|split; reflexivity].
  destruct kd; simpl in Ha.
  - apply character_entry_inv in Ha.
    destruct Ha as (_id & icon & q & wt & nh & rarity & Ha).
    destruct Ha as (_ & _ & _ & Hwt' & _ & _ & _ & _ & _ & _ & ->).
    rewrite Hwt in Hwt'. inversion Hwt'; subst. reflexivity.
  - apply weapon_entry_inv in Ha.
    destruct Ha as (_id & icon & wt & rl & nh & rarity & Ha).
    destruct Ha as (_ & _ & Hwt' & _ & _ & _ & _ & _ & _ & _ & ->).
    rewrite Hwt in Hwt'. inversion Hwt'; subst. reflexivity.
Qed.

Lemma absent_weapon_type_label_witness :
  (field (JObj [ ("name", JStr "#10000005"); ("rarity", JInt 5);
                 ("element", JNull); ("weapon_type", JStr "None");
                 ("icon_name", JStr "UI_AvatarIcon_PlayerBoy") ])
         (label_key Character) = Some (JStr "None")
   /\ weapon_type_short (py_str JNull) = "None"
   /\ weapon_type_short "" = "Unknown")
  /\ (field (JObj [ ("name", JStr "#11103"); ("rarity", JInt 3);
                    ("type", JStr "None");
                    ("icon_name", JStr "UI_EquipIcon_Sword_Plain") ])
            (label_key Weapon) = Some (JStr "None")
      /\ weapon_type_short (py_str JNull) = "None"
      /\ weapon_type_short "" = "Unknown").
Proof.
  split.
  - apply (absent_weapon_type_label Character [] untyped_avatar "10000005").
    + vm_compute. reflexivity.
    + vm_compute. reflexivity.
  - apply (absent_weapon_type_label Weapon [] untyped_weapon "11103").
    + vm_compute. reflexivity.
    + vm_compute. reflexivity.
Defined.

(** ** The sort *)

Section Sort.

Context {A : Type}.

Implicit Types (a b : Z * A) (l : list (Z * A)).

Lemma insert_by_key_perm a l : Permutation (a :: l) (insert_by_key a l).
Proof.
  induction l as [|b l IH]; simpl; [apply Permutation_refl|].
  destruct (fst a <=? fst b); [apply Permutation_refl|].
  eapply perm_trans; [apply perm_swap|]. apply perm_skip, IH.
Qed.

Lemma sort_by_key_perm l : Permutation l (sort_by_key l).
Proof.
  induction l as [|a l IH]; simpl; [apply perm_nil|].
  eapply perm_trans; [apply perm_skip, IH | apply insert_by_key_perm].
Qed.

Lemma insert_by_key_sorted a l :
  StronglySorted key_le l -> StronglySorted key_le (insert_by_key a l).
Proof.
  induction 1 as [|b l Hs IH Hb]; simpl.
  - constructor; constructor.
  - destruct (fst a <=? fst b) eqn:E.
    + apply Z.leb_le in E. constructor.
      * constructor; assumption.
      * constructor; [exact E|].
        eapply Forall_impl; [|exact Hb].
        intros c Hc. unfold key_le in *. lia.
    + apply Z.leb_gt in E. constructor; [exact IH|].
      rewrite Forall_forall in *. intros c Hc.
      destruct (insert_by_key_In _ _ _ Hc) as [->|Hc'].
      * unfold key_le. lia.
      * apply Hb, Hc'.
Qed.

Lemma sort_by_key_sorted l : StronglySorted key_le (sort_by_key l).
Proof.
  induction l as [|a l IH]; simpl; [constructor|].
  apply insert_by_key_sorted, IH.
Qed.

(** Stability: the elements of one key keep the order they came in. *)
Lemma insert_by_key_stable (k : Z) a l :
  filter (fun p => fst p =? k) (insert_by_key a l)
  = filter (fun p => fst p =? k) (a :: l).
Proof.
  induction l as [|b l IH]; [reflexivity|].
  simpl insert_by_key. destruct (fst a <=? fst b) eqn:E; [reflexivity|].
  apply Z.leb_gt in E.
  change (filter (fun p => fst p =? k) (b :: insert_by_key a l))
    with (if fst b =? k then b :: filter (fun p => fst p =? k) (insert_by_key a l)
          else filter (fun p => fst p =? k) (insert_by_key a l)).
  rewrite IH. simpl.
  destruct (fst a =? k) eqn:Ea; destruct (fst b =? k) eqn:Eb; try reflexivity.
  apply Z.eqb_eq in Ea, Eb. lia.
Qed.

Lemma sort_by_key_stable (k : Z) l :
  filter (fun p => fst p =? k) (sort_by_key l)
  = filter (fun p => fst p =? k) l.
Proof.
  induction l as [|a l IH]; [reflexivity|].
  simpl sort_by_key. rewrite insert_by_key_stable. simpl. rewrite IH. reflexivity.
Qed.

Variable key : A -> res Z.

Lemma mapM_key_ok (l : list A) :
  Forall (fun x => exists k, key x = Ok k) l ->
  mapM (fun x => k <- key x ;; Ok (k, x)) l
  = Ok (map (fun x => (key_num key x, x)) l).
Proof.
  induction 1 as [|x l [k Hk] _ IH]; [reflexivity|].
  simpl. unfold key_num at 1. rewrite Hk. simpl. rewrite IH. reflexivity.
Qed.

(** On candidates whose key does not raise, [sorted] returns the stable
    ascending rearrangement. *)
Lemma sorted_spec (l : list A) :
  Forall (fun x => exists k, key x = Ok k) l ->
  exists s,
    sorted key l = Ok s
    /\ Permutation l s
    /\ StronglySorted (fun x y => key_num key x <= key_num key y) s
    /\ (forall k, filter (fun x => key_num key x =? k) s
                  = filter (fun x => key_num key x =? k) l).
Proof.
  intros Hl. unfold sorted. rewrite (mapM_key_ok l Hl).
  cbv beta iota delta [bind].
  set (keyed := map (fun x => (key_num key x, x)) l).
  exists (map snd (sort_by_key keyed)). split; [reflexivity|].
  assert (Hfst : forall p, In p (sort_by_key keyed) -> fst p = key_num key (snd p)).
  { intros p Hp. apply sort_by_key_In in Hp. unfold keyed in Hp.
    apply in_map_iff in Hp. destruct Hp as [x [<- _]]. reflexivity. }
  assert (Hsnd : map snd keyed = l).
  { unfold keyed. rewrite map_map. simpl. apply map_id. }
  split; [|split].
  - rewrite <- Hsnd at 1. apply Permutation_map, sort_by_key_perm.
  - pose proof (sort_by_key_sorted keyed) as Hs.
    induction Hs as [|p ps Hs IH Hp]; simpl; constructor.
    + apply IH. intros q Hq. apply Hfst. right. exact Hq.
    + rewrite Forall_forall in *. intros y Hy.
      apply in_map_iff in Hy. destruct Hy as [q [<- Hq]].
      specialize (Hp q Hq). unfold key_le in Hp.
      rewrite (Hfst p), (Hfst q) in Hp; [exact Hp | right; exact Hq | left; reflexivity].
  - intros k.
    assert (Hf : forall ps, (forall p, In p ps -> fst p = key_num key (snd p)) ->
              filter (fun x => key_num key x =? k) (map snd ps)
              = map snd (filter (fun p => fst p =? k) ps)).
    { induction ps as [|p ps IH]; intros Hps; [reflexivity|].
      simpl. rewrite (Hps p) by (left; reflexivity).
      rewrite IH by (intros q Hq; apply Hps; right; exact Hq).
      destruct (key_num key (snd p) =? k); reflexivity. }
    rewrite Hf by exact Hfst.
    rewrite sort_by_key_stable.
    rewrite <- Hf.
    + rewrite Hsnd. reflexivity.
    + intros p Hp. unfold keyed in Hp. apply in_map_iff in Hp.
      destruct Hp as [x [<- _]]. reflexivity.
Qed.

End Sort.

Lemma sortable_key (x : json) : sortable x -> exists k, id_key x = Ok k.
Proof.
  intros [m [-> [Hnone|[v [n [Hsome Hint]]]]]]; unfold id_key;
    rewrite py_get_obj.
  - rewrite Hnone. exists 0. reflexivity.
  - rewrite Hsome. exists n. exact Hint.
Qed.

Lemma missing_id_rejected (kd : kind) (textmap m : dict) :
  dict_get m "id" = None -> entry_of kd textmap (JObj m) = Ok None.
Proof.
  intros H. destruct kd; simpl.
  - unfold character_entry. rewrite !py_get_obj, H. reflexivity.
  - unfold weapon_entry. rewrite !py_get_obj, H. reflexivity.
Qed.

(** C9, as the code has it.  On candidates that are objects whose id is
    missing or converts to an integer, the sort returns the stable,
    ascending-by-id rearrangement of the list; a missing id counts as 0, and
    a candidate without id is then rejected by the filters of either
    builder. *)
Theorem sorted_total_on_integer_ids (cands : list json) :
  Forall sortable cands ->
  exists s,
    sorted id_key cands = Ok s
    /\ Permutation cands s
    /\ StronglySorted (fun x y => id_num x <= id_num y) s
    /\ (forall k, filter (fun x => id_num x =? k) s
                  = filter (fun x => id_num x =? k) cands)
    /\ (forall m, dict_get m "id" = None ->
         id_key (JObj m) = Ok 0
         /\ forall kd textmap, entry_of kd textmap (JObj m) = Ok None).
Proof.
  intros Hs.
  destruct (sorted_spec id_key cands) as (s & E & P & S & F).
  - eapply Forall_impl; [|exact Hs]. intros x. apply sortable_key.
  - exists s. repeat split; try assumption.
    + unfold id_key. rewrite py_get_obj, H. reflexivity.
    + intros kd textmap. apply missing_id_rejected, H.
Qed.

Lemma sorted_total_on_integer_ids_witness :
  exists s,
    sorted id_key [dull_blade; JObj [("icon", JStr "x")]; ayaka; JObj [("id", JStr " 7 ")]]
    = Ok s
    /\ Permutation
         [dull_blade; JObj [("icon", JStr "x")]; ayaka; JObj [("id", JStr " 7 ")]] s
    /\ StronglySorted (fun x y => id_num x <= id_num y) s
    /\ (forall k, filter (fun x => id_num x =? k) s
                  = filter (fun x => id_num x =? k)
                      [dull_blade; JObj [("icon", JStr "x")]; ayaka;
                       JObj [("id", JStr " 7 ")]])
    /\ (forall m, dict_get m "id" = None ->
         id_key (JObj m) = Ok 0
         /\ forall kd textmap, entry_of kd textmap (JObj m) = Ok None).
Proof.
  apply (sorted_total_on_integer_ids
           [dull_blade; JObj [("icon", JStr "x")]; ayaka; JObj [("id", JStr " 7 ")]]).
  repeat constructor.
  - exists [ ("id", JInt 11101);
             ("icon", JStr "UI_EquipIcon_Sword_Blunt");
             ("weaponType", JStr "WEAPON_SWORD_ONE_HAND");
             ("rankLevel", JInt 1);
             ("nameTextMapHash", JInt 3673720571) ].
    split; [reflexivity|]. right. exists (JInt 11101), 11101. split; reflexivity.
  - exists [("icon", JStr "x")]. split; [reflexivity|]. left. reflexivity.
  - exists [ ("id", JInt 10000002);
             ("iconName", JStr "UI_AvatarIcon_Ayaka");
             ("qualityType", JStr "QUALITY_PURPLE");
             ("weaponType", JStr "WEAPON_SWORD_ONE_HAND");
             ("nameTextMapHash", JStr "123") ].
    split; [reflexivity|]. right. exists (JInt 10000002), 10000002. split; reflexivity.
  - exists [("id", JStr " 7 ")]. split; [reflexivity|]. right.
    exists (JStr " 7 "), 7. split; reflexivity.
Defined.

(** C9 as worded fails: an object whose id is the text abc makes the sort,
    and with it either builder, raise. *)
Lemma sort_raises_on_text_id :
  ~ (forall cands : list json,
       Forall is_object cands -> exists s, sorted id_key cands = Ok s)
  /\ sorted id_key [text_id_avatar] = Raise ValueError
  /\ build_characters 30 [text_id_avatar] [] = Raise ValueError
  /\ build_weapons 30 [JObj [("id", JNull)]] [] = Raise TypeError.
Proof.
  split; [|repeat split; reflexivity].
  intros H. destruct (H [text_id_avatar]) as [s Hs].
  - repeat constructor. eexists. reflexivity.
  - discriminate Hs.
Qed.

(** ** The bound on the tables *)

Lemma mem_In (k : string) (ks : list string) : mem k ks = true <-> In k ks.
Proof.
  unfold mem. rewrite existsb_exists. split.
  - intros [x [Hx E]]. apply string_eqb_true in E. subst. exact Hx.
  - intros H. exists k. split; [exact H | apply String.eqb_refl].
Qed.

Lemma keys_dict_set (d : dict) (k : string) (v : json) :
  keys (dict_set d k v) = if mem k (keys d) then keys d else (keys d ++ [k])%list.
Proof.
  induction d as [|[k' v'] d IH]; [reflexivity|].
  simpl dict_set. unfold mem in *. simpl keys. simpl existsb.
  rewrite (String.eqb_sym k k').
  destruct (String.eqb k' k) eqn:E; simpl; [reflexivity|].
  fold (keys (dict_set d k v)). rewrite IH.
  destruct (existsb (String.eqb k) (keys d)); reflexivity.
Qed.

Lemma len_keys (d : dict) : len d = Z.of_nat (List.length (keys d)).
Proof. unfold len, keys. rewrite length_map. reflexivity. Qed.

Lemma fresh_count_ext (ks : list string) :
  forall seen seen',
  (forall k, In k seen <-> In k seen') ->
  fresh_count ks seen = fresh_count ks seen'.
Proof.
  induction ks as [|k ks IH]; intros seen seen' H; [reflexivity|].
  simpl.
  assert (E : mem k seen = mem k seen').
  { destruct (mem k seen) eqn:E1; destruct (mem k seen') eqn:E2; try reflexivity.
    - apply mem_In, H, mem_In in E1. congruence.
    - apply mem_In, H, mem_In in E2. congruence. }
  rewrite E. destruct (mem k seen'); [apply IH, H|].
  f_equal. apply IH. intros x. simpl. rewrite H. reflexivity.
Qed.

Lemma fresh_count_NoDup (ks : list string) :
  forall seen,
  NoDup ks -> (forall k, In k ks -> ~ In k seen) ->
  fresh_count ks seen = List.length ks.
Proof.
  induction ks as [|k ks IH]; intros seen Hnd Hdis; [reflexivity|].
  inversion Hnd as [|? ? Hk Hnd']; subst. simpl.
  destruct (mem k seen) eqn:E.
  - apply mem_In in E. exfalso. apply (Hdis k); [left; reflexivity | exact E].
  - f_equal. apply IH; [exact Hnd'|].
    intros x Hx [<-|Hs]; [exact (Hk Hx)|].
    apply (Hdis x); [right; exact Hx | exact Hs].
Qed.

Section Bound.

Variable entry : json -> res (option (string * json)).
Variable n : Z.

(** The size of the table the loop returns: the keys it had, plus the new
    keys of the accepted candidates, cut at [n]. *)
Lemma scan_len :
  forall l out,
  Forall (fun a => exists e, entry a = Ok e) l ->
  len out <= n ->
  exists out',
    scan entry n l out = Ok out'
    /\ len out'
       = Z.min n (len out
                  + Z.of_nat (fresh_count (accepted_keys entry l) (keys out))).
Proof.
  induction l as [|a l IH]; intros out Hl Hout.
  - exists out. split; [reflexivity|]. simpl. lia.
  - inversion Hl as [|? ? [e He] Hl']; subst.
    simpl scan. simpl accepted_keys. rewrite He.
    cbv beta iota delta [bind].
    destruct (len out >=? n) eqn:Eg.
    + rewrite Z.geb_leb in Eg. apply Z.leb_le in Eg.
      exists out. split; [reflexivity|]. lia.
    + rewrite Z.geb_leb in Eg. apply Z.leb_gt in Eg.
      destruct e as [[k r]|].
      * destruct (IH (dict_set out k r) Hl') as [out' [Hs Hlen]].
        { rewrite len_keys, keys_dict_set.
          pose proof (len_keys out) as Lo.
          destruct (mem k (keys out)); [lia|].
          rewrite length_app. simpl List.length. lia. }
        exists out'. split; [exact Hs|]. rewrite Hlen.
        rewrite (len_keys (dict_set out k r)), keys_dict_set.
        pose proof (len_keys out) as Lo.
        simpl fresh_count.
        destruct (mem k (keys out)) eqn:Em; [lia|].
        rewrite length_app. simpl List.length.
        rewrite (fresh_count_ext _ (keys out ++ [k])%list (k :: keys out)).
        -- lia.
        -- intros x. rewrite in_app_iff. simpl. tauto.
      * destruct (IH out Hl' Hout) as [out' [Hs Hlen]].
        exists out'. split; assumption.
Qed.

(** Once the table holds [n] keys, whatever follows in the list is not
    looked at. *)
Lemma scan_cutoff :
  forall pre out outp,
  scan entry n pre out = Ok outp ->
  len outp >= n ->
  forall post, scan entry n (pre ++ post) out = Ok outp.
Proof.
  induction pre as [|a pre IH]; intros out outp Hs Hfull post.
  - simpl in Hs. inversion Hs; subst. simpl.
    destruct post as [|b post]; [reflexivity|].
    simpl. replace (len outp >=? n) with true; [reflexivity|].
    symmetry. rewrite Z.geb_leb. apply Z.leb_le. lia.
  - simpl in Hs |- *. destruct (len out >=? n); [exact Hs|].
    destruct (entry a) as [[[k r]|]|e]; [| |discriminate Hs];
      cbv beta iota delta [bind] in Hs |- *; apply IH; assumption.
Qed.

End Bound.

Lemma entry_of_total (kd : kind) (textmap : dict) (x : json) :
  is_object x -> exists e, entry_of kd textmap x = Ok e.
Proof.
  intros [m ->]. destruct kd; [apply character_entry_total | apply weapon_entry_total].
Qed.

Lemma build_unfold (kd : kind) (n : Z) (cands : list json) (textmap : dict) :
  build kd n cands textmap
  = (s <- sorted id_key cands ;; scan (entry_of kd textmap) n s []).
Proof. destruct kd; reflexivity. Qed.

(** C5, as the code has it.  For a bound [N >= 0] a built table has at most
    [N] keys; it has as many keys as the accepted candidates have different
    stringified ids, cut at [N], hence exactly [N] when at least [N]
    candidates with pairwise different keys pass the filters; and once the
    table holds [N] keys the rest of the sorted list has no effect. *)
Theorem table_cardinality (kd : kind) (N : Z) (cands : list json)
    (textmap out : dict) :
  0 <= N ->
  build kd N cands textmap = Ok out ->
  exists s,
    sorted id_key cands = Ok s
    /\ len out <= N
    /\ len out
       = Z.min N (Z.of_nat (distinct_count (accepted_keys (entry_of kd textmap) s)))
    /\ (NoDup (accepted_keys (entry_of kd textmap) s) ->
        N <= Z.of_nat (List.length (accepted_keys (entry_of kd textmap) s)) ->
        len out = N)
    /\ (forall pre outp,
          scan (entry_of kd textmap) N pre [] = Ok outp ->
          len outp >= N ->
          forall post, scan (entry_of kd textmap) N (pre ++ post) [] = Ok outp).
Proof.
  intros HN Hb. rewrite build_unfold in Hb.
  destruct (sorted id_key cands) as [s|e] eqn:Es; [|discriminate Hb].
  cbv beta iota delta [bind] in Hb.
  exists s. split; [reflexivity|].
  destruct (scan_len (entry_of kd textmap) N s []) as [out' [Hs Hlen]].
  - rewrite Forall_forall. intros x Hx.
    destruct (sorted_In id_key cands s Es x Hx) as [_ [k Hk]].
    apply entry_of_total. exact (id_key_object x k Hk).
  - unfold len. simpl. exact HN.
  - rewrite Hs in Hb. inversion Hb; subst out'.
    change (len []) with 0 in Hlen. change (keys []) with (@nil string) in Hlen.
    fold (distinct_count (accepted_keys (entry_of kd textmap) s)) in Hlen.
    rewrite Z.add_0_l in Hlen.
    split; [lia|]. split; [exact Hlen|]. split.
    + intros Hnd Hge. rewrite Hlen. unfold distinct_count.
      rewrite fresh_count_NoDup; [lia | exact Hnd | intros k _ []].
    + intros pre outp Hp Hfull post.
      apply scan_cutoff; assumption.
Qed.

Lemma table_cardinality_witness :
  exists s,
    sorted id_key [untyped_avatar; ayaka] = Ok s
    /\ len [("10000002", ayaka_record)] <= 1
    /\ len [("10000002", ayaka_record)]
       = Z.min 1 (Z.of_nat (distinct_count
                              (accepted_keys (entry_of Character ayaka_textmap) s)))
    /\ (NoDup (accepted_keys (entry_of Character ayaka_textmap) s) ->
        1 <= Z.of_nat (List.length (accepted_keys (entry_of Character ayaka_textmap) s)) ->
        len [("10000002", ayaka_record)] = 1)
    /\ (forall pre outp,
          scan (entry_of Character ayaka_textmap) 1 pre [] = Ok outp ->
          len outp >= 1 ->
          forall post,
          scan (entry_of Character ayaka_textmap) 1 (pre ++ post) [] = Ok outp).
Proof.
  apply (table_cardinality Character 1 [untyped_avatar; ayaka] ayaka_textmap).
  - lia.
  - vm_compute. reflexivity.
Defined.

(** C5 as worded fails: with room for two, two passing candidates of the
    same id leave a table of one key. *)
Lemma two_passing_one_key :
  ~ (forall (kd : kind) (N : Z) (cands s : list json) (textmap out : dict),
       0 <= N ->
       build kd N cands textmap = Ok out ->
       sorted id_key cands = Ok s ->
       N <= Z.of_nat (List.length (accepted_keys (entry_of kd textmap) s)) ->
       len out = N).
Proof.
  intros H.
  specialize (H Character 2 [ayaka; ayaka] [ayaka; ayaka] ayaka_textmap
                [("10000002", ayaka_record)]).
  assert (E : len [("10000002", ayaka_record)] = 2).
  { apply H.
    - lia.
    - vm_compute. reflexivity.
    - vm_compute. reflexivity.
    - vm_compute. discriminate. }
  vm_compute in E. discriminate E.
Qed.

(** ** Shape of a built table *)

Lemma dict_set_NoDup (d : dict) (k : string) (v : json) :
  NoDup (keys d) -> NoDup (keys (dict_set d k v)).
Proof.
  intros H. rewrite keys_dict_set.
  destruct (mem k (keys d)) eqn:E; [exact H|].
  apply NoDup_app; [exact H | repeat constructor; intros [] |].
  intros x Hx [<-|[]]. apply mem_In in Hx. congruence.
Qed.

Lemma scan_NoDup (entry : json -> res (option (string * json))) (n : Z) :
  forall l out out',
  NoDup (keys out) -> scan entry n l out = Ok out' -> NoDup (keys out').
Proof.
  induction l as [|a l IH]; intros out out' Hnd Hs; simpl in Hs.
  - inversion Hs; subst. exact Hnd.
  - destruct (len out >=? n); [inversion Hs; subst; exact Hnd|].
    destruct (entry a) as [[[k r]|]|e]; [| |discriminate Hs];
      cbv beta iota delta [bind] in Hs.
    + apply (IH _ _ (dict_set_NoDup out k r Hnd) Hs).
    + apply (IH _ _ Hnd Hs).
Qed.

(** A built table is a dictionary of objects: its keys are pairwise
    different and every record is an object. *)
Lemma built_table_wellformed (kd : kind) (n : Z) (cands : list json)
    (textmap table : dict) :
  build kd n cands textmap = Ok table ->
  NoDup (keys table) /\ Forall (fun kr => is_object (snd kr)) table.
Proof.
  intros Hb. rewrite build_unfold in Hb. split.
  - destruct (sorted id_key cands) as [s|e]; [|discriminate Hb].
    apply (scan_NoDup (entry_of kd textmap) n s [] table); [constructor | exact Hb].
  - apply builder_origin in Hb. eapply Forall_impl; [|exact Hb].
    intros [k r] [a [_ Ha]]. simpl. destruct kd; simpl in Ha.
    + apply character_entry_inv in Ha.
      destruct Ha as (_id & icon & q & wt & nh & rarity & Ha).
      destruct Ha as (_ & _ & _ & _ & _ & _ & _ & _ & _ & _ & ->).
      eexists. reflexivity.
    + apply weapon_entry_inv in Ha.
      destruct Ha as (_id & icon & wt & rl & nh & rarity & Ha).
      destruct Ha as (_ & _ & _ & _ & _ & _ & _ & _ & _ & _ & ->).
      eexists. reflexivity.
Qed.

(** ** The hash index *)

Lemma dict_get_absent {V : Type} (d : list (string * V)) (k : string) :
  ~ In k (map fst d) -> dict_get d k = None.
Proof.
  induction d as [|[k' v] d IH]; simpl; [reflexivity|].
  intros H. destruct (String.eqb k' k) eqn:E.
  - apply string_eqb_true in E. exfalso. apply H. left. exact E.
  - apply IH. intros Hin. apply H. right. exact Hin.
Qed.

Section Index.

Context {World : Type}.
Variable urlopen_read :
  string -> list (string * string) -> Z -> World -> res (list byte) * World.
Variable imdecode : list byte -> res (option ndarray).
Variable cvtColor_BGR2GRAY : ndarray -> res gray.
Variable resize_INTER_AREA : gray -> Z -> Z -> res gray.
Variable blend_f32 : Z -> Z -> Z -> Z.

Local Abbreviation loop :=
  (index_loop World urlopen_read imdecode cvtColor_BGR2GRAY resize_INTER_AREA blend_f32).
Local Abbreviation fetch := (http_get_bytes World urlopen_read).

(** One turn of the loop stores at most the key of its record. *)
Lemma index_loop_keys :
  forall items idx w idx' w',
  loop items idx w = (Ok idx', w') ->
  incl (keys idx') (keys idx ++ keys items)
  /\ (List.length (keys idx') <= List.length (keys idx) + List.length items)%nat.
Proof.
  induction items as [|[k meta] items IH]; intros idx w idx' w' H.
  - simpl in H. inversion H; subst. rewrite app_nil_r. split; [apply incl_refl|].
    simpl. lia.
  - simpl in H.
    destruct (py_get meta "icon_name" JNull) as [icon|e]; [|discriminate H].
    assert (Hskip : forall w0, loop items idx w0 = (Ok idx', w') ->
              incl (keys idx') (keys idx ++ keys ((k, meta) :: items))
              /\ (List.length (keys idx')
                  <= List.length (keys idx) + List.length ((k, meta) :: items))%nat).
    { intros w0 H0. destruct (IH _ _ _ _ H0) as [I L]. split.
      - intros x Hx. apply I in Hx. apply in_app_iff in Hx. apply in_app_iff.
        destruct Hx; [left; assumption | right; right; assumption].
      - simpl. lia. }
    destruct (negb (truthy icon)); [apply (Hskip w), H|].
    destruct (fetch _ w) as [fetched w1].
    destruct (bind fetched _) as [[h|]|e]; try (apply (Hskip w1), H).
    destruct (IH _ _ _ _ H) as [I L]. rewrite keys_dict_set in I, L. split.
    + intros x Hx. apply I in Hx. apply in_app_iff.
      destruct (mem k (keys idx)).
      * apply in_app_iff in Hx. destruct Hx; [left; assumption | right; right; assumption].
      * rewrite !in_app_iff in Hx. simpl in Hx |- *. tauto.
    + destruct (mem k (keys idx)); [simpl; lia|].
      rewrite length_app in L. simpl in L |- *. lia.
Qed.

(** A table whose records are objects never makes the loop raise. *)
Lemma index_loop_total :
  forall items idx w,
  Forall (fun kr => is_object (snd kr)) items ->
  exists idx' w', loop items idx w = (Ok idx', w').
Proof.
  induction items as [|[k meta] items IH]; intros idx w Hobj.
  - exists idx, w. reflexivity.
  - inversion Hobj as [|? ? [m Hm] Hobj']; subst. simpl in Hm. subst meta.
    change (loop ((k, JObj m) :: items) idx w)
      with (match py_get (JObj m) "icon_name" JNull with
            | Raise e => (Raise e, w)
            | Ok icon_name =>
                if negb (truthy icon_name) then loop items idx w
                else
                  let (fetched, w') := fetch (icon_url icon_name) w in
                  match (png <- fetched ;;
                         hash_asset imdecode cvtColor_BGR2GRAY resize_INTER_AREA
                           blend_f32 png) with
                  | Ok (Some h) => loop items (dict_set idx k (JStr h)) w'
                  | Ok None => loop items idx w'
                  | Raise _ => loop items idx w'
                  end
            end).
    rewrite py_get_obj.
    destruct (negb (truthy _)); [apply IH, Hobj'|].
    destruct (fetch _ w) as [fetched w1].
    destruct (bind fetched _) as [[h|]|e]; apply IH, Hobj'.
Qed.

Lemma index_loop_app :
  forall pre rest idx w idx1 w1,
  loop pre idx w = (Ok idx1, w1) ->
  loop (pre ++ rest)%list idx w = loop rest idx1 w1.
Proof.
  induction pre as [|[k meta] pre IH]; intros rest idx w idx1 w1 H.
  - simpl in H. inversion H; subst. reflexivity.
  - simpl in H |- *.
    destruct (py_get meta "icon_name" JNull) as [icon|e]; [|discriminate H].
    destruct (negb (truthy icon)); [apply IH, H|].
    destruct (fetch _ w) as [fetched w2].
    destruct (bind fetched _) as [[h|]|e]; apply IH, H.
Qed.

(** A record whose asset fails leaves index and list as if it were not
    there. *)
Lemma index_loop_skip (k : string) (meta icon : json) (rest idx : dict)
    (w w' : World) (fetched : res (list byte)) :
  field meta "icon_name" = Some icon ->
  truthy icon = true ->
  fetch (icon_url icon) w = (fetched, w') ->
  asset_fails imdecode cvtColor_BGR2GRAY resize_INTER_AREA blend_f32 fetched ->
  loop ((k, meta) :: rest) idx w = loop rest idx w'.
Proof.
  intros Hf Ht Hfetch Hfail.
  destruct meta as [| | | | | |m]; try discriminate Hf. simpl in Hf.
  change (loop ((k, JObj m) :: rest) idx w)
    with (match py_get (JObj m) "icon_name" JNull with
          | Raise e => (Raise e, w)
          | Ok icon_name =>
              if negb (truthy icon_name) then loop rest idx w
              else
                let (fetched, w') := fetch (icon_url icon_name) w in
                match (png <- fetched ;;
                       hash_asset imdecode cvtColor_BGR2GRAY resize_INTER_AREA
                         blend_f32 png) with
                | Ok (Some h) => loop rest (dict_set idx k (JStr h)) w'
                | Ok None => loop rest idx w'
                | Raise _ => loop rest idx w'
                end
          end).
  rewrite py_get_obj, Hf, Ht, Hfetch.
  cbv beta iota delta [negb].
  destruct fetched as [png|e]; [|reflexivity].
  cbv beta iota delta [bind].
  destruct Hfail as [Hnone|[e He]].
  - unfold hash_asset. rewrite Hnone. reflexivity.
  - rewrite He. reflexivity.
Qed.

Local Abbreviation build_index :=
  (build_hash_index World urlopen_read imdecode cvtColor_BGR2GRAY resize_INTER_AREA
     blend_f32).

(** C6.  Every key of a hash index built from a table is a key of that
    table, stored there with some record, and the index is no longer than
    the table. *)
Theorem index_keys_subset (items : dict) (w : World) (idx : dict) (w' : World) :
  build_index items w = (Ok idx, w') ->
  incl (keys idx) (keys items)
  /\ (forall k, In k (keys idx) -> exists meta, In (k, meta) items)
  /\ len idx <= len items.
Proof.
  intros H. unfold build_hash_index in H.
  destruct (index_loop_keys items [] w idx w' H) as [I L].
  simpl in I, L. split; [exact I|]. split.
  - intros k Hk. apply I in Hk. unfold keys in Hk.
    apply in_map_iff in Hk. destruct Hk as [[k' meta] [<- Hin]].
    exists meta. exact Hin.
  - rewrite len_keys. unfold len. lia.
Qed.

(** C7.  When the record [(k, meta)] of a table is reached and the fetch of
    its icon raises, or the bytes do not decode, or hashing raises, the loop
    goes on with the records after it and the index it had; the build ends
    with an index, which has no entry for [k]; and on a table whose records
    are objects, as is every table of the two builders, the loop returns an
    index whatever the assets do. *)
Theorem asset_failure_skipped (pre post : dict) (k : string) (meta icon : json)
    (w w1 w2 : World) (idx1 : dict) (fetched : res (list byte)) :
  Forall (fun kr => is_object (snd kr)) (pre ++ (k, meta) :: post)%list ->
  NoDup (keys (pre ++ (k, meta) :: post)%list) ->
  loop pre [] w = (Ok idx1, w1) ->
  field meta "icon_name" = Some icon ->
  truthy icon = true ->
  fetch (icon_url icon) w1 = (fetched, w2) ->
  asset_fails imdecode cvtColor_BGR2GRAY resize_INTER_AREA blend_f32 fetched ->
  loop ((k, meta) :: post) idx1 w1 = loop post idx1 w2
  /\ (exists idx w',
        build_index (pre ++ (k, meta) :: post)%list w = (Ok idx, w')
        /\ loop post idx1 w2 = (Ok idx, w')
        /\ dict_get idx k = None)
  /\ (forall items idx0 w0,
        Forall (fun kr => is_object (snd kr)) items ->
        exists idx' w', loop items idx0 w0 = (Ok idx', w'))
  /\ (forall kd n cands textmap table w0,
        build kd n cands textmap = Ok table ->
        exists idx' w', build_index table w0 = (Ok idx', w')).
Proof.
  intros Hobj Hnd Hpre Hf Ht Hfetch Hfail.
  assert (Hskip : loop ((k, meta) :: post) idx1 w1 = loop post idx1 w2)
    by (apply (index_loop_skip k meta icon post idx1 w1 w2 fetched); assumption).
  split; [exact Hskip|]. split; [|split; [apply index_loop_total|]].
  2:{ intros kd n cands textmap table w0 Hb.
      apply index_loop_total.
      apply (built_table_wellformed kd n cands textmap table Hb). }
  apply Forall_app in Hobj. destruct Hobj as [_ Hobj].
  inversion Hobj as [|? ? _ Hpost]; subst.
  destruct (index_loop_total post idx1 w2 Hpost) as [idx [w' Hrest]].
  exists idx, w'. split; [|split; [exact Hrest|]].
  - unfold build_hash_index.
    rewrite (index_loop_app pre ((k, meta) :: post) [] w idx1 w1 Hpre).
    rewrite Hskip. exact Hrest.
  - apply dict_get_absent. fold (keys idx). intros Hin.
    unfold keys in Hnd. rewrite map_app in Hnd. simpl in Hnd.
    apply NoDup_remove_2 in Hnd. apply Hnd.
    destruct (index_loop_keys post idx1 w2 idx w' Hrest) as [I _].
    destruct (index_loop_keys pre [] w idx1 w1 Hpre) as [I1 _].
    apply I in Hin. apply in_app_iff in Hin. apply in_app_iff.
    destruct Hin as [Hin|Hin]; [left; apply I1 in Hin; exact Hin | right; exact Hin].
Qed.

End Index.

Lemma index_keys_subset_witness :
  incl (keys [("10000005", JStr "ffffffffffffffff")]) (keys sample_table)
  /\ (forall k, In k (keys [("10000005", JStr "ffffffffffffffff")]) ->
       exists meta, In (k, meta) sample_table)
  /\ len [("10000005", JStr "ffffffffffffffff")] <= len sample_table.
Proof.
  apply (index_keys_subset sample_urlopen sample_imdecode sample_cvtColor
           sample_resize sample_blend sample_table 0%nat
           [("10000005", JStr "ffffffffffffffff")] 2%nat).
  vm_compute. reflexivity.
Defined.

Lemma asset_failure_skipped_witness :
  index_loop nat sample_urlopen sample_imdecode sample_cvtColor sample_resize
    sample_blend sample_table [] 0%nat
  = index_loop nat sample_urlopen sample_imdecode sample_cvtColor sample_resize
      sample_blend (tl sample_table) [] 1%nat
  /\ (exists idx w',
        build_hash_index nat sample_urlopen sample_imdecode sample_cvtColor
          sample_resize sample_blend sample_table 0%nat = (Ok idx, w')
        /\ index_loop nat sample_urlopen sample_imdecode sample_cvtColor
             sample_resize sample_blend (tl sample_table) [] 1%nat = (Ok idx, w')
        /\ dict_get idx "10000002" = None)
  /\ (forall items idx0 w0,
        Forall (fun kr => is_object (snd kr)) items ->
        exists idx' w',
          index_loop nat sample_urlopen sample_imdecode sample_cvtColor
            sample_resize sample_blend items idx0 w0 = (Ok idx', w'))
  /\ (forall kd n cands textmap table w0,
        build kd n cands textmap = Ok table ->
        exists idx' w',
          build_hash_index nat sample_urlopen sample_imdecode sample_cvtColor
            sample_resize sample_blend table w0 = (Ok idx', w')).
Proof.
  apply (asset_failure_skipped sample_urlopen sample_imdecode sample_cvtColor
           sample_resize sample_blend
           [] (tl sample_table) "10000002" ayaka_record
           (JStr "UI_AvatarIcon_Ayaka") 0%nat 0%nat 1%nat []
           (Raise (LibError "HTTP Error 404: Not Found"))).
  - repeat constructor; eexists; reflexivity.
  - repeat constructor; simpl; intuition discriminate.
  - reflexivity.
  - reflexivity.
  - reflexivity.
  - reflexivity.
  - exact I.
Defined.

(** * Further properties *)

(** ** Width and content of the fingerprint *)

Lemma hex_loop_length (fuel : nat) :
  forall (k : nat) v acc,
  (1 <= k)%nat -> 0 <= v < 16 ^ Z.of_nat k ->
  (String.length (hex_loop fuel v acc) <= k + String.length acc)%nat.
Proof.
  induction fuel as [|fuel IH]; intros k v acc Hk Hv; [simpl; lia|].
  simpl hex_loop. destruct (v / 16 =? 0) eqn:E; [simpl; lia|].
  apply Z.eqb_neq in E.
  destruct k as [|[|k]]; [lia| |].
  - exfalso. apply E. apply Z.div_small. simpl in Hv. lia.
  - specialize (IH (S k) (v / 16) (String (hex_digit (v mod 16)) acc)).
    simpl String.length in IH. 
    assert (Hq : 0 <= v / 16 < 16 ^ Z.of_nat (S k)).
    { rewrite (Nat2Z.inj_succ (S k)), Z.pow_succ_r in Hv by lia.
      split; [apply Z.div_pos; lia | apply Z.div_lt_upper_bound; lia]. }
    specialize (IH ltac:(lia) Hq). lia.
Qed.

Lemma hex_digit_lower (d : Z) : 0 <= d < 16 -> is_lower_hex (hex_digit d) = true.
Proof.
  intros H.
  assert (E : d = 0 \/ d = 1 \/ d = 2 \/ d = 3 \/ d = 4 \/ d = 5 \/ d = 6
              \/ d = 7 \/ d = 8 \/ d = 9 \/ d = 10 \/ d = 11 \/ d = 12
              \/ d = 13 \/ d = 14 \/ d = 15) by lia.
  repeat (destruct E as [->|E]; [reflexivity|]). subst. reflexivity.
Qed.

Lemma hex_loop_lower (fuel : nat) :
  forall v acc,
  string_forall is_lower_hex acc = true ->
  string_forall is_lower_hex (hex_loop fuel v acc) = true.
Proof.
  induction fuel as [|fuel IH]; intros v acc Hacc; [exact Hacc|].
  simpl hex_loop.
  assert (Hd : string_forall is_lower_hex (String (hex_digit (v mod 16)) acc) = true).
  { simpl. rewrite hex_digit_lower, Hacc; [reflexivity|].
    apply Z.mod_pos_bound. lia. }
  destruct (v / 16 =? 0); [exact Hd | apply IH, Hd].
Qed.

Lemma string_forall_app (p : ascii -> bool) (s t : string) :
  string_forall p (s ++ t) = string_forall p s && string_forall p t.
Proof.
  induction s as [|c s IH]; [reflexivity|].
  simpl. rewrite IH, andb_assoc. reflexivity.
Qed.

Lemma zeros_length (n : nat) : String.length (zeros n) = n.
Proof. induction n as [|n IH]; simpl; [reflexivity | rewrite IH; reflexivity]. Qed.

Lemma zeros_lower (n : nat) : string_forall is_lower_hex (zeros n) = true.
Proof. induction n as [|n IH]; [reflexivity | exact IH]. Qed.

Lemma string_app_length (s t : string) :
  String.length (s ++ t) = (String.length s + String.length t)%nat.
Proof. induction s as [|c s IH]; simpl; [reflexivity | rewrite IH; reflexivity]. Qed.

(** A value below [16 ^ width] is rendered on exactly [width] digits. *)
Lemma format_hex_length (val : Z) (width : nat) :
  (1 <= width)%nat -> 0 <= val < 16 ^ Z.of_nat width ->
  String.length (format_hex val (Z.of_nat width)) = width
  /\ string_forall is_lower_hex (format_hex val (Z.of_nat width)) = true.
Proof.
  intros Hw Hv. unfold format_hex. split.
  - rewrite string_app_length, zeros_length, Nat2Z.id.
    pose proof (hex_loop_length (S (Z.to_nat (Z.log2 val))) width val EmptyString Hw Hv) as L.
    fold (to_hex val) in L. simpl in L. lia.
  - rewrite string_forall_app, zeros_lower. unfold to_hex.
    apply hex_loop_lower. reflexivity.
Qed.

Lemma pack_bits_inj (b1 b2 : list bool) :
  List.length b1 = List.length b2 -> pack_bits b1 = pack_bits b2 -> b1 = b2.
Proof.
  intros Hlen Hp. apply (nth_ext b1 b2 false false Hlen).
  intros k Hk.
  rewrite <- (pack_bits_testbit b1 k Hk).
  rewrite <- (pack_bits_testbit b2 k) by lia.
  rewrite Hp, Hlen. reflexivity.
Qed.

Lemma diff_bits_length (hash_size : nat) (resized : gray) :
  List.length resized = hash_size ->
  Forall (fun row => List.length row = S hash_size) resized ->
  List.length (diff_bits resized) = (hash_size * hash_size)%nat.
Proof.
  intros Hrows Hcols. unfold diff_bits.
  rewrite (concat_length_uniform hash_size) by (apply diff_rows_uniform, Hcols).
  rewrite length_map, Hrows. reflexivity.
Qed.

Section Fingerprint.

Variable cvtColor_BGR2GRAY : ndarray -> res gray.
Variable resize_INTER_AREA : gray -> Z -> Z -> res gray.

(** X1.  Width of the fingerprint.  For a hash size of at least 1, when the two
    library calls succeed and the resize returns the shape it was asked for,
    [dhash_hex] returns exactly [ceil(hash_size * hash_size / 4)] lower-case
    hexadecimal digits, 16 for the size 8 the index builder uses, and these
    digits denote the packed integer. *)
Theorem dhash_hex_fixed_width (hash_size : nat) (img : ndarray) (g resized : gray) :
  (1 <= hash_size)%nat ->
  cvtColor_BGR2GRAY img = Ok g ->
  resize_INTER_AREA g (Z.of_nat hash_size + 1) (Z.of_nat hash_size) = Ok resized ->
  List.length resized = hash_size ->
  Forall (fun row => List.length row = S hash_size) resized ->
  exists h,
    dhash_hex cvtColor_BGR2GRAY resize_INTER_AREA img (Z.of_nat hash_size) = Ok h
    /\ String.length h = ((hash_size * hash_size + 3) / 4)%nat
    /\ (hash_size = 8%nat -> String.length h = 16%nat)
    /\ string_forall is_lower_hex h = true
    /\ hex_value h = pack_bits (diff_bits resized).
Proof.
  intros Hs Hg Hr Hrows Hcols.
  unfold dhash_hex. rewrite Hg. cbv beta iota delta [bind]. rewrite Hr.
  cbv beta iota delta [bind]. eexists. split; [reflexivity|].
  set (n := (hash_size * hash_size)%nat).
  set (w := ((n + 3) / 4)%nat).
  assert (Hw : (Z.of_nat hash_size * Z.of_nat hash_size + 3) / 4 = Z.of_nat w).
  { unfold w, n. rewrite Nat2Z.inj_div, Nat2Z.inj_add, Nat2Z.inj_mul. reflexivity. }
  rewrite Hw.
  pose proof (pack_bits_range (diff_bits resized)) as R.
  rewrite (diff_bits_length hash_size resized Hrows Hcols) in R. fold n in R.
  assert (Hn : (1 <= n)%nat) by (unfold n; nia).
  assert (Hdiv : (n <= 4 * w)%nat).
  { unfold w. pose proof (Nat.div_mod (n + 3) 4 ltac:(lia)) as D.
    pose proof (Nat.mod_upper_bound (n + 3) 4 ltac:(lia)). lia. }
  assert (Hw1 : (1 <= w)%nat).
  { unfold w. apply (Nat.div_le_lower_bound (n + 3) 4 1); lia. }
  assert (Hb : 0 <= pack_bits (diff_bits resized) < 16 ^ Z.of_nat w).
  { split; [lia|]. eapply Z.lt_le_trans; [apply R|].
    change 16 with (2 ^ 4). rewrite <- Z.pow_mul_r by lia.
    apply Z.pow_le_mono_r; lia. }
  destruct (format_hex_length _ w Hw1 Hb) as [L D].
  split; [exact L|]. split; [|split; [exact D|]].
  - intros ->. rewrite L. reflexivity.
  - apply format_hex_value. lia.
Qed.

(** X2.  The fingerprint loses no comparison.  Two pictures whose resized arrays
    have the same shape and that get the same fingerprint have the same bits
    at every position. *)
Theorem dhash_hex_injective (hash_size : Z) (img1 img2 : ndarray)
    (g1 g2 r1 r2 : gray) (h : string) :
  cvtColor_BGR2GRAY img1 = Ok g1 ->
  cvtColor_BGR2GRAY img2 = Ok g2 ->
  resize_INTER_AREA g1 (hash_size + 1) hash_size = Ok r1 ->
  resize_INTER_AREA g2 (hash_size + 1) hash_size = Ok r2 ->
  List.length (diff_bits r1) = List.length (diff_bits r2) ->
  dhash_hex cvtColor_BGR2GRAY resize_INTER_AREA img1 hash_size = Ok h ->
  dhash_hex cvtColor_BGR2GRAY resize_INTER_AREA img2 hash_size = Ok h ->
  diff_bits r1 = diff_bits r2.
Proof.
  intros Hg1 Hg2 Hr1 Hr2 Hlen H1 H2.
  unfold dhash_hex in H1, H2.
  rewrite Hg1 in H1. rewrite Hg2 in H2. cbv beta iota delta [bind] in H1, H2.
  rewrite Hr1 in H1. rewrite Hr2 in H2. cbv beta iota delta [bind] in H1, H2.
  apply pack_bits_inj; [exact Hlen|].
  set (w := (hash_size * hash_size + 3) / 4) in *.
  pose proof (pack_bits_range (diff_bits r1)) as R1.
  pose proof (pack_bits_range (diff_bits r2)) as R2.
  destruct (format_hex_value (pack_bits (diff_bits r1)) w) as [V1 _]; [lia|].
  destruct (format_hex_value (pack_bits (diff_bits r2)) w) as [V2 _]; [lia|].
  inversion H1 as [E1]. inversion H2 as [E2].
  rewrite <- V1, <- V2, E1, E2. reflexivity.
Qed.

End Fingerprint.

Lemma dhash_hex_fixed_width_witness :
  exists h,
    dhash_hex sample_cvtColor sample_resize ramp_image (Z.of_nat 8) = Ok h
    /\ String.length h = ((8 * 8 + 3) / 4)%nat
    /\ (8%nat = 8%nat -> String.length h = 16%nat)
    /\ string_forall is_lower_hex h = true
    /\ hex_value h
       = pack_bits (diff_bits (repeat [0; 32; 64; 96; 128; 160; 191; 224; 255] 8)).
Proof.
  apply (dhash_hex_fixed_width sample_cvtColor sample_resize 8 ramp_image
           (repeat ramp 8)).
  - lia.
  - vm_compute. reflexivity.
  - vm_compute. reflexivity.
  - reflexivity.
  - repeat constructor.
Defined.

Lemma dhash_hex_injective_witness :
  diff_bits (repeat [0; 32; 64; 96; 128; 160; 191; 224; 255] 8)
  = diff_bits (repeat [0; 9; 18; 26; 35; 44; 53; 61; 70] 8).
Proof.
  apply (dhash_hex_injective sample_cvtColor sample_resize 8
           ramp_image dark_ramp_image
           (repeat ramp 8) (repeat dark_ramp 8) _ _ "ffffffffffffffff").
  - vm_compute. reflexivity.
  - vm_compute. reflexivity.
  - vm_compute. reflexivity.
  - vm_compute. reflexivity.
  - reflexivity.
  - vm_compute. reflexivity.
  - vm_compute. reflexivity.
Defined.

(** ** The weapon-type label *)

Lemma weapon_type_short_cases (wt : string) :
  (In (wt, weapon_type_short wt)
      [ ("WEAPON_SWORD_ONE_HAND", "Sword"); ("WEAPON_CLAYMORE", "Claymore");
        ("WEAPON_POLE", "Polearm"); ("WEAPON_CATALYST", "Catalyst");
        ("WEAPON_BOW", "Bow") ])
  \/ (wt = "" /\ weapon_type_short wt = "Unknown")
  \/ (wt <> "" /\ weapon_type_short wt = wt
      /\ ~ In wt [ "WEAPON_SWORD_ONE_HAND"; "WEAPON_CLAYMORE"; "WEAPON_POLE";
                   "WEAPON_CATALYST"; "WEAPON_BOW" ]).
Proof.
  unfold weapon_type_short.
  cbv beta iota zeta delta [dict_get].
  destruct (String.eqb "WEAPON_SWORD_ONE_HAND" wt) eqn:E1;
    [apply String.eqb_eq in E1; subst; left; simpl; tauto|].
  destruct (String.eqb "WEAPON_CLAYMORE" wt) eqn:E2;
    [apply String.eqb_eq in E2; subst; left; simpl; tauto|].
  destruct (String.eqb "WEAPON_POLE" wt) eqn:E3;
    [apply String.eqb_eq in E3; subst; left; simpl; tauto|].
  destruct (String.eqb "WEAPON_CATALYST" wt) eqn:E4;
    [apply String.eqb_eq in E4; subst; left; simpl; tauto|].
  destruct (String.eqb "WEAPON_BOW" wt) eqn:E5;
    [apply String.eqb_eq in E5; subst; left; simpl; tauto|].
  apply String.eqb_neq in E1, E2, E3, E4, E5.
  right. destruct (String.eqb wt "") eqn:E.
  - apply String.eqb_eq in E. left. split; [exact E | reflexivity].
  - apply String.eqb_neq in E. right. split; [exact E|]. split; [reflexivity|].
    simpl. intros [H|[H|[H|[H|[H|[]]]]]]; congruence.
Qed.

(** X3.  The label is never empty, a text outside the five codes other than the
    empty one passes through unchanged, and a label is its own label. *)
Theorem weapon_type_short_label (wt : string) :
  weapon_type_short wt <> ""
  /\ weapon_type_short (weapon_type_short wt) = weapon_type_short wt
  /\ (wt <> "" ->
      ~ In wt [ "WEAPON_SWORD_ONE_HAND"; "WEAPON_CLAYMORE"; "WEAPON_POLE";
                "WEAPON_CATALYST"; "WEAPON_BOW" ] ->
      weapon_type_short wt = wt).
Proof.
  destruct (weapon_type_short_cases wt) as [H|[[-> H]|[Hne [H Hout]]]].
  - simpl in H.
    repeat (destruct H as [H|H];
            [injection H as Hw _; subst wt;
             split; [intros X; vm_compute in X; discriminate X|];
             split; [reflexivity|];
             intros _ Hn; exfalso; apply Hn; simpl; tauto|]).
    destruct H.
  - split; [intros X; vm_compute in X; discriminate X|].
    split; [reflexivity|]. intros Hn. congruence.
  - rewrite H. split; [exact Hne|]. split; [exact H|]. intros _ _. reflexivity.
Qed.

(** ** When a builder returns *)

Lemma mapM_ok_all {A B : Type} (f : A -> res B) (l : list A) (bs : list B) :
  mapM f l = Ok bs -> Forall (fun x => exists b, f x = Ok b) l.
Proof.
  revert bs. induction l as [|a l IH]; intros bs H; [constructor|].
  simpl in H. destruct (f a) as [b|e] eqn:Ea; [|discriminate H].
  cbv beta iota delta [bind] in H.
  destruct (mapM f l) as [bs'|e] eqn:El; [|discriminate H].
  constructor; [exists b; exact Ea | apply (IH bs'); reflexivity].
Qed.

Lemma mapM_raise_first {A B : Type} (f : A -> res B) (l : list A) (e : exn) :
  mapM f l = Raise e ->
  exists pre x post,
    l = (pre ++ x :: post)%list
    /\ Forall (fun y => exists b, f y = Ok b) pre
    /\ f x = Raise e.
Proof.
  induction l as [|a l IH]; intros H; [discriminate H|].
  simpl in H. destruct (f a) as [b|e'] eqn:Ea.
  - cbv beta iota delta [bind] in H.
    destruct (mapM f l) as [bs|e''] eqn:El; [discriminate H|].
    injection H as ->.
    destruct (IH eq_refl) as (pre & x & post & -> & Hpre & Hx).
    exists (a :: pre), x, post. split; [reflexivity|]. split; [|exact Hx].
    constructor; [exists b; exact Ea | exact Hpre].
  - injection H as ->. exists [], a, l. split; [reflexivity|].
    split; [constructor | exact Ea].
Qed.

Lemma key_sortable (x : json) (k : Z) : id_key x = Ok k -> sortable x.
Proof.
  intros H. destruct (id_key_object x k H) as [m ->].
  exists m. split; [reflexivity|].
  unfold id_key in H. rewrite py_get_obj in H. cbv beta iota delta [bind] in H.
  destruct (dict_get m "id") as [v|]; [right; exists v, k; split; [reflexivity | exact H] | left; reflexivity].
Qed.

Lemma scan_total (entry : json -> res (option (string * json))) (n : Z) :
  forall l out,
  Forall (fun a => exists e, entry a = Ok e) l ->
  exists out', scan entry n l out = Ok out'.
Proof.
  induction l as [|a l IH]; intros out Hl; [exists out; reflexivity|].
  inversion Hl as [|? ? [e He] Hl']; subst. simpl. rewrite He.
  cbv beta iota delta [bind].
  destruct (len out >=? n); [exists out; reflexivity|].
  destruct e as [[k r]|]; apply IH, Hl'.
Qed.

(** X4.  A builder returns a table exactly when every candidate is an object
    whose id is missing or converts to an integer; otherwise it raises what
    the sort key raises on the first candidate, in the order given, that is
    not so.  The filters and the text map never make it raise. *)
Theorem build_returns_iff (kd : kind) (N : Z) (cands : list json) (textmap : dict) :
  ((exists table, build kd N cands textmap = Ok table) <-> Forall sortable cands)
  /\ (forall e, build kd N cands textmap = Raise e ->
       exists pre x post,
         cands = (pre ++ x :: post)%list
         /\ Forall sortable pre
         /\ id_key x = Raise e).
Proof.
  rewrite build_unfold. split; [split|].
  - intros [table H].
    destruct (sorted id_key cands) as [s|e] eqn:Es; [|discriminate H].
    unfold sorted in Es.
    destruct (mapM _ cands) as [keyed|e] eqn:Em; [|discriminate Es].
    apply mapM_ok_all in Em. eapply Forall_impl; [|exact Em].
    intros x [[k y] Hx]. destruct (id_key x) as [k'|e] eqn:Ek; [|discriminate Hx].
    apply (key_sortable x k' Ek).
  - intros Hs.
    destruct (sorted_spec id_key cands) as (s & Es & _).
    { eapply Forall_impl; [|exact Hs]. intros x. apply sortable_key. }
    rewrite Es. cbv beta iota delta [bind].
    apply scan_total. rewrite Forall_forall. intros x Hx.
    destruct (sorted_In id_key cands s Es x Hx) as [_ [k Hk]].
    apply entry_of_total. exact (id_key_object x k Hk).
  - intros e H.
    destruct (sorted id_key cands) as [s|e'] eqn:Es.
    + cbv beta iota delta [bind] in H.
      destruct (scan_total (entry_of kd textmap) N s []) as [out' Ho].
      * rewrite Forall_forall. intros x Hx.
        destruct (sorted_In id_key cands s Es x Hx) as [_ [k Hk]].
        apply entry_of_total. exact (id_key_object x k Hk).
      * rewrite Ho in H. discriminate H.
    + injection H as ->. unfold sorted in Es.
      destruct (mapM _ cands) as [keyed|e''] eqn:Em; [discriminate Es|].
      injection Es as ->.
      destruct (mapM_raise_first _ _ _ Em) as (pre & x & post & -> & Hpre & Hx).
      exists pre, x, post. split; [reflexivity|]. split.
      * eapply Forall_impl; [|exact Hpre].
        intros y [[k z] Hy]. destruct (id_key y) as [k'|e'] eqn:Ek; [|discriminate Hy].
        apply (key_sortable y k' Ek).
      * destruct (id_key x) as [k|e'] eqn:Ek; [discriminate Hx|].
        cbv beta iota delta [bind] in Hx. injection Hx as ->. reflexivity.
Qed.

(** ** The keys of a table, in order *)

Lemma fresh_keys_ext (ks : list string) :
  forall seen seen',
  (forall k, In k seen <-> In k seen') ->
  fresh_keys ks seen = fresh_keys ks seen'.
Proof.
  induction ks as [|k ks IH]; intros seen seen' H; [reflexivity|].
  simpl.
  assert (E : mem k seen = mem k seen').
  { destruct (mem k seen) eqn:E1; destruct (mem k seen') eqn:E2; try reflexivity.
    - apply mem_In, H, mem_In in E1. congruence.
    - apply mem_In, H, mem_In in E2. congruence. }
  rewrite E. destruct (mem k seen'); [apply IH, H|].
  f_equal. apply IH. intros x. simpl. rewrite H. reflexivity.
Qed.

Lemma scan_keys (entry : json -> res (option (string * json))) (n : Z) :
  forall l out out',
  scan entry n l out = Ok out' ->
  keys out'
  = (keys out
     ++ firstn (Z.to_nat (n - len out))
          (fresh_keys (accepted_keys entry l) (keys out)))%list.
Proof.
  induction l as [|a l IH]; intros out out' H.
  - simpl in H. injection H as <-. simpl. rewrite firstn_nil, app_nil_r. reflexivity.
  - simpl in H. destruct (len out >=? n) eqn:Eg.
    + injection H as <-. rewrite Z.geb_leb in Eg. apply Z.leb_le in Eg.
      replace (Z.to_nat (n - len out)) with O by lia.
      rewrite app_nil_r. reflexivity.
    + rewrite Z.geb_leb in Eg. apply Z.leb_gt in Eg.
      simpl accepted_keys.
      destruct (entry a) as [[[k r]|]|e]; [| |discriminate H];
        cbv beta iota delta [bind] in H.
      * rewrite (IH _ _ H), keys_dict_set.
        rewrite (len_keys (dict_set out k r)), keys_dict_set.
        pose proof (len_keys out) as Lo.
        simpl fresh_keys. destruct (mem k (keys out)) eqn:Em.
        -- rewrite <- Lo. reflexivity.
        -- rewrite length_app. simpl List.length.
           replace (Z.to_nat (n - len out))
             with (S (Z.to_nat (n - Z.of_nat (List.length (keys out) + 1)))) by lia.
           rewrite (fresh_keys_ext _ (keys out ++ [k])%list (k :: keys out))
             by (intros x; rewrite in_app_iff; simpl; tauto).
           simpl firstn. rewrite <- app_assoc. reflexivity.
      * apply (IH _ _ H).
Qed.

(** X5.  The keys of a built table, in the order of insertion, are the first [N]
    different keys of the candidates that pass the filters, taken in
    ascending order of id; a bound of zero or less, or no candidate, gives the
    empty table. *)
Theorem table_keys_in_order (kd : kind) (N : Z) (cands : list json)
    (textmap table : dict) :
  build kd N cands textmap = Ok table ->
  exists s,
    sorted id_key cands = Ok s
    /\ keys table
       = firstn (Z.to_nat N) (fresh_keys (accepted_keys (entry_of kd textmap) s) [])
    /\ (N <= 0 -> table = [])
    /\ (cands = [] -> table = []).
Proof.
  intros H. rewrite build_unfold in H.
  destruct (sorted id_key cands) as [s|e] eqn:Es; [|discriminate H].
  cbv beta iota delta [bind] in H. exists s. split; [reflexivity|].
  pose proof (scan_keys _ _ _ _ _ H) as K. simpl in K.
  rewrite Z.sub_0_r in K.
  split; [exact K|]. split.
  - intros HN. replace (Z.to_nat N) with O in K by lia. simpl in K.
    destruct table; [reflexivity | discriminate K].
  - intros ->. injection Es as <-. simpl in H. injection H as <-. reflexivity.
Qed.

Lemma table_keys_in_order_witness :
  exists s,
    sorted id_key [untyped_avatar; text_id_avatar_fixed; ayaka; ayaka] = Ok s
    /\ keys [("10000002", ayaka_record);
             ("10000005",
              JObj [ ("name", JStr "#10000005"); ("rarity", JInt 5);
                     ("element", JNull); ("weapon_type", JStr "None");
                     ("icon_name", JStr "UI_AvatarIcon_PlayerBoy") ])]
       = firstn (Z.to_nat 2)
           (fresh_keys (accepted_keys (entry_of Character ayaka_textmap) s) [])
    /\ (2 <= 0 ->
        [("10000002", ayaka_record);
         ("10000005",
          JObj [ ("name", JStr "#10000005"); ("rarity", JInt 5);
                 ("element", JNull); ("weapon_type", JStr "None");
                 ("icon_name", JStr "UI_AvatarIcon_PlayerBoy") ])] = [])
    /\ ([untyped_avatar; text_id_avatar_fixed; ayaka; ayaka] = [] ->
        [("10000002", ayaka_record);
         ("10000005",
          JObj [ ("name", JStr "#10000005"); ("rarity", JInt 5);
                 ("element", JNull); ("weapon_type", JStr "None");
                 ("icon_name", JStr "UI_AvatarIcon_PlayerBoy") ])] = []).
Proof.
  apply (table_keys_in_order Character 2
           [untyped_avatar; text_id_avatar_fixed; ayaka; ayaka] ayaka_textmap).
  vm_compute. reflexivity.
Defined.

(** ** Where a record comes from *)

(** X6.  Every record of a built table stems from one of the candidates: its key
    is [str] of the candidate's id, which is truthy; its icon name is [str]
    of the candidate's icon and starts with the prefix of the kind; its name
    is the entry of the text map under [str] of the candidate's name hash
    or, when there is none, a hash sign followed by the key. *)
Theorem table_record_origin (kd : kind) (N : Z) (cands : list json)
    (textmap table : dict) :
  build kd N cands textmap = Ok table ->
  Forall (fun kr =>
    exists a _id icon nh,
      In a cands
      /\ py_get a "id" JNull = Ok _id
      /\ truthy _id = true
      /\ fst kr = py_str _id
      /\ py_get a (icon_key kd) JNull = Ok icon
      /\ truthy icon = true
      /\ String.prefix (icon_prefix kd) (py_str icon) = true
      /\ field (snd kr) "icon_name" = Some (JStr (py_str icon))
      /\ py_get a "nameTextMapHash" (JStr "") = Ok nh
      /\ field (snd kr) "name"
         = Some (match dict_get textmap (py_str nh) with
                 | Some v => v
                 | None => JStr ("#" ++ fst kr)
                 end)) table.
Proof.
  intros H. rewrite build_unfold in H. apply builder_origin in H.
  eapply Forall_impl; [|exact H].
  intros [k r] [a [Hin Ha]]. destruct kd; simpl in Ha.
  - apply character_entry_inv in Ha.
    destruct Ha as (_id & icon & q & wt & nh & rarity & Ha).
    destruct Ha as (H1 & H2 & _ & _ & H5 & H6 & H7 & H8 & _ & -> & ->).
    exists a, _id, icon, nh. repeat split; assumption || reflexivity.
  - apply weapon_entry_inv in Ha.
    destruct Ha as (_id & icon & wt & rl & nh & rarity & Ha).
    destruct Ha as (H1 & H2 & _ & _ & H5 & H6 & H7 & H8 & _ & -> & ->).
    exists a, _id, icon, nh. repeat split; assumption || reflexivity.
Qed.

Lemma table_record_origin_witness :
  Forall (fun kr =>
    exists a _id icon nh,
      In a [dull_blade]
      /\ py_get a "id" JNull = Ok _id
      /\ truthy _id = true
      /\ fst kr = py_str _id
      /\ py_get a (icon_key Weapon) JNull = Ok icon
      /\ truthy icon = true
      /\ String.prefix (icon_prefix Weapon) (py_str icon) = true
      /\ field (snd kr) "icon_name" = Some (JStr (py_str icon))
      /\ py_get a "nameTextMapHash" (JStr "") = Ok nh
      /\ field (snd kr) "name"
         = Some (match dict_get ayaka_textmap (py_str nh) with
                 | Some v => v
                 | None => JStr ("#" ++ fst kr)
                 end))
    [("11101",
      JObj [ ("name", JStr "#11101"); ("rarity", JInt 1);
             ("type", JStr "Sword");
             ("icon_name", JStr "UI_EquipIcon_Sword_Blunt") ])].
Proof.
  apply (table_record_origin Weapon 30 [dull_blade] ayaka_textmap).
  vm_compute. reflexivity.
Defined.

(** ** The table as the first passing candidates *)

Lemma dict_set_fresh (d : dict) (k : string) (v : json) :
  ~ In k (keys d) -> dict_set d k v = (d ++ [(k, v)])%list.
Proof.
  induction d as [|[k' v'] d IH]; intros H; [reflexivity|].
  simpl. destruct (String.eqb k' k) eqn:E.
  - apply string_eqb_true in E. exfalso. apply H. left. exact E.
  - rewrite IH; [reflexivity|]. intros Hin. apply H. right. exact Hin.
Qed.

Lemma accepted_entries_keys (entry : json -> res (option (string * json)))
    (l : list json) :
  keys (accepted_entries entry l) = accepted_keys entry l.
Proof.
  induction l as [|a l IH]; [reflexivity|].
  simpl. destruct (entry a) as [[[k r]|]|e]; simpl; [f_equal; exact IH | exact IH | exact IH].
Qed.

Lemma scan_entries (entry : json -> res (option (string * json))) (n : Z) :
  forall l out out',
  NoDup (keys out ++ accepted_keys entry l) ->
  scan entry n l out = Ok out' ->
  out' = (out ++ firstn (Z.to_nat (n - len out)) (accepted_entries entry l))%list.
Proof.
  induction l as [|a l IH]; intros out out' Hnd H.
  - simpl in H. injection H as <-. simpl. rewrite firstn_nil, app_nil_r. reflexivity.
  - simpl in H. destruct (len out >=? n) eqn:Eg.
    + injection H as <-. rewrite Z.geb_leb in Eg. apply Z.leb_le in Eg.
      replace (Z.to_nat (n - len out)) with O by lia.
      rewrite app_nil_r. reflexivity.
    + rewrite Z.geb_leb in Eg. apply Z.leb_gt in Eg.
      simpl accepted_keys in Hnd. simpl accepted_entries.
      destruct (entry a) as [[[k r]|]|e]; [| |discriminate H];
        cbv beta iota delta [bind] in H.
      * pose proof (NoDup_remove_2 _ _ _ Hnd) as Hk.
        assert (Hfresh : ~ In k (keys out))
          by (intros Hin; apply Hk, in_app_iff; left; exact Hin).
        rewrite (dict_set_fresh out k r Hfresh) in H.
        assert (Hnd' : NoDup (keys (out ++ [(k, r)])%list ++ accepted_keys entry l)).
        { unfold keys in Hnd |- *. rewrite map_app, <- app_assoc. exact Hnd. }
        rewrite (IH _ _ Hnd' H).
        unfold len. rewrite length_app. simpl List.length.
        replace (Z.to_nat (n - Z.of_nat (List.length out)))
          with (S (Z.to_nat (n - Z.of_nat (List.length out + 1))))
          by (unfold len in Eg; lia).
        simpl firstn. rewrite <- app_assoc. reflexivity.
      * apply (IH _ _ Hnd H).
Qed.

Lemma accepted_keys_perm (entry : json -> res (option (string * json)))
    (l l' : list json) :
  Permutation l l' -> Permutation (accepted_keys entry l) (accepted_keys entry l').
Proof.
  induction 1 as [|a l l' _ IH|a b l|l1 l2 l3 _ IH1 _ IH2]; simpl.
  - constructor.
  - destruct (entry a) as [[[k r]|]|e]; [apply perm_skip, IH | exact IH | exact IH].
  - destruct (entry a) as [[[k r]|]|e]; destruct (entry b) as [[[k' r']|]|e'];
      try apply Permutation_refl. apply perm_swap.
  - eapply perm_trans; eassumption.
Qed.

(** X7.  When the candidates that pass the filters are stored under pairwise
    different keys, the table is, entry for entry and in this order, the
    first [N] of them in ascending order of id. *)
Theorem table_is_first_passing (kd : kind) (N : Z) (cands : list json)
    (textmap table : dict) :
  NoDup (accepted_keys (entry_of kd textmap) cands) ->
  build kd N cands textmap = Ok table ->
  exists s,
    sorted id_key cands = Ok s
    /\ table = firstn (Z.to_nat N) (accepted_entries (entry_of kd textmap) s)
    /\ len table
       = Z.min (Z.max N 0)
           (Z.of_nat (List.length (accepted_keys (entry_of kd textmap) cands))).
Proof.
  intros Hnd H. rewrite build_unfold in H.
  destruct (sorted id_key cands) as [s|e] eqn:Es; [|discriminate H].
  cbv beta iota delta [bind] in H. exists s. split; [reflexivity|].
  assert (Hperm : Permutation cands s).
  { destruct (sorted_spec id_key cands) as (s' & Es' & P & _).
    - rewrite Forall_forall. intros x Hx.
      unfold sorted in Es.
      destruct (mapM _ cands) as [keyed|e] eqn:Em; [|discriminate Es].
      apply mapM_ok_all in Em. rewrite Forall_forall in Em.
      destruct (Em x Hx) as [[k y] Hk].
      destruct (id_key x) as [k'|e]; [exists k'; reflexivity | discriminate Hk].
    - rewrite Es in Es'. injection Es' as <-. exact P. }
  pose proof (accepted_keys_perm (entry_of kd textmap) _ _ Hperm) as Pk.
  assert (Hnds : NoDup (accepted_keys (entry_of kd textmap) s))
    by (apply (Permutation_NoDup Pk), Hnd).
  pose proof (scan_entries (entry_of kd textmap) N s [] table Hnds H) as T.
  simpl in T.
  rewrite Z.sub_0_r in T. split; [exact T|].
  rewrite T. unfold len. rewrite length_firstn.
  assert (L1 : List.length (accepted_entries (entry_of kd textmap) s)
               = List.length (accepted_keys (entry_of kd textmap) s)).
  { rewrite <- accepted_entries_keys. unfold keys. rewrite length_map. reflexivity. }
  pose proof (Permutation_length Pk) as L2. lia.
Qed.

Lemma table_is_first_passing_witness :
  exists s,
    sorted id_key [untyped_avatar; text_id_avatar_fixed; ayaka] = Ok s
    /\ [("10000002", ayaka_record);
        ("10000005",
         JObj [ ("name", JStr "#10000005"); ("rarity", JInt 5);
                ("element", JNull); ("weapon_type", JStr "None");
                ("icon_name", JStr "UI_AvatarIcon_PlayerBoy") ])]
       = firstn (Z.to_nat 2) (accepted_entries (entry_of Character ayaka_textmap) s)
    /\ len [("10000002", ayaka_record);
            ("10000005",
             JObj [ ("name", JStr "#10000005"); ("rarity", JInt 5);
                    ("element", JNull); ("weapon_type", JStr "None");
                    ("icon_name", JStr "UI_AvatarIcon_PlayerBoy") ])]
       = Z.min (Z.max 2 0)
           (Z.of_nat (List.length
              (accepted_keys (entry_of Character ayaka_textmap)
                 [untyped_avatar; text_id_avatar_fixed; ayaka]))).
Proof.
  apply (table_is_first_passing Character 2
           [untyped_avatar; text_id_avatar_fixed; ayaka] ayaka_textmap).
  - vm_compute. repeat constructor; simpl; intuition discriminate.
  - vm_compute. reflexivity.
Defined.

(** ** The order of the input *)

Lemma NoDup_map_inj {A B : Type} (f : A -> B) (l : list A) :
  NoDup (map f l) ->
  forall x y, In x l -> In y l -> f x = f y -> x = y.
Proof.
  induction l as [|a l IH]; intros Hnd x y Hx Hy E; [destruct Hx|].
  simpl in Hnd. inversion Hnd as [|? ? Ha Hnd']; subst.
  destruct Hx as [<-|Hx]; destruct Hy as [<-|Hy].
  - reflexivity.
  - exfalso. apply Ha. rewrite E. apply in_map, Hy.
  - exfalso. apply Ha. rewrite <- E. apply in_map, Hx.
  - apply IH; assumption.
Qed.

(** Two ascending arrangements of the same elements, whose keys are
    pairwise different, are the same list. *)
Lemma ascending_unique {A : Type} (f : A -> Z) (l1 : list A) :
  forall l2,
  Permutation l1 l2 ->
  NoDup (map f l1) ->
  StronglySorted (fun x y => f x <= f y) l1 ->
  StronglySorted (fun x y => f x <= f y) l2 ->
  l1 = l2.
Proof.
  induction l1 as [|a l1 IH]; intros l2 P Hnd S1 S2.
  - apply Permutation_nil in P. symmetry. exact P.
  - destruct l2 as [|b l2]; [apply Permutation_sym, Permutation_nil in P; discriminate P|].
    inversion S1 as [|? ? S1' F1]; subst. inversion S2 as [|? ? S2' F2]; subst.
    rewrite Forall_forall in F1, F2.
    assert (Hab : a = b).
    { assert (Ha : In a (b :: l2)) by (apply (Permutation_in a P); left; reflexivity).
      assert (Hb : In b (a :: l1))
        by (apply (Permutation_in b (Permutation_sym P)); left; reflexivity).
      apply (NoDup_map_inj f (a :: l1) Hnd); [left; reflexivity | exact Hb|].
      assert (L1 : f b <= f a) by (destruct Ha as [->|Ha]; [lia | apply F2, Ha]).
      assert (L2 : f a <= f b) by (destruct Hb as [->|Hb]; [lia | apply F1, Hb]).
      lia. }
    subst b. f_equal. apply IH; [|inversion Hnd; assumption | exact S1' | exact S2'].
    apply (Permutation_cons_inv P).
Qed.

(** X8.  When the numeric ids of the candidates are pairwise different, the
    table does not depend on the order in which the candidates are given. *)
Theorem build_order_independent (kd : kind) (N : Z) (cands cands' : list json)
    (textmap : dict) :
  Permutation cands cands' ->
  NoDup (map id_num cands) ->
  Forall sortable cands ->
  build kd N cands textmap = build kd N cands' textmap.
Proof.
  intros P Hnd Hs. rewrite !build_unfold.
  assert (Hs' : Forall sortable cands').
  { rewrite Forall_forall in *. intros x Hx.
    apply Hs, (Permutation_in x (Permutation_sym P) Hx). }
  destruct (sorted_spec id_key cands) as (s & Es & Ps & Ss & _).
  { eapply Forall_impl; [|exact Hs]. intros x. apply sortable_key. }
  destruct (sorted_spec id_key cands') as (s' & Es' & Ps' & Ss' & _).
  { eapply Forall_impl; [|exact Hs']. intros x. apply sortable_key. }
  rewrite Es, Es'.
  assert (E : s = s'); [|rewrite E; reflexivity].
  apply (ascending_unique id_num); [| |exact Ss|exact Ss'].
  - eapply perm_trans; [apply Permutation_sym, Ps|].
    eapply perm_trans; [exact P | exact Ps'].
  - apply (Permutation_NoDup (Permutation_map id_num Ps)), Hnd.
Qed.

Lemma build_order_independent_witness :
  build Character 2 [untyped_avatar; text_id_avatar_fixed; ayaka] ayaka_textmap
  = build Character 2 [ayaka; untyped_avatar; text_id_avatar_fixed] ayaka_textmap.
Proof.
  apply (build_order_independent Character 2
           [untyped_avatar; text_id_avatar_fixed; ayaka]
           [ayaka; untyped_avatar; text_id_avatar_fixed] ayaka_textmap).
  - apply Permutation_sym.
    apply (Permutation_cons_append [untyped_avatar; text_id_avatar_fixed] ayaka).
  - vm_compute. repeat constructor; simpl; intuition discriminate.
  - repeat constructor.
    + eexists. split; [reflexivity|]. right. exists (JInt 10000005), 10000005.
      split; reflexivity.
    + eexists. split; [reflexivity|]. right. exists (JStr "10000007"), 10000007.
      split; reflexivity.
    + eexists. split; [reflexivity|]. right. exists (JInt 10000002), 10000002.
      split; reflexivity.
Defined.

(** ** Integer ids and their keys *)

Lemma int_digits_uint (d : Decimal.uint) :
  forall acc,
  int_digits (NilEmpty.string_of_uint d) acc false = Some (uint_value acc d).
Proof.
  induction d; intros acc; simpl NilEmpty.string_of_uint; simpl uint_value;
    [reflexivity | ..];
    match goal with
    | |- int_digits (String ?c ?s) ?a false = _ =>
        change (int_digits (String c s) a false)
          with (int_digits s (10 * a + digit_val c) false)
    end; apply IHd.
Qed.

Lemma uint_value_pos (d : Decimal.uint) :
  forall p, uint_value (Z.pos p) d = Z.pos (Pos.of_uint_acc d p).
Proof.
  induction d; intros p; cbn [uint_value Pos.of_uint_acc]; [reflexivity | ..];
    rewrite <- IHd; f_equal; try lia.
Qed.

Lemma uint_value_zero (d : Decimal.uint) :
  uint_value 0 d = Z.of_N (Pos.of_uint d).
Proof.
  induction d; simpl; [reflexivity | exact IHd | ..];
    match goal with
    | |- uint_value ?k _ = _ => change k with (Z.pos (Z.to_pos k))
    end; apply uint_value_pos.
Qed.

Lemma int_unsigned_uint (d : Decimal.uint) :
  d <> Decimal.Nil ->
  int_unsigned (NilEmpty.string_of_uint d) = Some (uint_value 0 d).
Proof.
  intros Hd. destruct d; [contradiction | ..];
    simpl NilEmpty.string_of_uint; simpl uint_value;
    match goal with
    | |- int_unsigned (String ?c ?s) = _ =>
        change (int_unsigned (String c s)) with (int_digits s (digit_val c) false)
    end; apply int_digits_uint.
Qed.

Lemma int_of_str_uint (d : Decimal.uint) :
  d <> Decimal.Nil ->
  int_of_str (NilEmpty.string_of_uint d) = Some (uint_value 0 d)
  /\ int_of_str (String "-" (NilEmpty.string_of_uint d))
     = Some (- uint_value 0 d).
Proof.
  intros Hd. pose proof (int_unsigned_uint d Hd) as U. split.
  - destruct d; [contradiction | ..]; exact U.
  - unfold int_of_str.
    change (lstrip (String "-" (NilEmpty.string_of_uint d)))
      with (String "-" (NilEmpty.string_of_uint d)).
    cbv beta iota. rewrite U. reflexivity.
Qed.

(** [int(str(n)) == n]: the decimal rendering of an integer reads back as
    that integer. *)
Lemma int_of_str_str_of_Z (n : Z) : int_of_str (str_of_Z n) = Some n.
Proof.
  destruct n as [|p|p]; [reflexivity | |]; unfold str_of_Z; simpl Z.to_int;
    simpl NilZero.string_of_int; unfold NilZero.string_of_uint;
    pose proof (Unsigned.to_uint_nonnil p) as Hp;
    destruct (int_of_str_uint (Pos.to_uint p) Hp) as [E1 E2];
    pose proof (uint_value_zero (Pos.to_uint p)) as V;
    rewrite DecimalPos.Unsigned.of_to in V; simpl in V;
    destruct (Pos.to_uint p) eqn:Ed; try contradiction;
    rewrite ?E1, ?E2, V; reflexivity.
Qed.

Lemma str_of_Z_inj (n n' : Z) : str_of_Z n = str_of_Z n' -> n = n'.
Proof.
  intros H. pose proof (int_of_str_str_of_Z n) as E.
  rewrite H, int_of_str_str_of_Z in E. congruence.
Qed.

Lemma sorted_ok_spec {A : Type} (key : A -> res Z) (l s : list A) :
  sorted key l = Ok s ->
  Permutation l s
  /\ StronglySorted (fun x y => key_num key x <= key_num key y) s.
Proof.
  intros Es.
  destruct (sorted_spec key l) as (s' & Es' & P & S & _).
  - unfold sorted in Es.
    destruct (mapM _ l) as [keyed|e] eqn:Em; [|discriminate Es].
    apply mapM_ok_all in Em. eapply Forall_impl; [|exact Em].
    intros x [[k y] Hk].
    destruct (key x) as [k'|e]; [exists k'; reflexivity | discriminate Hk].
  - rewrite Es in Es'. injection Es' as <-. split; assumption.
Qed.

Lemma accepted_keys_In (entry : json -> res (option (string * json)))
    (l : list json) (k : string) :
  In k (accepted_keys entry l) ->
  exists a r, In a l /\ entry a = Ok (Some (k, r)).
Proof.
  induction l as [|a l IH]; simpl; [intros []|].
  destruct (entry a) as [[[k' r']|]|e] eqn:Ea.
  - intros [<-|H].
    + exists a, r'. split; [left; reflexivity | exact Ea].
    + destruct (IH H) as (a' & r & Hin & Ha'). exists a', r. split; [right; exact Hin | exact Ha'].
  - intros H. destruct (IH H) as (a' & r & Hin & Ha'). exists a', r.
    split; [right; exact Hin | exact Ha'].
  - intros H. destruct (IH H) as (a' & r & Hin & Ha'). exists a', r.
    split; [right; exact Hin | exact Ha'].
Qed.

(** The key of an accepted candidate of integer id is the decimal numeral
    of that id, which is not zero. *)
Lemma entry_key_int_id (kd : kind) (textmap : dict) (a : json) (k : string) (r : json) :
  has_int_id a ->
  entry_of kd textmap a = Ok (Some (k, r)) ->
  k = str_of_Z (id_num a) /\ id_num a <> 0.
Proof.
  intros (m & n & -> & Hid) Ha.
  assert (Hnum : id_num (JObj m) = n).
  { unfold id_num, key_num, id_key. rewrite py_get_obj, Hid. reflexivity. }
  assert (Hget : forall _id, py_get (JObj m) "id" JNull = Ok _id -> _id = JInt n).
  { intros _id H. rewrite py_get_obj, Hid in H. congruence. }
  rewrite Hnum.
  destruct kd; simpl in Ha.
  - apply character_entry_inv in Ha.
    destruct Ha as (_id & icon & q & wt & nh & rarity & Ha).
    destruct Ha as (H1 & _ & _ & _ & _ & H6 & _ & _ & _ & -> & _).
    rewrite (Hget _ H1) in *. split; [reflexivity|].
    simpl in H6. intros ->. discriminate H6.
  - apply weapon_entry_inv in Ha.
    destruct Ha as (_id & icon & wt & rl & nh & rarity & Ha).
    destruct Ha as (H1 & _ & _ & _ & _ & H6 & _ & _ & _ & -> & _).
    rewrite (Hget _ H1) in *. split; [reflexivity|].
    simpl in H6. intros ->. discriminate H6.
Qed.

Lemma key_int_str_of_Z (n : Z) : key_int (str_of_Z n) = n.
Proof. unfold key_int. rewrite int_of_str_str_of_Z. reflexivity. Qed.

Lemma int_ids_accepted_ascending (kd : kind) (textmap : dict) (s : list json) :
  Forall has_int_id s ->
  NoDup (map id_num s) ->
  StronglySorted (fun x y => id_num x <= id_num y) s ->
  StronglySorted (fun k1 k2 => key_int k1 < key_int k2)
    (accepted_keys (entry_of kd textmap) s).
Proof.
  induction s as [|a s IH]; intros Hint Hnd Hs; [constructor|].
  inversion Hint as [|? ? Ha Hint']; subst.
  inversion Hnd as [|? ? Hna Hnd']; subst.
  inversion Hs as [|? ? Hs' Hle]; subst.
  specialize (IH Hint' Hnd' Hs').
  simpl. destruct (entry_of kd textmap a) as [[[k r]|]|e] eqn:Ea; try exact IH.
  constructor; [exact IH|].
  rewrite Forall_forall in *. intros k' Hk'.
  destruct (accepted_keys_In _ _ _ Hk') as (a' & r' & Hin & Ha').
  destruct (entry_key_int_id kd textmap a k r Ha Ea) as [-> _].
  destruct (entry_key_int_id kd textmap a' k' r' (Hint' a' Hin) Ha') as [-> _].
  rewrite !key_int_str_of_Z.
  specialize (Hle a' Hin).
  assert (id_num a <> id_num a')
    by (intros E; apply Hna; rewrite E; apply in_map, Hin).
  lia.
Qed.

Lemma StronglySorted_firstn {A : Type} (R : A -> A -> Prop) (l : list A) :
  StronglySorted R l -> forall n, StronglySorted R (firstn n l).
Proof.
  induction 1 as [|a l Hs IH Ha]; intros n; [rewrite firstn_nil; constructor|].
  destruct n as [|n]; [constructor|]. simpl. constructor; [apply IH|].
  rewrite Forall_forall in *. intros x Hx. apply Ha.
  rewrite <- (firstn_skipn n l). apply in_or_app. left. exact Hx.
Qed.

(** X9.  Integer ids, as the game data has them.  When every candidate carries
    an integer id and the ids are pairwise different, the table is the first
    [N] passing candidates in ascending order of id; every key is the
    decimal numeral of the id of a candidate and [int] reads it back; and the
    keys follow one another in strictly ascending numeric order. *)
Theorem integer_ids_table (kd : kind) (N : Z) (cands : list json)
    (textmap table : dict) :
  Forall has_int_id cands ->
  NoDup (map id_num cands) ->
  build kd N cands textmap = Ok table ->
  exists s,
    sorted id_key cands = Ok s
    /\ table = firstn (Z.to_nat N) (accepted_entries (entry_of kd textmap) s)
    /\ Forall (fun kr => exists a,
                 In a cands
                 /\ fst kr = str_of_Z (id_num a)
                 /\ int_of_str (fst kr) = Some (id_num a)) table
    /\ StronglySorted (fun k1 k2 => key_int k1 < key_int k2) (keys table).
Proof.
  intros Hint Hnd H.
  assert (Horigin : Forall (fun kr => exists a, In a cands
                     /\ entry_of kd textmap a = Ok (Some kr)) table)
    by (rewrite build_unfold in H; apply (builder_origin _ N), H).
  rewrite build_unfold in H.
  destruct (sorted id_key cands) as [s|e] eqn:Es; [|discriminate H].
  cbv beta iota delta [bind] in H. exists s. split; [reflexivity|].
  destruct (sorted_ok_spec id_key cands s Es) as [P S].
  assert (Hint_s : Forall has_int_id s).
  { rewrite Forall_forall in *. intros x Hx.
    apply Hint, (Permutation_in x (Permutation_sym P) Hx). }
  assert (Hnd_s : NoDup (map id_num s))
    by (apply (Permutation_NoDup (Permutation_map id_num P)), Hnd).
  pose proof (int_ids_accepted_ascending kd textmap s Hint_s Hnd_s S) as Hasc.
  assert (Hkeys : NoDup (accepted_keys (entry_of kd textmap) s)).
  { clear -Hasc. induction Hasc as [|k ks _ IH Hk]; constructor; [|exact IH].
    intros Hin. rewrite Forall_forall in Hk. specialize (Hk k Hin). lia. }
  pose proof (scan_entries (entry_of kd textmap) N s [] table Hkeys H) as T.
  simpl in T. rewrite Z.sub_0_r in T.
  split; [exact T|]. split.
  - eapply Forall_impl; [|exact Horigin].
    intros [k r] (a & Hin & Ha). exists a. split; [exact Hin|].
    rewrite Forall_forall in Hint.
    destruct (entry_key_int_id kd textmap a k r (Hint a Hin) Ha) as [-> _].
    split; [reflexivity | apply int_of_str_str_of_Z].
  - rewrite T. unfold keys. rewrite <- firstn_map.
    fold (keys (accepted_entries (entry_of kd textmap) s)).
    rewrite accepted_entries_keys.
    apply StronglySorted_firstn, Hasc.
Qed.

Lemma integer_ids_table_witness :
  exists s,
    sorted id_key [untyped_avatar; ayaka] = Ok s
    /\ [("10000002", ayaka_record)]
       = firstn (Z.to_nat 1) (accepted_entries (entry_of Character ayaka_textmap) s)
    /\ Forall (fun kr => exists a,
                 In a [untyped_avatar; ayaka]
                 /\ fst kr = str_of_Z (id_num a)
                 /\ int_of_str (fst kr) = Some (id_num a))
         [("10000002", ayaka_record)]
    /\ StronglySorted (fun k1 k2 => key_int k1 < key_int k2)
         (keys [("10000002", ayaka_record)]).
Proof.
  apply (integer_ids_table Character 1 [untyped_avatar; ayaka] ayaka_textmap).
  - repeat constructor; do 2 eexists; split; reflexivity.
  - vm_compute. repeat constructor; simpl; intuition discriminate.
  - vm_compute. reflexivity.
Defined.

(** ** The filters *)

(** X10.  A candidate object is stored exactly when its id is truthy, its icon is
    truthy and starts with the prefix of the kind, and its rarity resolves;
    then it is stored under [str] of its id, with that rarity.  Any other
    object is passed over without an error: an unknown quality code, a rank
    level that [int] refuses, a missing field never raise. *)
Theorem entry_accepts_iff (kd : kind) (textmap m : dict) :
  (passes kd m = true ->
   exists r rarity,
     entry_of kd textmap (JObj m)
     = Ok (Some (py_str (get_or_null m "id"), r))
     /\ rarity_of kd m = Some rarity
     /\ field r "rarity" = Some (JInt rarity))
  /\ (passes kd m = false -> entry_of kd textmap (JObj m) = Ok None).
Proof.
  unfold passes. destruct kd; simpl entry_of; simpl icon_key; simpl icon_prefix;
    simpl rarity_of.
  - unfold character_entry. rewrite !py_get_obj. fold (get_or_null m "id").
    fold (get_or_null m "iconName"). fold (get_or_null m "qualityType").
    cbv beta iota delta [bind].
    destruct (truthy (get_or_null m "id")); simpl;
      [|split; [discriminate | reflexivity]].
    destruct (truthy (get_or_null m "iconName")); simpl;
      [|split; [discriminate | reflexivity]].
    destruct (String.prefix "UI_AvatarIcon_" (py_str (get_or_null m "iconName")));
      simpl; [|split; [discriminate | reflexivity]].
    destruct (rarity_from_quality (py_str (get_or_null m "qualityType"))) as [rarity|];
      [|split; [discriminate | reflexivity]].
    split; [|discriminate]. intros _. do 2 eexists.
    split; [reflexivity|]. split; reflexivity.
  - unfold weapon_entry. rewrite !py_get_obj. fold (get_or_null m "id").
    fold (get_or_null m "icon"). fold (get_or_null m "rankLevel").
    cbv beta iota delta [bind].
    destruct (truthy (get_or_null m "id")); simpl;
      [|split; [discriminate | reflexivity]].
    destruct (truthy (get_or_null m "icon")); simpl;
      [|split; [discriminate | reflexivity]].
    destruct (String.prefix "UI_EquipIcon_" (py_str (get_or_null m "icon")));
      simpl; [|split; [discriminate | reflexivity]].
    destruct (py_int (get_or_null m "rankLevel")) as [rarity|e];
      [|split; [discriminate | reflexivity]].
    split; [|discriminate]. intros _. do 2 eexists.
    split; [reflexivity|]. split; reflexivity.
Qed.

(** ** The image normalizer *)

Section ToBgr.

Variable blend_f32 : Z -> Z -> Z -> Z.

(** X11.  [to_bgr] keeps absence, never loses a picture, keeps its height and the
    width of every row, and is idempotent.  A two-dimensional picture comes
    out with three equal values per pixel; a four-channel picture whose
    pixels carry four values comes out with three per pixel; any other
    picture comes out as it went in. *)
Theorem to_bgr_shape (img : ndarray) :
  to_bgr blend_f32 None = None
  /\ exists out,
       to_bgr blend_f32 (Some img) = Some out
       /\ dims out = dims img
       /\ to_bgr blend_f32 (Some out) = Some out
       /\ match img with
          | Arr2 rows =>
              out = Arr3 3 (map (map (fun v => [v; v; v])) rows)
              /\ pixels_have 3 out
          | Arr3 4 rows =>
              channels_of out = 3
              /\ (pixels_have 4 img -> pixels_have 3 out)
          | _ => out = img
          end.
Proof.
  split; [reflexivity|].
  destruct img as [rows|c rows].
  - eexists. split; [reflexivity|]. split; [|split; [reflexivity|split; [reflexivity|]]].
    + simpl. rewrite length_map, map_map. f_equal.
      apply map_ext. intros row. apply length_map.
    + simpl. induction rows as [|row rows IH]; constructor; [|exact IH].
      induction row as [|v row IHr]; constructor; [reflexivity | exact IHr].
  - destruct (Z.eq_dec c 4) as [->|Hc].
    + eexists. split; [reflexivity|]. split; [|split; [reflexivity|split; [reflexivity|]]].
      * simpl. rewrite length_map, map_map. f_equal.
        apply map_ext. intros row. apply length_map.
      * simpl. intros H. induction H as [|row rows Hrow _ IH]; constructor; [|exact IH].
        induction Hrow as [|px row Hpx _ IHr]; constructor; [|exact IHr].
        destruct px as [|b [|g [|r [|a [|x px]]]]]; try discriminate Hpx. reflexivity.
    + assert (E : to_bgr blend_f32 (Some (Arr3 c rows)) = Some (Arr3 c rows)).
      { destruct c as [|p|p]; try reflexivity.
        destruct p as [p|p|]; try reflexivity.
        destruct p as [p|p|]; try reflexivity.
        destruct p as [p|p|]; try reflexivity. contradiction Hc. reflexivity. }
      exists (Arr3 c rows). split; [exact E|]. split; [reflexivity|].
      split; [exact E|].
      destruct c as [|p|p]; try reflexivity.
      destruct p as [p|p|]; try reflexivity.
      destruct p as [p|p|]; try reflexivity.
      destruct p as [p|p|]; try reflexivity. contradiction Hc. reflexivity.
Qed.

End ToBgr.

(** ** More on the hash index *)

Lemma dict_get_set_same (d : dict) (k : string) (v : json) :
  dict_get (dict_set d k v) k = Some v.
Proof.
  induction d as [|[k' v'] d IH]; simpl.
  - rewrite String.eqb_refl. reflexivity.
  - destruct (String.eqb k' k) eqn:E; simpl; rewrite E; [reflexivity | exact IH].
Qed.

Lemma dict_get_set_other (d : dict) (k k0 : string) (v : json) :
  k0 <> k -> dict_get (dict_set d k v) k0 = dict_get d k0.
Proof.
  intros Hne. induction d as [|[k' v'] d IH]; simpl.
  - destruct (String.eqb k k0) eqn:E; [|reflexivity].
    apply string_eqb_true in E. congruence.
  - destruct (String.eqb k' k) eqn:E; simpl.
    + apply string_eqb_true in E. subst k'.
      destruct (String.eqb k k0) eqn:E0; [|reflexivity].
      apply string_eqb_true in E0. congruence.
    + rewrite IH. reflexivity.
Qed.

Lemma dhash_hex_digits_8
    (cvtColor_BGR2GRAY : ndarray -> res gray)
    (resize_INTER_AREA : gray -> Z -> Z -> res gray)
    (img : ndarray) (h : string) :
  (forall g width height r,
     resize_INTER_AREA g width height = Ok r ->
     List.length r = Z.to_nat height
     /\ Forall (fun row => List.length row = Z.to_nat width) r) ->
  dhash_hex cvtColor_BGR2GRAY resize_INTER_AREA img 8 = Ok h ->
  String.length h = 16%nat /\ string_forall is_lower_hex h = true.
Proof.
  intros Hshape H. unfold dhash_hex in H.
  destruct (cvtColor_BGR2GRAY img) as [g|e]; [|discriminate H].
  cbv beta iota delta [bind] in H.
  destruct (resize_INTER_AREA g (8 + 1) 8) as [r|e] eqn:Er; [|discriminate H].
  cbv beta iota delta [bind] in H. injection H as <-.
  destruct (Hshape _ _ _ _ Er) as [Hrows Hcols].
  pose proof (pack_bits_range (diff_bits r)) as R.
  rewrite (diff_bits_length 8 r Hrows Hcols) in R.
  change ((8 * 8 + 3) / 4) with (Z.of_nat 16).
  apply (format_hex_length (pack_bits (diff_bits r)) 16); [lia|].
  split; [lia|]. eapply Z.lt_le_trans; [apply R|]. vm_compute. discriminate.
Qed.

Section IndexMore.

Context {World : Type}.
Variable urlopen_read :
  string -> list (string * string) -> Z -> World -> res (list byte) * World.
Variable imdecode : list byte -> res (option ndarray).
Variable cvtColor_BGR2GRAY : ndarray -> res gray.
Variable resize_INTER_AREA : gray -> Z -> Z -> res gray.
Variable blend_f32 : Z -> Z -> Z -> Z.

Local Abbreviation loop' :=
  (index_loop World urlopen_read imdecode cvtColor_BGR2GRAY resize_INTER_AREA blend_f32).
Local Abbreviation fetch' := (http_get_bytes World urlopen_read).
Local Abbreviation hash' :=
  (hash_asset imdecode cvtColor_BGR2GRAY resize_INTER_AREA blend_f32).
Local Abbreviation build_index' :=
  (build_hash_index World urlopen_read imdecode cvtColor_BGR2GRAY resize_INTER_AREA
     blend_f32).

Lemma index_loop_unfold (k : string) (m : dict) (rest idx : dict) (w : World) :
  loop' ((k, JObj m) :: rest) idx w
  = if negb (truthy (get_or_null m "icon_name")) then loop' rest idx w
    else
      let (fetched, w') := fetch' (icon_url (get_or_null m "icon_name")) w in
      match (png <- fetched ;; hash' png) with
      | Ok (Some h) => loop' rest (dict_set idx k (JStr h)) w'
      | Ok None => loop' rest idx w'
      | Raise _ => loop' rest idx w'
      end.
Proof.
  change (loop' ((k, JObj m) :: rest) idx w)
    with (match py_get (JObj m) "icon_name" JNull with
          | Raise e => (Raise e, w)
          | Ok icon_name =>
              if negb (truthy icon_name) then loop' rest idx w
              else
                let (fetched, w') := fetch' (icon_url icon_name) w in
                match (png <- fetched ;; hash' png) with
                | Ok (Some h) => loop' rest (dict_set idx k (JStr h)) w'
                | Ok None => loop' rest idx w'
                | Raise _ => loop' rest idx w'
                end
          end).
  rewrite py_get_obj. reflexivity.
Qed.

Lemma index_loop_get_other (k0 : string) :
  forall items idx w idx' w',
  loop' items idx w = (Ok idx', w') ->
  ~ In k0 (keys items) ->
  dict_get idx' k0 = dict_get idx k0.
Proof.
  induction items as [|[k meta] items IH]; intros idx w idx' w' H Hk.
  - simpl in H. injection H as <- _. reflexivity.
  - assert (Hk' : ~ In k0 (keys items)) by (intros X; apply Hk; right; exact X).
    assert (Hne : k0 <> k) by (intros ->; apply Hk; left; reflexivity).
    simpl in H.
    destruct (py_get meta "icon_name" JNull) as [icon|e]; [|discriminate H].
    destruct (negb (truthy icon)); [apply (IH _ _ _ _ H Hk')|].
    destruct (fetch' _ w) as [fetched w1].
    destruct (bind fetched _) as [[h|]|e]; try (apply (IH _ _ _ _ H Hk')).
    rewrite (IH _ _ _ _ H Hk'). apply dict_get_set_other, Hne.
Qed.

(** X12.  A record whose icon is fetched, decoded and hashed gets its
    fingerprint.  When the record [(k, meta)] of a table of objects with
    pairwise different keys is reached, the fetch of its icon returns bytes
    and these hash to [h], the build ends with an index that maps [k] to
    [h]. *)
Theorem asset_success_indexed (pre post : dict) (k : string) (meta icon : json)
    (w w1 w2 : World) (idx1 : dict) (png : list byte) (h : string) :
  Forall (fun kr => is_object (snd kr)) (pre ++ (k, meta) :: post)%list ->
  NoDup (keys (pre ++ (k, meta) :: post)%list) ->
  loop' pre [] w = (Ok idx1, w1) ->
  field meta "icon_name" = Some icon ->
  truthy icon = true ->
  fetch' (icon_url icon) w1 = (Ok png, w2) ->
  hash' png = Ok (Some h) ->
  exists idx w',
    build_index' (pre ++ (k, meta) :: post)%list w = (Ok idx, w')
    /\ dict_get idx k = Some (JStr h).
Proof.
  intros Hobj Hnd Hpre Hf Ht Hfetch Hhash.
  apply Forall_app in Hobj. destruct Hobj as [_ Hobj].
  inversion Hobj as [|? ? [m Hm] Hpost]; subst. simpl in Hm. subst meta.
  simpl in Hf.
  assert (Hicon : get_or_null m "icon_name" = icon)
    by (unfold get_or_null; rewrite Hf; reflexivity).
  destruct (index_loop_total urlopen_read imdecode cvtColor_BGR2GRAY
              resize_INTER_AREA blend_f32 post (dict_set idx1 k (JStr h)) w2 Hpost)
    as [idx [w' Hrest]].
  exists idx, w'. split.
  - unfold build_hash_index.
    rewrite (index_loop_app urlopen_read imdecode cvtColor_BGR2GRAY
               resize_INTER_AREA blend_f32 pre ((k, JObj m) :: post) [] w idx1 w1 Hpre).
    rewrite index_loop_unfold, Hicon, Ht, Hfetch.
    cbv beta iota delta [negb bind]. rewrite Hhash. exact Hrest.
  - rewrite (index_loop_get_other k post _ w2 idx w' Hrest).
    + apply dict_get_set_same.
    + unfold keys in Hnd. rewrite map_app in Hnd. simpl in Hnd.
      apply NoDup_remove_2 in Hnd. intros Hin. apply Hnd, in_app_iff.
      right. exact Hin.
Qed.

(** X13.  The index follows the table.  For a table with pairwise different keys
    the keys of the index are the keys of the table that got an entry, in the
    order of the table, each once. *)
Theorem index_in_table_order (items : dict) (w : World) (idx : dict) (w' : World) :
  NoDup (keys items) ->
  build_index' items w = (Ok idx, w') ->
  keys idx = filter (fun k => mem k (keys idx)) (keys items)
  /\ NoDup (keys idx).
Proof.
  intros Hnd H. unfold build_hash_index in H.
  assert (G : forall items idx0 w0 idx' w1,
            NoDup (keys idx0 ++ keys items) ->
            loop' items idx0 w0 = (Ok idx', w1) ->
            keys idx'
            = (keys idx0 ++ filter (fun k => mem k (keys idx')) (keys items))%list).
  { clear. induction items as [|[k meta] items IH]; intros idx0 w0 idx' w1 Hnd H.
    - simpl in H. injection H as <- _. simpl. rewrite app_nil_r. reflexivity.
    - pose proof H as H0. simpl in H.
      destruct (py_get meta "icon_name" JNull) as [icon|e]; [|discriminate H].
      simpl keys in Hnd |- *.
      pose proof (NoDup_remove_1 _ _ _ Hnd) as Hnd1.
      pose proof (NoDup_remove_2 _ _ _ Hnd) as Hk.
      assert (Hskip : forall w2, loop' items idx0 w2 = (Ok idx', w1) ->
                keys idx'
                = (keys idx0
                   ++ filter (fun k => mem k (keys idx')) (k :: keys items))%list).
      { intros w2 H2. simpl filter.
        destruct (mem k (keys idx')) eqn:Em.
        - exfalso. apply mem_In in Em.
          destruct (index_loop_keys urlopen_read imdecode cvtColor_BGR2GRAY
                      resize_INTER_AREA blend_f32 items idx0 w2 idx' w1 H2) as [I _].
          apply Hk, I, Em.
        - apply (IH _ _ _ _ Hnd1 H2). }
      destruct (negb (truthy icon)); [apply (Hskip w0), H|].
      destruct (fetch' _ w0) as [fetched w2].
      destruct (bind fetched _) as [[h|]|e]; try (apply (Hskip w2), H).
      assert (Hfresh : ~ In k (keys idx0))
        by (intros X; apply Hk, in_app_iff; left; exact X).
      rewrite (dict_set_fresh idx0 k (JStr h) Hfresh) in H.
      assert (Hnd2 : NoDup (keys (idx0 ++ [(k, JStr h)])%list ++ keys items)).
      { unfold keys in Hnd |- *. rewrite map_app, <- app_assoc. exact Hnd. }
      pose proof (IH _ _ _ _ Hnd2 H) as E.
      unfold keys at 2 in E. rewrite map_app, <- app_assoc in E. simpl in E.
      fold (keys idx0) in E.
      simpl filter.
      assert (Em : mem k (keys idx') = true).
      { apply mem_In. rewrite E. apply in_app_iff. right. left. reflexivity. }
      rewrite Em. exact E. }
  pose proof (G items [] w idx w' Hnd H) as E. simpl in E.
  split; [exact E|]. rewrite E. apply NoDup_filter, Hnd.
Qed.

(** X14.  Every value of an index is a fingerprint of sixteen lower-case
    hexadecimal digits, provided the resize returns the size it is asked
    for. *)
Theorem index_values_hex16 (items : dict) (w : World) (idx : dict) (w' : World) :
  (forall g width height r,
     resize_INTER_AREA g width height = Ok r ->
     List.length r = Z.to_nat height
     /\ Forall (fun row => List.length row = Z.to_nat width) r) ->
  build_index' items w = (Ok idx, w') ->
  Forall (fun kv => exists h,
            snd kv = JStr h
            /\ String.length h = 16%nat
            /\ string_forall is_lower_hex h = true) idx.
Proof.
  intros Hshape H. unfold build_hash_index in H.
  assert (G : forall items idx0 w0 idx' w1,
            Forall (fun kv => exists h, snd kv = JStr h /\ String.length h = 16%nat
                              /\ string_forall is_lower_hex h = true) idx0 ->
            loop' items idx0 w0 = (Ok idx', w1) ->
            Forall (fun kv => exists h, snd kv = JStr h /\ String.length h = 16%nat
                              /\ string_forall is_lower_hex h = true) idx').
  { clear H. induction items0 as [|[k meta] items0 IH]; intros idx0 w0 idx' w1 H0 H.
    - simpl in H. injection H as <- _. exact H0.
    - simpl in H.
      destruct (py_get meta "icon_name" JNull) as [icon|e]; [|discriminate H].
      destruct (negb (truthy icon)); [apply (IH _ _ _ _ H0 H)|].
      destruct (fetch' _ w0) as [fetched w2].
      destruct (bind fetched _) as [[h|]|e] eqn:Eb; try (apply (IH _ _ _ _ H0 H)).
      refine (IH _ _ _ _ _ H).
      rewrite Forall_forall in *. intros [k0 v0] Hin.
      destruct (dict_set_In _ _ _ _ _ Hin) as [Hold|[-> ->]]; [apply H0, Hold|].
      exists h. split; [reflexivity|].
      destruct fetched as [png|e]; [|discriminate Eb].
      cbv beta iota delta [bind] in Eb. unfold hash_asset in Eb.
      destruct (imdecode png) as [[img|]|e]; try discriminate Eb.
      cbv beta iota delta [bind] in Eb.
      destruct (to_bgr blend_f32 (Some img)) as [bgr|]; [|discriminate Eb].
      destruct (dhash_hex cvtColor_BGR2GRAY resize_INTER_AREA bgr 8) as [h'|e] eqn:Eh;
        [|discriminate Eb].
      cbv beta iota delta [bind] in Eb. injection Eb as <-.
      apply (dhash_hex_digits_8 _ _ _ _ Hshape Eh). }
  apply (G items [] w idx w'); [constructor | exact H].
Qed.

End IndexMore.

Lemma sample_resize_shape (g : gray) (width height : Z) (r : gray) :
  sample_resize g width height = Ok r ->
  List.length r = Z.to_nat height
  /\ Forall (fun row => List.length row = Z.to_nat width) r.
Proof.
  unfold sample_resize.
  destruct ((height =? Z.of_nat (List.length g)) && (0 <? width)) eqn:E;
    [|discriminate].
  apply andb_prop in E. destruct E as [Eh _]. apply Z.eqb_eq in Eh.
  intros H. injection H as <-. split.
  - rewrite length_map. lia.
  - rewrite Forall_forall. intros row Hrow.
    apply in_map_iff in Hrow. destruct Hrow as [src [<- _]].
    rewrite length_map, length_seq. reflexivity.
Qed.

Lemma asset_success_indexed_witness :
  exists idx w',
    build_hash_index nat sample_urlopen sample_imdecode sample_cvtColor
      sample_resize sample_blend sample_table 0%nat = (Ok idx, w')
    /\ dict_get idx "10000005" = Some (JStr "ffffffffffffffff").
Proof.
  apply (asset_success_indexed sample_urlopen sample_imdecode sample_cvtColor
           sample_resize sample_blend
           [("10000002", ayaka_record)] [] "10000005"
           (JObj [ ("name", JStr "#10000005"); ("rarity", JInt 5);
                   ("element", JNull); ("weapon_type", JStr "None");
                   ("icon_name", JStr "UI_AvatarIcon_PlayerBoy") ])
           (JStr "UI_AvatarIcon_PlayerBoy") 0%nat 1%nat 2%nat []
           [x89; x50; x4e; x47; x0d; x0a; x1a; x0a] "ffffffffffffffff").
  - repeat constructor; eexists; reflexivity.
  - repeat constructor; simpl; intuition discriminate.
  - reflexivity.
  - reflexivity.
  - reflexivity.
  - reflexivity.
  - vm_compute. reflexivity.
Defined.

Lemma index_in_table_order_witness :
  keys [("10000005", JStr "ffffffffffffffff")]
  = filter (fun k => mem k (keys [("10000005", JStr "ffffffffffffffff")]))
      (keys sample_table)
  /\ NoDup (keys [("10000005", JStr "ffffffffffffffff")]).
Proof.
  apply (index_in_table_order sample_urlopen sample_imdecode sample_cvtColor
           sample_resize sample_blend sample_table 0%nat
           [("10000005", JStr "ffffffffffffffff")] 2%nat).
  - repeat constructor; simpl; intuition discriminate.
  - vm_compute. reflexivity.
Defined.

Lemma index_values_hex16_witness :
  Forall (fun kv => exists h,
            snd kv = JStr h
            /\ String.length h = 16%nat
            /\ string_forall is_lower_hex h = true)
    [("10000005", JStr "ffffffffffffffff")].
Proof.
  apply (index_values_hex16 sample_urlopen sample_imdecode sample_cvtColor
           sample_resize sample_blend sample_table 0%nat
           [("10000005", JStr "ffffffffffffffff")] 2%nat).
  - exact sample_resize_shape.
  - vm_compute. reflexivity.
Defined.

(** ** The digest of a file *)

Section DigestFacts.

Variable sha256 : Type.
Variable sha256_new : sha256.
Variable update : sha256 -> list byte -> sha256.
Variable hexdigest : sha256 -> string.

(** What [hashlib] promises: feeding two chunks is feeding their
    concatenation, and feeding nothing changes nothing. *)
Hypothesis update_app : forall h a b, update (update h a) b = update h (a ++ b)%list.
Hypothesis update_nil : forall h, update h [] = h.

Lemma digest_loop_whole (fuel : nat) :
  forall h rest,
  (List.length rest < fuel)%nat ->
  digest_loop sha256 update fuel h rest = update h rest.
Proof.
  induction fuel as [|fuel IH]; intros h rest Hf; [lia|].
  cbn [digest_loop]. unfold read_chunk.
  set (size := Z.to_nat (1024 * 1024)).
  assert (Hsize : (1 <= size)%nat) by (unfold size; lia).
  clearbody size.
  destruct (firstn size rest) as [|b chunk] eqn:Ec.
  - destruct rest as [|x rest]; [symmetry; apply update_nil|].
    destruct size; [lia | discriminate Ec].
  - rewrite IH.
    + rewrite update_app, <- Ec, firstn_skipn. reflexivity.
    + rewrite length_skipn.
      destruct rest as [|x rest]; [rewrite firstn_nil in Ec; discriminate Ec|].
      cbn [List.length] in Hf |- *. lia.
Qed.

(** X15.  Reading a file in chunks of one mebibyte gives the digest of its whole
    content, whatever its length; a path that names no file raises. *)
Theorem sha256_file_whole (fs : files) (path : string) :
  match dict_get fs path with
  | Some content =>
      sha256_file sha256 sha256_new update hexdigest fs path
      = Ok (hexdigest (update sha256_new content))
  | None =>
      exists e, sha256_file sha256 sha256_new update hexdigest fs path = Raise e
  end.
Proof.
  unfold sha256_file. destruct (dict_get fs path) as [content|].
  - rewrite digest_loop_whole by lia. reflexivity.
  - eexists. reflexivity.
Qed.

End DigestFacts.

Lemma sha256_file_whole_witness :
  match dict_get [("./characters.json", [x7b; x7d])] "./characters.json" with
  | Some content =>
      sha256_file (list byte) [] sample_update sample_hexdigest
        [("./characters.json", [x7b; x7d])] "./characters.json"
      = Ok (sample_hexdigest (sample_update [] content))
  | None =>
      exists e,
        sha256_file (list byte) [] sample_update sample_hexdigest
          [("./characters.json", [x7b; x7d])] "./characters.json" = Raise e
  end.
Proof.
  apply (sha256_file_whole (list byte) [] sample_update sample_hexdigest).
  - intros h a b. unfold sample_update. symmetry. apply app_assoc.
  - intros h. unfold sample_update. apply app_nil_r.
Defined.

(** ** Repeated keys *)

Lemma scan_last_entry (entry : json -> res (option (string * json))) (n : Z) :
  forall l out out',
  scan entry n l out = Ok out' ->
  exists pre post,
    l = (pre ++ post)%list
    /\ (post = [] \/ n <= len out')
    /\ (forall p x q, pre = (p ++ x :: q)%list ->
         exists t, scan entry n p out = Ok t /\ len t < n)
    /\ scan entry n pre out = Ok out'
    /\ forall k,
         dict_get out' k
         = match last_entry entry pre k with
           | Some r => Some r
           | None => dict_get out k
           end.
Proof.
  induction l as [|a l IH]; intros out out' H.
  - simpl in H. injection H as <-. exists [], []. split; [reflexivity|].
    split; [left; reflexivity|]. split.
    { intros p x q E. destruct p; discriminate E. }
    split; [reflexivity|]. intros k. reflexivity.
  - simpl in H. destruct (len out >=? n) eqn:Eg.
    + injection H as <-. rewrite Z.geb_leb in Eg. apply Z.leb_le in Eg.
      exists [], (a :: l). split; [reflexivity|]. split; [right; exact Eg|].
      split.
      { intros p x q E. destruct p; discriminate E. }
      split; [reflexivity|]. intros k. reflexivity.
    + assert (Hlt : len out < n).
      { rewrite Z.geb_leb in Eg. apply Z.leb_gt in Eg. exact Eg. }
      destruct (entry a) as [[[k' r']|]|e] eqn:Ea; [| |discriminate H];
        cbv beta iota delta [bind] in H;
        destruct (IH _ _ H) as (pre & post & -> & Hcut & Hmin & Hpre & Hget);
        exists (a :: pre), post; (split; [reflexivity|]); (split; [exact Hcut|]).
      * split.
        { intros p x q E. destruct p as [|a' p].
          - exists out. split; [reflexivity | exact Hlt].
          - injection E as <- E. destruct (Hmin p x q E) as (t & Ht & Hl).
            exists t. split; [|exact Hl].
            simpl scan. rewrite Eg, Ea. exact Ht. }
        split; [simpl scan; rewrite Eg, Ea; exact Hpre|].
        intros k. rewrite Hget. simpl last_entry. rewrite Ea.
        destruct (last_entry entry pre k) as [r|]; [reflexivity|].
        destruct (String.eqb k' k) eqn:E.
        -- apply string_eqb_true in E. subst k'. apply dict_get_set_same.
        -- apply dict_get_set_other. intros ->. rewrite String.eqb_refl in E.
           discriminate E.
      * split.
        { intros p x q E. destruct p as [|a' p].
          - exists out. split; [reflexivity | exact Hlt].
          - injection E as <- E. destruct (Hmin p x q E) as (t & Ht & Hl).
            exists t. split; [|exact Hl].
            simpl scan. rewrite Eg, Ea. exact Ht. }
        split; [simpl scan; rewrite Eg, Ea; exact Hpre|].
        intros k. rewrite Hget. simpl last_entry. rewrite Ea.
        destruct (last_entry entry pre k) as [r|]; reflexivity.
Qed.

(** X16.  A later candidate overwrites an earlier one of the same key.  The
    sorted candidates split into those the loop scanned and the rest.  The
    rest is empty unless the table reached the bound; each scanned candidate
    was reached with fewer than [N] keys in the table, so the scanned part
    ends where the bound was reached and the table is the loop's result on
    it alone.  Under each key the table holds the record of the last scanned
    candidate stored under that key; there is no record under any other
    key. *)
Theorem later_duplicate_overwrites (kd : kind) (N : Z) (cands : list json)
    (textmap table : dict) :
  build kd N cands textmap = Ok table ->
  exists s scanned rest,
    sorted id_key cands = Ok s
    /\ s = (scanned ++ rest)%list
    /\ (rest = [] \/ N <= len table)
    /\ (forall p x q, scanned = (p ++ x :: q)%list ->
         exists t, scan (entry_of kd textmap) N p [] = Ok t /\ len t < N)
    /\ scan (entry_of kd textmap) N scanned [] = Ok table
    /\ forall k, dict_get table k = last_entry (entry_of kd textmap) scanned k.
Proof.
  intros H. rewrite build_unfold in H.
  destruct (sorted id_key cands) as [s|e] eqn:Es; [|discriminate H].
  cbv beta iota delta [bind] in H.
  destruct (scan_last_entry _ _ _ _ _ H) as (pre & post & E & Hcut & Hmin & Hpre & Hget).
  exists s, pre, post. split; [reflexivity|]. split; [exact E|].
  split; [exact Hcut|]. split; [exact Hmin|]. split; [exact Hpre|].
  intros k. rewrite Hget.
  destruct (last_entry (entry_of kd textmap) pre k); reflexivity.
Qed.

Lemma later_duplicate_overwrites_witness :
  exists s scanned rest,
    sorted id_key
      [ayaka;
       JObj [ ("id", JStr "10000002"); ("iconName", JStr "UI_AvatarIcon_Twin");
              ("qualityType", JStr "QUALITY_WHITE") ];
       untyped_avatar] = Ok s
    /\ s = (scanned ++ rest)%list
    /\ (rest = []
        \/ 2 <= len (("10000002",
                      JObj [ ("name", JStr "#10000002"); ("rarity", JInt 1);
                             ("element", JNull); ("weapon_type", JStr "None");
                             ("icon_name", JStr "UI_AvatarIcon_Twin") ])
                     :: tl sample_table))
    /\ (forall p x q, scanned = (p ++ x :: q)%list ->
         exists t,
           scan (entry_of Character ayaka_textmap) 2 p [] = Ok t /\ len t < 2)
    /\ scan (entry_of Character ayaka_textmap) 2 scanned []
       = Ok (("10000002",
              JObj [ ("name", JStr "#10000002"); ("rarity", JInt 1);
                     ("element", JNull); ("weapon_type", JStr "None");
                     ("icon_name", JStr "UI_AvatarIcon_Twin") ])
             :: tl sample_table)
    /\ forall k,
         dict_get (("10000002",
                    JObj [ ("name", JStr "#10000002"); ("rarity", JInt 1);
                           ("element", JNull); ("weapon_type", JStr "None");
                           ("icon_name", JStr "UI_AvatarIcon_Twin") ])
                   :: tl sample_table) k
         = last_entry (entry_of Character ayaka_textmap) scanned k.
Proof.
  apply (later_duplicate_overwrites Character 2
           [ayaka;
            JObj [ ("id", JStr "10000002"); ("iconName", JStr "UI_AvatarIcon_Twin");
                   ("qualityType", JStr "QUALITY_WHITE") ];
            untyped_avatar] ayaka_textmap).
  vm_compute. reflexivity.
Defined.

(** ** The run *)

Lemma fs_write_same (fs : files) (path : string) (content : list byte) :
  dict_get (fs_write fs path content) path = Some content.
Proof.
  induction fs as [|[p c] fs IH]; simpl.
  - rewrite String.eqb_refl. reflexivity.
  - destruct (String.eqb p path) eqn:E; simpl; rewrite E; [reflexivity | exact IH].
Qed.

Lemma fs_write_other (fs : files) (path q : string) (content : list byte) :
  q <> path -> dict_get (fs_write fs path content) q = dict_get fs q.
Proof.
  intros Hne. induction fs as [|[p c] fs IH]; simpl.
  - destruct (String.eqb path q) eqn:E; [|reflexivity].
    apply string_eqb_true in E. congruence.
  - destruct (String.eqb p path) eqn:E; simpl.
    + apply string_eqb_true in E. subst p.
      destruct (String.eqb path q) eqn:E0; [|reflexivity].
      apply string_eqb_true in E0. congruence.
    + rewrite IH. reflexivity.
Qed.

Lemma scan_bound (entry : json -> res (option (string * json))) (n : Z) :
  forall l out out',
  scan entry n l out = Ok out' -> len out' <= Z.max n (len out).
Proof.
  induction l as [|a l IH]; intros out out' H.
  - simpl in H. injection H as <-. lia.
  - simpl in H. destruct (len out >=? n) eqn:Eg.
    + injection H as <-. lia.
    + rewrite Z.geb_leb in Eg. apply Z.leb_gt in Eg.
      destruct (entry a) as [[[k r]|]|e]; [| |discriminate H];
        cbv beta iota delta [bind] in H; apply IH in H; [|lia].
      rewrite (len_keys (dict_set out k r)), keys_dict_set in H.
      pose proof (len_keys out) as Lo.
      destruct (mem k (keys out)); [lia|].
      rewrite length_app in H. simpl List.length in H. lia.
Qed.

Lemma build_from_bound (kd : kind) (n : Z) (cands textmap : json) (table : dict) :
  build_from kd n cands textmap = Ok table -> len table <= Z.max n 0.
Proof.
  unfold build_from. intros H.
  destruct (py_iter cands) as [l|e]; [|discriminate H].
  cbv beta iota delta [bind] in H.
  destruct (sorted id_key l) as [s|e]; [|discriminate H].
  cbv beta iota delta [bind] in H.
  apply scan_bound in H. exact H.
Qed.

Lemma four_writes (d : files) (c w hc hw : list byte) :
  let d4 :=
    fs_write (fs_write (fs_write (fs_write d OUT_CHAR c) OUT_WEAP w)
                OUT_HIDX_CHAR hc) OUT_HIDX_WEAP hw in
  dict_get d4 OUT_CHAR = Some c
  /\ dict_get d4 OUT_WEAP = Some w
  /\ dict_get d4 OUT_HIDX_CHAR = Some hc
  /\ dict_get d4 OUT_HIDX_WEAP = Some hw
  /\ forall q,
       ~ In q [OUT_CHAR; OUT_WEAP; OUT_HIDX_CHAR; OUT_HIDX_WEAP] ->
       dict_get d4 q = dict_get d q.
Proof.
  intros d4. unfold d4.
  assert (N : forall a b : string, String.eqb a b = false -> a <> b)
    by (intros a b E ->; rewrite String.eqb_refl in E; discriminate E).
  repeat split.
  - rewrite !fs_write_other by (apply N; reflexivity). apply fs_write_same.
  - rewrite !fs_write_other by (apply N; reflexivity). apply fs_write_same.
  - rewrite !fs_write_other by (apply N; reflexivity). apply fs_write_same.
  - apply fs_write_same.
  - intros q Hq. simpl in Hq.
    rewrite !fs_write_other; [reflexivity | | | |]; intros ->; apply Hq; tauto.
Qed.

Section RunFacts.

Context {World : Type}.
Variable urlopen_read :
  string -> list (string * string) -> Z -> World -> res (list byte) * World.
Variable json_loads : list byte -> res json.
Variable imdecode : list byte -> res (option ndarray).
Variable cvtColor_BGR2GRAY : ndarray -> res gray.
Variable resize_INTER_AREA : gray -> Z -> Z -> res gray.
Variable blend_f32 : Z -> Z -> Z -> Z.
Variable open_w : string -> World -> option exn * World.
Variable json_dump : json -> list byte * option exn.
Variable sha256 : Type.
Variable sha256_new : sha256.
Variable update : sha256 -> list byte -> sha256.
Variable hexdigest : sha256 -> string.
Variable datetime : Type.
Variable now_utc : World -> datetime * World.
Variable isoformat_seconds : datetime -> string.
Variable strftime_ymd : datetime -> string.
Variables N_CHARACTERS N_WEAPONS : Z.

Local Abbreviation st_t := (state World).
Local Abbreviation main' :=
  (main World urlopen_read json_loads imdecode cvtColor_BGR2GRAY resize_INTER_AREA
     blend_f32 open_w json_dump sha256 sha256_new update hexdigest datetime now_utc
     isoformat_seconds strftime_ymd N_CHARACTERS N_WEAPONS).
Local Abbreviation digests' :=
  (file_digests World sha256 sha256_new update hexdigest).
Local Abbreviation get_json := (http_get_json World urlopen_read json_loads).
Local Abbreviation index' :=
  (build_hash_index World urlopen_read imdecode cvtColor_BGR2GRAY
     resize_INTER_AREA blend_f32).
Local Abbreviation save' := (save_json World open_w json_dump).

Local Abbreviation write_tail :=
  (write_pack World open_w json_dump sha256 sha256_new update hexdigest datetime
     now_utc isoformat_seconds strftime_ymd).

Lemma bind_run_inv {A B : Type} (m : run World A) (k : A -> run World B)
    (st st' : st_t) (r : res B) :
  bind_run World m k st = (r, st') ->
  (exists a st1, m st = (Ok a, st1) /\ k a st1 = (r, st'))
  \/ (exists e, m st = (Raise e, st') /\ r = Raise e).
Proof.
  unfold bind_run. destruct (m st) as [[a|e] st1]; intros H.
  - left. exists a, st1. split; [reflexivity | exact H].
  - right. injection H as <- <-. exists e. split; reflexivity.
Qed.

Lemma print_inv (line : string) (st st' : st_t) (r : res unit) :
  print World line st = (r, st') ->
  r = Ok tt /\ disk World st' = disk World st /\ world World st' = world World st.
Proof. unfold print. intros H. injection H as <- <-. repeat split. Qed.

Lemma lift_inv {A : Type} (x : res A) (st st' : st_t) (r : res A) :
  lift World x st = (r, st') -> r = x /\ st' = st.
Proof. unfold lift. intros H. injection H as <- <-. split; reflexivity. Qed.

Lemma outside_inv {A : Type} (f : World -> res A * World) (st st' : st_t)
    (r : res A) :
  outside World f st = (r, st') ->
  f (world World st) = (r, world World st')
  /\ disk World st' = disk World st.
Proof.
  unfold outside. destruct (f (world World st)) as [r0 w'].
  intros H. injection H as <- <-. split; reflexivity.
Qed.

Lemma clock_inv (w w' : World) (r : res datetime) :
  clock World datetime now_utc w = (r, w') ->
  exists t, r = Ok t /\ now_utc w = (t, w').
Proof.
  unfold clock. destruct (now_utc w) as [t w1].
  intros H. injection H as <- <-. exists t. split; reflexivity.
Qed.

(** Saving either fails to open the file and leaves the files alone, or
    opens it and leaves in it what the dump wrote. *)
Lemma save_json_inv (path : string) (obj : json) (st st' : st_t) (r : res unit) :
  save' path obj st = (r, st') ->
  (exists e,
     open_w path (world World st) = (Some e, world World st')
     /\ r = Raise e
     /\ disk World st' = disk World st)
  \/ (open_w path (world World st) = (None, world World st')
      /\ disk World st' = fs_write (disk World st) path (fst (json_dump obj))
      /\ r = match snd (json_dump obj) with
             | None => Ok tt
             | Some e => Raise e
             end).
Proof.
  unfold save_json. destruct (open_w path (world World st)) as [[e|] w'].
  - intros H. injection H as <- <-. left. exists e. repeat split.
  - destruct (json_dump obj) as [written failure].
    intros H. injection H as <- <-. right. repeat split.
Qed.

Ltac run_bind H a st1 Hm :=
  apply bind_run_inv in H;
  destruct H as [(a & st1 & Hm & H) | (? & Hm & ?)].

Ltac no_print P := apply print_inv in P as (X & _); discriminate X.

(** The first half of [main]: it either raises with the files as they
    were, or hands the two tables and the two indexes to the second half,
    still with the files as they were. *)
Lemma main_gather (st st' : st_t) (r : res unit) :
  main' st = (r, st') ->
  (exists e, r = Raise e /\ disk World st' = disk World st)
  \/ exists avatars weapons textmap chars weaps hidx_char hidx_weap
            w1 w2 w3 w4 s,
       get_json URL_AVATARS (world World st) = (Ok avatars, w1)
       /\ get_json URL_WEAPONS w1 = (Ok weapons, w2)
       /\ get_json URL_TEXTMAP_EN w2 = (Ok textmap, w3)
       /\ build_from Character N_CHARACTERS avatars textmap = Ok chars
       /\ build_from Weapon N_WEAPONS weapons textmap = Ok weaps
       /\ index' chars w3 = (Ok hidx_char, w4)
       /\ index' weaps w4 = (Ok hidx_weap, world World s)
       /\ disk World s = disk World st
       /\ write_tail chars weaps hidx_char hidx_weap s = (r, st').
Proof.
  intros H. unfold main in H.
  run_bind H u1 s1 P1; [apply print_inv in P1 as (_ & D1 & W1) | no_print P1].
  run_bind H avatars s2 G1; apply outside_inv in G1 as (G1 & D2);
    [| left; eexists; split; [eassumption | congruence]].
  run_bind H weapons s3 G2; apply outside_inv in G2 as (G2 & D3);
    [| left; eexists; split; [eassumption | congruence]].
  run_bind H textmap s4 G3; apply outside_inv in G3 as (G3 & D4);
    [| left; eexists; split; [eassumption | congruence]].
  run_bind H u2 s5 P2; [apply print_inv in P2 as (_ & D5 & W5) | no_print P2].
  run_bind H chars s6 L1; apply lift_inv in L1 as (B1 & ->);
    [| left; eexists; split; [eassumption | congruence]].
  run_bind H weaps s7 L2; apply lift_inv in L2 as (B2 & ->);
    [| left; eexists; split; [eassumption | congruence]].
  run_bind H u3 s8 P3; [apply print_inv in P3 as (_ & D8 & W8) | no_print P3].
  run_bind H u4 s9 P4; [apply print_inv in P4 as (_ & D9 & W9) | no_print P4].
  run_bind H u5 s10 P5; [apply print_inv in P5 as (_ & D10 & W10) | no_print P5].
  run_bind H hidx_char s11 I1; apply outside_inv in I1 as (I1 & D11);
    [| left; eexists; split; [eassumption | congruence]].
  run_bind H hidx_weap s12 I2; apply outside_inv in I2 as (I2 & D12);
    [| left; eexists; split; [eassumption | congruence]].
  run_bind H u6 s13 P6; [apply print_inv in P6 as (_ & D13 & W13) | no_print P6].
  run_bind H u7 s14 P7; [apply print_inv in P7 as (_ & D14 & W14) | no_print P7].
  right.
  exists avatars, weapons, textmap, chars, weaps, hidx_char, hidx_weap.
  exists (world World s2), (world World s3), (world World s4), (world World s11), s14.
  rewrite W1 in G1. rewrite W10, W9, W8, W5 in I1.
  rewrite W14, W13.
  repeat split; try assumption; try (symmetry; assumption); congruence.
Qed.

Lemma save_json_ok (path : string) (obj : json) (st st' : st_t) (u : unit) :
  save' path obj st = (Ok u, st') ->
  open_w path (world World st) = (None, world World st')
  /\ snd (json_dump obj) = None
  /\ disk World st' = fs_write (disk World st) path (fst (json_dump obj)).
Proof.
  intros H. apply save_json_inv in H.
  destruct H as [(e & _ & X & _) | (O & D & R)]; [discriminate X|].
  destruct (snd (json_dump obj)); [discriminate R|]. repeat split; assumption.
Qed.

(** X17.  A run that fails has either left every file as it was, or had
    fetched the three documents, built the two tables and the two indexes
    and opened the first file before it failed.  So whatever goes wrong
    while fetching, parsing, building or hashing goes wrong before the
    first file is touched, and only a failure after the first file was
    opened can leave the pack half written. *)
Theorem run_fails_before_writing (st st' : st_t) (e : exn) :
  main' st = (Raise e, st') ->
  disk World st' = disk World st
  \/ exists avatars weapons textmap chars weaps hidx_char hidx_weap
            w1 w2 w3 w4 w5 w6,
       get_json URL_AVATARS (world World st) = (Ok avatars, w1)
       /\ get_json URL_WEAPONS w1 = (Ok weapons, w2)
       /\ get_json URL_TEXTMAP_EN w2 = (Ok textmap, w3)
       /\ build_from Character N_CHARACTERS avatars textmap = Ok chars
       /\ build_from Weapon N_WEAPONS weapons textmap = Ok weaps
       /\ index' chars w3 = (Ok hidx_char, w4)
       /\ index' weaps w4 = (Ok hidx_weap, w5)
       /\ open_w OUT_CHAR w5 = (None, w6).
Proof.
  intros H. apply main_gather in H.
  destruct H as [(e0 & _ & D) | H]; [left; exact D|].
  destruct H as (avatars & weapons & textmap & chars & weaps & hidx_char
                 & hidx_weap & w1 & w2 & w3 & w4 & s
                 & T1 & T2 & T3 & T4 & T5 & T6 & T7 & Ds & H).
  unfold write_pack in H.
  destruct (open_w OUT_CHAR (world World s)) as [[e1|] w6] eqn:O1.
  - left. unfold bind_run, save_json in H. rewrite O1 in H.
    injection H as _ <-. exact Ds.
  - right.
    exists avatars, weapons, textmap, chars, weaps, hidx_char, hidx_weap.
    exists w1, w2, w3, w4, (world World s), w6.
    repeat split; assumption.
Qed.

Hypothesis update_app : forall h a b, update (update h a) b = update h (a ++ b)%list.
Hypothesis update_nil : forall h, update h [] = h.

(** The digests of the four data files, once they are on disk. *)
Lemma file_digests_four (st : st_t) (c w hc hw : list byte) :
  dict_get (disk World st) OUT_CHAR = Some c ->
  dict_get (disk World st) OUT_WEAP = Some w ->
  dict_get (disk World st) OUT_HIDX_CHAR = Some hc ->
  dict_get (disk World st) OUT_HIDX_WEAP = Some hw ->
  digests' [OUT_CHAR; OUT_WEAP; OUT_HIDX_CHAR; OUT_HIDX_WEAP] [] st
  = (Ok (pack_digests sha256 sha256_new update hexdigest c w hc hw), st).
Proof.
  intros Hc Hw Hhc Hhw.
  cbn [file_digests]. unfold bind_run, digest_of, sha256_file, lift.
  rewrite Hc, Hw, Hhc, Hhw.
  rewrite !(digest_loop_whole sha256 update update_app update_nil) by lia.
  reflexivity.
Qed.

(** X18.  A run that ends well has written the pack.  The three documents
    are what the three addresses served, one after the other; the two tables
    are built from them and each keeps to its bound; the two indexes are
    those of the two tables, built in that order, and each is no longer than
    its table; the five files were opened in their order, the clock read
    twice before the last; the serializer failed on none of them; the four
    data files hold what the serializer makes of the tables and indexes; the
    manifest, written last, carries the two readings of the clock, counts
    the tables and indexes, lists the digest of the whole content of each of
    the four data files and not its own; and no other file is touched. *)
Theorem run_writes_pack (st st' : st_t) :
  main' st = (Ok tt, st') ->
  exists avatars weapons textmap chars weaps hidx_char hidx_weap now today
         manifest w1 w2 w3 w4 w5 w6 w7 w8 w9 w10 w11,
    get_json URL_AVATARS (world World st) = (Ok avatars, w1)
    /\ get_json URL_WEAPONS w1 = (Ok weapons, w2)
    /\ get_json URL_TEXTMAP_EN w2 = (Ok textmap, w3)
    /\ build_from Character N_CHARACTERS avatars textmap = Ok chars
    /\ build_from Weapon N_WEAPONS weapons textmap = Ok weaps
    /\ index' chars w3 = (Ok hidx_char, w4)
    /\ index' weaps w4 = (Ok hidx_weap, w5)
    /\ open_w OUT_CHAR w5 = (None, w6)
    /\ open_w OUT_WEAP w6 = (None, w7)
    /\ open_w OUT_HIDX_CHAR w7 = (None, w8)
    /\ open_w OUT_HIDX_WEAP w8 = (None, w9)
    /\ now_utc w9 = (now, w10)
    /\ now_utc w10 = (today, w11)
    /\ open_w OUT_MANIFEST w11 = (None, world World st')
    /\ manifest
       = manifest_of (strftime_ymd today) (isoformat_seconds now)
           chars weaps hidx_char hidx_weap
           (pack_digests sha256 sha256_new update hexdigest
              (fst (json_dump (JObj chars))) (fst (json_dump (JObj weaps)))
              (fst (json_dump (JObj hidx_char)))
              (fst (json_dump (JObj hidx_weap))))
    /\ Forall (fun v => snd (json_dump v) = None)
         [JObj chars; JObj weaps; JObj hidx_char; JObj hidx_weap; manifest]
    /\ len chars <= Z.max N_CHARACTERS 0
    /\ len weaps <= Z.max N_WEAPONS 0
    /\ len hidx_char <= len chars
    /\ len hidx_weap <= len weaps
    /\ dict_get (disk World st') OUT_CHAR = Some (fst (json_dump (JObj chars)))
    /\ dict_get (disk World st') OUT_WEAP = Some (fst (json_dump (JObj weaps)))
    /\ dict_get (disk World st') OUT_HIDX_CHAR
       = Some (fst (json_dump (JObj hidx_char)))
    /\ dict_get (disk World st') OUT_HIDX_WEAP
       = Some (fst (json_dump (JObj hidx_weap)))
    /\ dict_get (disk World st') OUT_MANIFEST = Some (fst (json_dump manifest))
    /\ (forall q,
          ~ In q [OUT_CHAR; OUT_WEAP; OUT_HIDX_CHAR; OUT_HIDX_WEAP; OUT_MANIFEST] ->
          dict_get (disk World st') q = dict_get (disk World st) q).
Proof.
  intros H. apply main_gather in H.
  destruct H as [(e0 & X & _) | H]; [discriminate X|].
  destruct H as (avatars & weapons & textmap & chars & weaps & hidx_char
                 & hidx_weap & w1 & w2 & w3 & w4 & s
                 & T1 & T2 & T3 & T4 & T5 & T6 & T7 & Ds & H).
  unfold write_pack in H.
  run_bind H u8 s15 S1; [apply save_json_ok in S1 as (O1 & J1 & D15) | congruence].
  run_bind H u9 s16 S2; [apply save_json_ok in S2 as (O2 & J2 & D16) | congruence].
  run_bind H u10 s17 S3; [apply save_json_ok in S3 as (O3 & J3 & D17) | congruence].
  run_bind H u11 s18 S4; [apply save_json_ok in S4 as (O4 & J4 & D18) | congruence].
  run_bind H now s19 C1; [|congruence].
  apply outside_inv in C1 as (C1 & D19). apply clock_inv in C1 as (t1 & X1 & C1).
  injection X1 as ->.
  run_bind H today s20 C2; [|congruence].
  apply outside_inv in C2 as (C2 & D20). apply clock_inv in C2 as (t2 & X2 & C2).
  injection X2 as ->.
  assert (D4 : disk World s20
               = fs_write (fs_write (fs_write (fs_write (disk World s) OUT_CHAR
                   (fst (json_dump (JObj chars)))) OUT_WEAP
                   (fst (json_dump (JObj weaps)))) OUT_HIDX_CHAR
                   (fst (json_dump (JObj hidx_char)))) OUT_HIDX_WEAP
                   (fst (json_dump (JObj hidx_weap)))) by congruence.
  destruct (four_writes (disk World s) (fst (json_dump (JObj chars)))
              (fst (json_dump (JObj weaps))) (fst (json_dump (JObj hidx_char)))
              (fst (json_dump (JObj hidx_weap)))) as (F1 & F2 & F3 & F4 & F5).
  rewrite <- D4 in F1, F2, F3, F4, F5.
  run_bind H filled s21 FD; [|congruence].
  rewrite (file_digests_four s20 _ _ _ _ F1 F2 F3 F4) in FD.
  injection FD as <- <-.
  run_bind H u12 s22 S5; [apply save_json_ok in S5 as (O5 & J5 & D22) | congruence].
  apply print_inv in H as (_ & D23 & W23).
  assert (N : forall a b : string, String.eqb a b = false -> a <> b)
    by (intros a b E ->; rewrite String.eqb_refl in E; discriminate E).
  exists avatars, weapons, textmap, chars, weaps, hidx_char, hidx_weap, t1, t2.
  eexists.
  exists w1, w2, w3, w4, (world World s), (world World s15), (world World s16),
    (world World s17), (world World s18), (world World s19), (world World s20).
  do 7 (split; [assumption|]).
  do 4 (split; [assumption|]).
  do 2 (split; [assumption|]).
  split; [rewrite W23; exact O5|].
  split; [reflexivity|].
  split; [repeat constructor; assumption|].
  split; [apply (build_from_bound _ _ _ _ _ T4)|].
  split; [apply (build_from_bound _ _ _ _ _ T5)|].
  split.
  { unfold build_hash_index in T6.
    destruct (index_loop_keys _ _ _ _ _ _ _ _ _ _ T6) as [_ L].
    rewrite (len_keys hidx_char). unfold len. simpl in L. lia. }
  split.
  { unfold build_hash_index in T7.
    destruct (index_loop_keys _ _ _ _ _ _ _ _ _ _ T7) as [_ L].
    rewrite (len_keys hidx_weap). unfold len. simpl in L. lia. }
  rewrite D23, D22.
  split; [rewrite fs_write_other by (apply N; reflexivity); exact F1|].
  split; [rewrite fs_write_other by (apply N; reflexivity); exact F2|].
  split; [rewrite fs_write_other by (apply N; reflexivity); exact F3|].
  split; [rewrite fs_write_other by (apply N; reflexivity); exact F4|].
  split; [apply fs_write_same|].
  intros q Hq. simpl in Hq.
  rewrite fs_write_other by (intros ->; apply Hq; tauto).
  rewrite F5 by (simpl; tauto). congruence.
Qed.

End RunFacts.

(** In the directory whose [weapons.json] cannot be opened the sample run
    raises after [characters.json] is written: the pack is left half
    written. *)
Example locked_run_leaves_one_file :
  fst (sample_main_locked sample_start) = Raise (LibError "PermissionError")
  /\ dict_get (disk nat (snd (sample_main_locked sample_start))) OUT_CHAR
     = Some (fst (sample_json_dump (JObj sample_table)))
  /\ dict_get (disk nat (snd (sample_main_locked sample_start))) OUT_WEAP = None.
Proof. vm_compute. repeat split. Qed.

(** Against the site that serves no document the sample run raises with
    the files as they were. *)
Example offline_run_writes_nothing :
  fst (sample_main_offline sample_start) = Raise ValueError
  /\ disk nat (snd (sample_main_offline sample_start)) = disk nat sample_start.
Proof. vm_compute. split; reflexivity. Qed.

Lemma run_fails_before_writing_witness :
  disk nat (snd (sample_main_locked sample_start)) = disk nat sample_start
  \/ exists avatars weapons textmap chars weaps hidx_char hidx_weap
            w1 w2 w3 w4 w5 w6,
       http_get_json nat sample_site sample_json_loads URL_AVATARS
         (world nat sample_start) = (Ok avatars, w1)
       /\ http_get_json nat sample_site sample_json_loads URL_WEAPONS w1
          = (Ok weapons, w2)
       /\ http_get_json nat sample_site sample_json_loads URL_TEXTMAP_EN w2
          = (Ok textmap, w3)
       /\ build_from Character 30 avatars textmap = Ok chars
       /\ build_from Weapon 30 weapons textmap = Ok weaps
       /\ build_hash_index nat sample_site sample_imdecode sample_cvtColor
            sample_resize sample_blend chars w3 = (Ok hidx_char, w4)
       /\ build_hash_index nat sample_site sample_imdecode sample_cvtColor
            sample_resize sample_blend weaps w4 = (Ok hidx_weap, w5)
       /\ sample_open_locked OUT_CHAR w5 = (None, w6).
Proof.
  apply (run_fails_before_writing sample_site sample_json_loads sample_imdecode
           sample_cvtColor sample_resize sample_blend sample_open_locked
           sample_json_dump (list byte) [] sample_update sample_hexdigest nat
           sample_now sample_stamp sample_stamp 30 30
           sample_start (snd (sample_main_locked sample_start))
           (LibError "PermissionError")).
  vm_compute. reflexivity.
Defined.

Lemma run_writes_pack_witness :
  exists avatars weapons textmap chars weaps hidx_char hidx_weap now today
         manifest w1 w2 w3 w4 w5 w6 w7 w8 w9 w10 w11,
    http_get_json nat sample_site sample_json_loads URL_AVATARS
      (world nat sample_start) = (Ok avatars, w1)
    /\ http_get_json nat sample_site sample_json_loads URL_WEAPONS w1
       = (Ok weapons, w2)
    /\ http_get_json nat sample_site sample_json_loads URL_TEXTMAP_EN w2
       = (Ok textmap, w3)
    /\ build_from Character 30 avatars textmap = Ok chars
    /\ build_from Weapon 30 weapons textmap = Ok weaps
    /\ build_hash_index nat sample_site sample_imdecode sample_cvtColor
         sample_resize sample_blend chars w3 = (Ok hidx_char, w4)
    /\ build_hash_index nat sample_site sample_imdecode sample_cvtColor
         sample_resize sample_blend weaps w4 = (Ok hidx_weap, w5)
    /\ sample_open OUT_CHAR w5 = (None, w6)
    /\ sample_open OUT_WEAP w6 = (None, w7)
    /\ sample_open OUT_HIDX_CHAR w7 = (None, w8)
    /\ sample_open OUT_HIDX_WEAP w8 = (None, w9)
    /\ sample_now w9 = (now, w10)
    /\ sample_now w10 = (today, w11)
    /\ sample_open OUT_MANIFEST w11
       = (None, world nat (snd (sample_main sample_start)))
    /\ manifest
       = manifest_of (sample_stamp today) (sample_stamp now)
           chars weaps hidx_char hidx_weap
           (pack_digests (list byte) [] sample_update sample_hexdigest
              (fst (sample_json_dump (JObj chars)))
              (fst (sample_json_dump (JObj weaps)))
              (fst (sample_json_dump (JObj hidx_char)))
              (fst (sample_json_dump (JObj hidx_weap))))
    /\ Forall (fun v => snd (sample_json_dump v) = None)
         [JObj chars; JObj weaps; JObj hidx_char; JObj hidx_weap; manifest]
    /\ len chars <= Z.max 30 0
    /\ len weaps <= Z.max 30 0
    /\ len hidx_char <= len chars
    /\ len hidx_weap <= len weaps
    /\ dict_get (disk nat (snd (sample_main sample_start))) OUT_CHAR
       = Some (fst (sample_json_dump (JObj chars)))
    /\ dict_get (disk nat (snd (sample_main sample_start))) OUT_WEAP
       = Some (fst (sample_json_dump (JObj weaps)))
    /\ dict_get (disk nat (snd (sample_main sample_start))) OUT_HIDX_CHAR
       = Some (fst (sample_json_dump (JObj hidx_char)))
    /\ dict_get (disk nat (snd (sample_main sample_start))) OUT_HIDX_WEAP
       = Some (fst (sample_json_dump (JObj hidx_weap)))
    /\ dict_get (disk nat (snd (sample_main sample_start))) OUT_MANIFEST
       = Some (fst (sample_json_dump manifest))
    /\ (forall q,
          ~ In q [OUT_CHAR; OUT_WEAP; OUT_HIDX_CHAR; OUT_HIDX_WEAP; OUT_MANIFEST] ->
          dict_get (disk nat (snd (sample_main sample_start))) q
          = dict_get (disk nat sample_start) q).
Proof.
  apply (run_writes_pack sample_site sample_json_loads sample_imdecode
           sample_cvtColor sample_resize sample_blend sample_open
           sample_json_dump (list byte) [] sample_update sample_hexdigest nat
           sample_now sample_stamp sample_stamp 30 30).
  - intros h a b. unfold sample_update. symmetry. apply app_assoc.
  - intros h. unfold sample_update. apply app_nil_r.
  - vm_compute. reflexivity.
Defined.

(** ** Pictures without a rising edge *)

Lemma row_diff_nonincreasing (row : list Z) :
  nonincreasingb row = true ->
  row_diff row = repeat false (pred (List.length row)).
Proof.
  induction row as [|a row IH]; [reflexivity|].
  destruct row as [|b row]; [reflexivity|].
  intros H. change (nonincreasingb (a :: b :: row))
    with ((b <=? a) && nonincreasingb (b :: row)) in H.
  apply andb_prop in H. destruct H as [Hab H].
  specialize (IH H). apply Z.leb_le in Hab.
  assert (Hgt : (b >? a) = false) by (rewrite Z.gtb_ltb; apply Z.ltb_ge; exact Hab).
  unfold row_diff in *.
  change (tl (a :: b :: row)) with (b :: row).
  change (removelast (a :: b :: row)) with (a :: removelast (b :: row)).
  destruct row as [|c row].
  - simpl. rewrite Hgt. reflexivity.
  - change (combine (b :: c :: row) (a :: removelast (b :: c :: row)))
      with ((b, a) :: combine (tl (b :: c :: row)) (removelast (b :: c :: row))).
    rewrite map_cons, IH. simpl fst. simpl snd. rewrite Hgt. reflexivity.
Qed.

Lemma diff_bits_nonincreasing (w : nat) (resized : gray) :
  Forall (fun row => List.length row = S w /\ nonincreasingb row = true) resized ->
  diff_bits resized = repeat false (List.length resized * w).
Proof.
  unfold diff_bits.
  induction 1 as [|row rows [Hlen Hinc] _ IH]; [reflexivity|].
  simpl. rewrite IH, row_diff_nonincreasing, Hlen by exact Hinc.
  simpl pred. rewrite <- repeat_app. reflexivity.
Qed.

(** X19.  A picture without a rising edge hashes to zero.  When the
    grayscale conversion and the resize to 9 columns by 8 rows succeed and no
    resized pixel is below its right neighbour, as for a picture of one
    colour or one that only darkens to the right, every bit is 0 and
    [dhash_hex] with [hash_size = 8] returns sixteen [0]. *)
Theorem dhash_flat_all_zeros
    (cvtColor_BGR2GRAY : ndarray -> res gray)
    (resize_INTER_AREA : gray -> Z -> Z -> res gray)
    (img : ndarray) (g resized : gray) :
  cvtColor_BGR2GRAY img = Ok g ->
  resize_INTER_AREA g 9 8 = Ok resized ->
  List.length resized = 8%nat ->
  Forall (fun row => List.length row = 9%nat /\ nonincreasingb row = true) resized ->
  diff_bits resized = repeat false 64
  /\ dhash_hex cvtColor_BGR2GRAY resize_INTER_AREA img 8 = Ok "0000000000000000".
Proof.
  intros Hg Hr Hrows Hinc.
  assert (Hbits : diff_bits resized = repeat false 64).
  { rewrite (diff_bits_nonincreasing 8) by exact Hinc. rewrite Hrows. reflexivity. }
  split; [exact Hbits|].
  unfold dhash_hex. rewrite Hg. simpl bind.
  change (8 + 1) with 9. rewrite Hr. simpl bind.
  rewrite Hbits. vm_compute. reflexivity.
Qed.

Lemma dhash_flat_all_zeros_witness :
  diff_bits (repeat (repeat 180 9) 8) = repeat false 64
  /\ dhash_hex sample_cvtColor sample_resize flat_image 8 = Ok "0000000000000000".
Proof.
  apply (dhash_flat_all_zeros sample_cvtColor sample_resize flat_image
           (repeat (repeat 180 8) 8)).
  - vm_compute. reflexivity.
  - vm_compute. reflexivity.
  - reflexivity.
  - repeat constructor.
Defined.

(** ** Documents of another shape *)

Lemma build_from_build (kd : kind) (n : Z) (l : list json) (tm : dict) :
  build_from kd n (JArr l) (JObj tm) = build kd n l tm.
Proof. rewrite build_unfold. reflexivity. Qed.

Lemma scan_without_textmap (kd : kind) (textmap : json) (n : Z) :
  (forall tm, textmap <> JObj tm) ->
  forall s,
  Forall is_object s ->
  scan (entry_with kd textmap) n s []
  = if (n <=? 0) || match accepted_keys (entry_of kd []) s with
                    | [] => true
                    | _ => false
                    end
    then Ok [] else Raise AttributeError.
Proof.
  intros Htm. induction s as [|a s IH]; intros Hobj.
  - simpl. rewrite orb_true_r. reflexivity.
  - inversion Hobj as [|? ? Ha Hobj']; subst.
    simpl scan. simpl accepted_keys.
    change (len []) with 0. rewrite Z.geb_leb.
    destruct (n <=? 0) eqn:En; [reflexivity|].
    simpl orb.
    assert (Ew : entry_with kd textmap a
                 = (e <- entry_of kd [] a ;;
                    match e with
                    | Some _ => Raise AttributeError
                    | None => Ok None
                    end)).
    { unfold entry_with. destruct textmap; try reflexivity.
      exfalso. apply (Htm m). reflexivity. }
    rewrite Ew.
    destruct (entry_of_total kd [] a Ha) as [e He]. rewrite He.
    cbv beta iota delta [bind].
    destruct e as [[k r]|]; [reflexivity|].
    rewrite (IH Hobj'). reflexivity.
Qed.

(** X20.  Documents of another shape.  Called on an array of candidates and
    an object as text map, a builder is as described above.  A candidate
    document that is null, a boolean or a number raises [TypeError]; a
    non-empty object or text raises [AttributeError], an empty one gives the
    empty table.  A text map that is not an object makes the builder raise
    [AttributeError] exactly when the bound is positive and some candidate
    passes the filters; otherwise the table is empty. *)
Theorem build_from_shapes (kd : kind) (n : Z) (cands textmap : json) :
  match cands with
  | JArr l =>
      match textmap with
      | JObj tm => build_from kd n cands textmap = build kd n l tm
      | _ =>
          forall s, sorted id_key l = Ok s ->
          build_from kd n cands textmap
          = if (n <=? 0) || match accepted_keys (entry_of kd []) s with
                            | [] => true
                            | _ => false
                            end
            then Ok [] else Raise AttributeError
      end
  | JObj [] | JStr EmptyString => build_from kd n cands textmap = Ok []
  | JObj _ | JStr _ => build_from kd n cands textmap = Raise AttributeError
  | _ => build_from kd n cands textmap = Raise TypeError
  end.
Proof.
  destruct cands as [| b | z | f | str | l | m]; try reflexivity.
  - destruct str as [|c str]; reflexivity.
  - assert (G : forall s, (forall tm, textmap <> JObj tm) ->
              sorted id_key l = Ok s ->
              build_from kd n (JArr l) textmap
              = if (n <=? 0) || match accepted_keys (entry_of kd []) s with
                                | [] => true
                                | _ => false
                                end
                then Ok [] else Raise AttributeError).
    { intros s Htm Es. unfold build_from. simpl py_iter.
      cbv beta iota delta [bind]. rewrite Es.
      apply (scan_without_textmap kd textmap n Htm).
      rewrite Forall_forall. intros x Hx.
      destruct (sorted_In id_key l s Es x Hx) as [_ [k Hk]].
      exact (id_key_object x k Hk). }
    destruct textmap;
      try (intros sorted_l Hsorted; apply (G sorted_l);
           [intros tm; discriminate | exact Hsorted]).
    apply build_from_build.
  - destruct m as [|[k v] m]; reflexivity.
Qed.

(** ** Ramps that rise too slowly *)

Lemma Forall2_Exists {A B : Type} (R : A -> B -> Prop) (P : A -> Prop)
    (l : list A) (l' : list B) :
  Forall2 R l l' -> Exists P l -> exists a b, In b l' /\ R a b /\ P a.
Proof.
  induction 1 as [|a b l l' Hab _ IH]; intros Hex; inversion Hex; subst.
  - exists a, b. split; [left; reflexivity|]. split; assumption.
  - destruct (IH H0) as (a0 & b0 & Hin & HR & HP).
    exists a0, b0. split; [right; exact Hin|]. split; assumption.
Qed.

Lemma Forall2_widened_lengths (g resized : gray) :
  Forall2 (fun row out => widenedb 9 row out = true) g resized ->
  Forall (fun out => List.length out = 9%nat) resized.
Proof.
  induction 1 as [|row out g' r' Hw _ IH]; constructor; [|exact IH].
  unfold widenedb in Hw. apply andb_prop in Hw. destruct Hw as [Hl _].
  apply Z.eqb_eq in Hl. lia.
Qed.

(** X21.  Strict increase is not enough for sixteen [f].  When a row of the
    grayscale picture rises by single levels from its third pixel to its
    sixth, the widened row has two equal neighbours among its fourth, fifth
    and sixth pixels however the resize breaks ties, so one of the 64 bits
    is 0 and [dhash_hex] with [hash_size = 8] returns something else than
    sixteen [f]. *)
Theorem dhash_unit_steps_zero_bit
    (cvtColor_BGR2GRAY : ndarray -> res gray)
    (resize_INTER_AREA : gray -> Z -> Z -> res gray)
    (img : ndarray) (g resized : gray) :
  cvtColor_BGR2GRAY img = Ok g ->
  List.length g = 8%nat ->
  Exists (fun row => unit_steps_mid row = true) g ->
  resize_INTER_AREA g 9 8 = Ok resized ->
  Forall2 (fun row out => widenedb 9 row out = true) g resized ->
  diff_bits resized <> repeat true 64
  /\ dhash_hex cvtColor_BGR2GRAY resize_INTER_AREA img 8 <> Ok "ffffffffffffffff".
Proof.
  intros Hg Hrows Hex Hr Hw.
  assert (Hbits : diff_bits resized <> repeat true 64).
  { intros B.
    destruct (Forall2_Exists _ _ _ _ Hw Hex) as (row & out & Hin & Hwid & Hmid).
    destruct row as [|p0 [|p1 [|p2 [|p3 [|p4 [|p5 [|p6 [|p7 [|p8 row]]]]]]]]];
      try discriminate Hmid.
    cbn [unit_steps_mid] in Hmid.
    apply andb_prop in Hmid. destruct Hmid as [Hmid M3].
    apply andb_prop in Hmid. destruct Hmid as [M1 M2].
    apply Z.eqb_eq in M1, M2, M3.
    apply widened_9 in Hwid.
    destruct Hwid as (o0 & o1 & o2 & o3 & o4 & o5 & o6 & o7 & o8 & -> & Hb).
    assert (Hall : forall b, In b (row_diff [o0; o1; o2; o3; o4; o5; o6; o7; o8]) ->
                             b = true).
    { intros b Hb'. apply (repeat_spec 64 true b). rewrite <- B.
      unfold diff_bits. apply in_concat.
      exists (row_diff [o0; o1; o2; o3; o4; o5; o6; o7; o8]).
      split; [|exact Hb']. apply in_map. exact Hin. }
    assert (H34 : (o4 >? o3) = true) by (apply Hall; simpl; tauto).
    assert (H45 : (o5 >? o4) = true) by (apply Hall; simpl; tauto).
    rewrite Z.gtb_ltb in H34, H45. apply Z.ltb_lt in H34, H45. lia. }
  split; [exact Hbits|].
  intros Heq. apply Hbits.
  unfold dhash_hex in Heq. rewrite Hg in Heq. simpl bind in Heq.
  change (8 + 1) with 9 in Heq. rewrite Hr in Heq. simpl bind in Heq.
  injection Heq as Heq.
  assert (L : List.length (diff_bits resized) = 64%nat).
  { apply (diff_bits_length 8).
    - rewrite <- (Forall2_length Hw). exact Hrows.
    - apply Forall2_widened_lengths with (g := g). exact Hw. }
  apply pack_bits_inj; [rewrite L, repeat_length; reflexivity|].
  apply (f_equal hex_value) in Heq.
  rewrite (proj1 (format_hex_value _ _ (proj1 (pack_bits_range (diff_bits resized)))))
    in Heq.
  rewrite Heq. vm_compute. reflexivity.
Qed.

Lemma dhash_unit_steps_zero_bit_witness :
  diff_bits (repeat [0; 1; 2; 3; 4; 4; 5; 37; 255] 8) <> repeat true 64
  /\ dhash_hex sample_cvtColor sample_resize unit_ramp_image 8
     <> Ok "ffffffffffffffff".
Proof.
  apply (dhash_unit_steps_zero_bit sample_cvtColor sample_resize unit_ramp_image
           (repeat unit_ramp 8)).
  - vm_compute. reflexivity.
  - reflexivity.
  - left. reflexivity.
  - vm_compute. reflexivity.
  - repeat constructor.
Defined.
